(** * Native smart accounts (RIP-7560): the account factory and the Simple
    implementation

  A shallow embedding of
    - [experimental/rip7560/accounts/types.ts]
    - [experimental/rip7560/accounts/toNativeSmartAccount.ts]
    - [experimental/rip7560/accounts/implementations/toSimpleNativeSmartAccount.ts]
      (both revisions: the tuple-array batch ABI and the three-array batch ABI)

  Asynchronous functions are modelled in a state-and-exception monad: a
  computation takes the state of everything it may touch (closure variables
  and the outside world) and gives back either a value or a thrown error,
  together with the new state.  External collaborators (ABI codec, EIP-712
  hasher, RPC reads, owner signer, ERC-6492 serializer) are parameters. *)

From Stdlib Require Import ZArith List String Ascii Bool Lia.
From Stdlib Require Import Strings.Byte.
From Stdlib Require HexString.
Import ListNotations.
Open Scope string_scope.
Open Scope list_scope.
Open Scope Z_scope.

Set Implicit Arguments.
#[local] Set Warnings "-register-all".

(* ------------------------------------------------------------------------- *)
(** ** Errors and the state-and-exception monad                               *)
(* ------------------------------------------------------------------------- *)

(** What a [throw] carries.  [BaseError] is viem's own error class, the two
  next ones are raised by the JS runtime, and [ExternalError] stands for any
  failure coming out of a collaborator (codec, transport, owner). *)
Inductive Error : Type :=
| BaseError (shortMessage : string)
| TypeError (message : string)
| RangeError (message : string)
| ExternalError (name : string) (details : string).

Inductive Result (A : Type) : Type :=
| Ok (value : A)
| Err (error : Error).
Arguments Ok {A} value.
Arguments Err {A} error.

(** [M S A]: an async function returning [Promise<A>] that runs over a state
  [S].  State changes made before a rejection are kept. *)
Definition M (S A : Type) : Type := S -> Result A * S.

Definition ret {S A} (a : A) : M S A := fun s => (Ok a, s).
Definition throw {S A} (e : Error) : M S A := fun s => (Err e, s).
Definition bind {S A B} (m : M S A) (k : A -> M S B) : M S B :=
  fun s => match m s with
           | (Ok a, s') => k a s'
           | (Err e, s') => (Err e, s')
           end.
Definition get {S} : M S S := fun s => (Ok s, s).
Definition liftResult {S A} (r : Result A) : M S A := fun s => (r, s).

Declare Scope async_scope.
Delimit Scope async_scope with async.
Notation "x <- m ;; k" := (bind m (fun x => k))
  (at level 61, m at next level, right associativity) : async_scope.
Notation "' pat <- m ;; k" := (bind m (fun x => match x with pat => k end))
  (at level 61, pat pattern, m at next level, right associativity) : async_scope.
Open Scope async_scope.

(** Running a computation that lives on a part of the state. *)
Definition zoom {S T A} (proj : S -> T) (upd : T -> S -> S) (m : M T A) : M S A :=
  fun s => let (r, t') := m (proj s) in (r, upd t' s).

(* ------------------------------------------------------------------------- *)
(** ** Values: bigint, Hex, Address                                           *)
(* ------------------------------------------------------------------------- *)

(** A JS [bigint] is an unbounded integer. *)
Definition bigint : Type := Z.

Definition uint256_max : Z := 2 ^ 256 - 1.
Definition is_uint256 (v : Z) : Prop := 0 <= v <= uint256_max.
Definition is_uint160 (v : Z) : Prop := 0 <= v < 2 ^ 160.

(** [Hex] is the template type [`0x${string}`]; we keep the bytes the digits
  denote.  [Address] is a 20-byte [Hex], kept as the number it denotes (the
  checksum casing of the digits is representation only). *)
Definition Hex : Type := list byte.
Definition Address : Type := Z.
Definition Hash : Type := Hex.

(** The JS string of a [Hex] value: the prefix "0x" and two digits per byte. *)
Definition hexDigit (n : N) : ascii :=
  match n with
  | 0 => "0" | 1 => "1" | 2 => "2" | 3 => "3" | 4 => "4" | 5 => "5"
  | 6 => "6" | 7 => "7" | 8 => "8" | 9 => "9" | 10 => "a" | 11 => "b"
  | 12 => "c" | 13 => "d" | 14 => "e" | _ => "f"
  end%N%char.

Fixpoint hexDigits (bs : list byte) : string :=
  match bs with
  | [] => EmptyString
  | b :: bs' =>
      String (hexDigit (N.div (Byte.to_N b) 16))
        (String (hexDigit (N.modulo (Byte.to_N b) 16)) (hexDigits bs'))
  end.

Definition hexString (h : Hex) : string := ("0x" ++ hexDigits h)%string.

(** Digits of an address: 20 bytes, big endian. *)
Fixpoint bytesOfZ (len : nat) (v : Z) : list byte :=
  match len with
  | O => []
  | S len' =>
      bytesOfZ len' (v / 256) ++
        [match Byte.of_N (Z.to_N (v mod 256)) with Some b => b | None => x00 end]
  end.

Definition addressString (a : Address) : string := hexString (bytesOfZ 20 a).

(** JS truthiness of a string: every string but the empty one. *)
Definition truthyString (s : string) : bool :=
  match s with EmptyString => false | String _ _ => true end.

(** Truthiness of [Hex | undefined] and [Address | undefined]. *)
Definition truthyHex (h : option Hex) : bool :=
  match h with None => false | Some h => truthyString (hexString h) end.
Definition truthyAddress (a : option Address) : bool :=
  match a with None => false | Some a => truthyString (addressString a) end.

(* ------------------------------------------------------------------------- *)
(** ** JS [Number] and the conversions [Number(bigint)], [BigInt(number)]     *)
(* ------------------------------------------------------------------------- *)

(** The Number values that matter here: finite doubles holding an integer,
  and the infinities ([Number(bigint)] never gives a fraction or NaN). *)
Inductive JsNumber : Type :=
| NumInt (z : Z)
| NumInf (negative : bool).

(** Nearest double of a non-negative integer, ties to even: keep the 53 most
  significant bits.  The largest finite double is [2^1024 - 2^971]; what
  rounds beyond it is Infinity. *)
Definition roundToDouble (n : Z) : Z :=
  let e := Z.log2 n - 52 in
  if e <=? 0 then n
  else
    let q := Z.shiftr n e in
    let r := Z.land n (Z.ones e) in
    let half := Z.shiftl 1 (e - 1) in
    let q' := if (half <? r) || ((r =? half) && Z.odd q) then q + 1 else q in
    Z.shiftl q' e.

Definition Number_of_bigint (n : bigint) : JsNumber :=
  let m := roundToDouble (Z.abs n) in
  if 2 ^ 1024 <=? m then NumInf (n <? 0) else NumInt (Z.sgn n * m).

(** [BigInt(x)] on a Number: exact on integers, a RangeError otherwise. *)
Definition BigInt_of_Number (x : JsNumber) : Result bigint :=
  match x with
  | NumInt z => Ok z
  | NumInf _ => Err (RangeError "The number Infinity cannot be converted to a BigInt because it is not an integer")
  end.

(** A number obtained from a collaborator typed [Promise<number>] that really
  holds an integer (nonce keys): [BigInt] of it is that integer. *)
Definition BigInt_of_integer (n : Z) : Result bigint := BigInt_of_Number (NumInt n).

(* ------------------------------------------------------------------------- *)
(** ** ABI items and values, and the ABI call codec                           *)
(* ------------------------------------------------------------------------- *)

Inductive AbiType : Type :=
| TAddress
| TBool
| TString
| TBytes
| TUint (bits : nat)
| TBytesN (size : nat)
| TArray (elem : AbiType)
| TTuple (components : list (string * AbiType)).

(** The JS values the codec takes and gives: addresses, bigints, hex strings,
  arrays, and objects keyed by component name for tuples. *)
Inductive AbiValue : Type :=
| VAddress (a : Address)
| VBool (b : bool)
| VString (s : string)
| VInt (n : bigint)
| VHex (h : Hex)
| VArray (items : list AbiValue)
| VObject (fields : list (string * AbiValue)).

(** Items of [type: 'function'] of an ABI constant, with their inputs. *)
Record AbiFunction : Type := {
  fn_name : string;
  fn_inputs : list (string * AbiType);
}.
Definition Abi : Type := list AbiFunction.

(** Property read [obj.key]; [None] is [undefined]. *)
Fixpoint getField (key : string) (fields : list (string * AbiValue)) : option AbiValue :=
  match fields with
  | [] => None
  | (k, v) :: rest => if String.eqb k key then Some v else getField key rest
  end.

(** [abi.find((x) => x.type === 'function' && x.name === name)]. *)
Definition getAbiItem (abi : Abi) (name : string) : option AbiFunction :=
  find (fun f => String.eqb (fn_name f) name) abi.

(** A value fits a type: an address is 20 bytes, a [uintN] (N at most 256)
  is below [2^N], a [bytesN] (N at most 32) has N bytes, the length of a
  string, of a byte string and of an array fits the uint256 that encodes
  it, and for a tuple the object holds every component under its name. *)
Definition fitsLength (n : nat) : bool := Z.of_nat n <? 2 ^ 256.

Fixpoint hasType (t : AbiType) (v : AbiValue) {struct t} : bool :=
  match t, v with
  | TAddress, VAddress a => (0 <=? a) && (a <? 2 ^ 160)
  | TBool, VBool _ => true
  | TString, VString s => fitsLength (String.length s)
  | TBytes, VHex h => fitsLength (List.length h)
  | TUint bits, VInt n =>
      Nat.leb bits 256 && ((0 <=? n) && (n <? 2 ^ Z.of_nat bits))
  | TBytesN size, VHex h => Nat.leb size 32 && Nat.eqb (List.length h) size
  | TArray elem, VArray items =>
      fitsLength (List.length items) && forallb (hasType elem) items
  | TTuple components, VObject fields =>
      (fix all (cs : list (string * AbiType)) : bool :=
         match cs with
         | [] => true
         | (k, t') :: cs' =>
             match getField k fields with
             | Some v' => hasType t' v'
             | None => false
             end && all cs'
         end) components
  | _, _ => false
  end.

Fixpoint hasTypes (ps : list (string * AbiType)) (args : list AbiValue) : bool :=
  match ps, args with
  | [], [] => true
  | (_, t) :: ps', v :: args' => hasType t v && hasTypes ps' args'
  | _, _ => false
  end.

(** What decoding gives back for a value that was encoded: the same value,
  with the fields of an object in the order of the tuple's components. *)
Fixpoint canonical (t : AbiType) (v : AbiValue) {struct t} : AbiValue :=
  match t, v with
  | TArray elem, VArray items => VArray (map (canonical elem) items)
  | TTuple components, VObject fields =>
      VObject
        ((fix all (cs : list (string * AbiType)) : list (string * AbiValue) :=
            match cs with
            | [] => []
            | (k, t') :: cs' =>
                match getField k fields with
                | Some v' => (k, canonical t' v') :: all cs'
                | None => all cs'
                end
            end) components)
  | _, _ => v
  end.

Fixpoint canonicals (ps : list (string * AbiType)) (args : list AbiValue) : list AbiValue :=
  match ps, args with
  | (_, t) :: ps', v :: args' => canonical t v :: canonicals ps' args'
  | _, _ => []
  end.

(** [slice(data, 0, 4)]. *)
Definition selectorOf (data : Hex) : Hex := firstn 4 data.

(** Result of [decodeFunctionData]. *)
Record DecodedFunctionData : Type := {
  functionName : string;
  args : list AbiValue;
}.

(** Modelled from the spec: the ABI call codec ([utils/abi/encodeFunctionData],
  [utils/abi/decodeFunctionData] and the selector function they share) is an
  external collaborator, known by its interface: [encodeFunctionCall(abi, fn,
  args) -> bytes] and [decodeFunctionCall(abi, bytes) -> {fn, args}].  The
  laws say that calldata starts with the selector of the function named,
  that arguments of the right types always encode, that decoding inverts
  encoding when the ABI has no two functions with one selector, and that
  decoding only ever names a function of the ABI whose selector heads the
  data. *)
Class AbiCodec : Type := {
  toFunctionSelector : AbiFunction -> Hex;
  encodeFunctionData : Abi -> string -> list AbiValue -> Result Hex;
  decodeFunctionData : Abi -> Hex -> Result DecodedFunctionData;

  selector_length : forall f, List.length (toFunctionSelector f) = 4%nat;
  encode_well_typed :
    forall abi name f args,
      getAbiItem abi name = Some f ->
      hasTypes (fn_inputs f) args = true ->
      exists body,
        encodeFunctionData abi name args = Ok (toFunctionSelector f ++ body);
  decode_encode :
    forall abi name f args data,
      NoDup (map toFunctionSelector abi) ->
      getAbiItem abi name = Some f ->
      hasTypes (fn_inputs f) args = true ->
      encodeFunctionData abi name args = Ok data ->
      decodeFunctionData abi data =
        Ok {| functionName := name; args := canonicals (fn_inputs f) args |};
  decode_names_selector :
    forall abi data r,
      decodeFunctionData abi data = Ok r ->
      exists f,
        In f abi /\ fn_name f = functionName r /\
        toFunctionSelector f = selectorOf data;
}.

(* ------------------------------------------------------------------------- *)
(** ** types.ts                                                               *)
(* ------------------------------------------------------------------------- *)

Record Chain : Type := { chain_id : Z }.

(** Of the client, the code reads [client.chain] only; the rest of it is what
  the collaborators do with the world. *)
Record Client : Type := { chain : option Chain }.

(** [client.chain!.id]: the non-null assertion is erased at run time, and
  reading [id] of [undefined] throws. *)
Definition chainIdOf (client : Client) : Result Z :=
  match chain client with
  | Some c => Ok (chain_id c)
  | None => Err (TypeError "Cannot read properties of undefined (reading 'id')")
  end.

Record Call : Type := {
  to : Address;
  data : option Hex;
  value : option bigint;
}.

Record DeployerArgs : Type := {
  deployer : option Address;
  deployerData : option Hex;
}.

Record GetNonceParameters : Type := { key : option bigint }.

Inductive SignableMessage : Type :=
| MessageString (s : string)
| MessageRaw (raw : Hex).

Record TypedDataDomain : Type := {
  domain_chainId : option Z;
  domain_name : option string;
  domain_verifyingContract : option Address;
  domain_version : option string;
  domain_salt : option Hex;
}.

Record TypedDataDefinition : Type := {
  td_domain : option TypedDataDomain;
  td_types : list (string * list (string * string));
  td_primaryType : string;
  td_message : list (string * AbiValue);
}.

(** The fields of a RIP-7560 transaction request. *)
Record TransactionRequest : Type := {
  tx_chainId : option Z;
  tx_sender : option Address;
  tx_nonceKey : option bigint;
  tx_nonce : option Z;
  tx_executionData : option Hex;
  tx_builderFee : option bigint;
  tx_verificationGasLimit : option bigint;
  tx_deployer : option Address;
  tx_deployerData : option Hex;
  tx_paymaster : option Address;
  tx_paymasterData : option Hex;
  tx_paymasterVerificationGasLimit : option bigint;
  tx_paymasterPostOpGasLimit : option bigint;
  tx_authorizationData : option Hex;
  tx_gas : option bigint;
  tx_maxFeePerGas : option bigint;
  tx_maxPriorityFeePerGas : option bigint;
}.
Definition TransactionSerializable : Type := TransactionRequest.

(** [ExactPartial<EstimateRIP7560TransactionGasReturnType>]. *)
Record EstimateGasReturn : Type := {
  est_verificationGasLimit : option bigint;
  est_gas : option bigint;
  est_paymasterVerificationGasLimit : option bigint;
  est_paymasterPostOpGasLimit : option bigint;
}.

Record ConsumeParameters : Type := {
  consume_address : Address;
  consume_chainId : Z;
  consume_client : Client;
}.

(** [NonceManager]: of its operations the factory calls [consume] only.  It
  resolves to a JS number holding an integer. *)
Record NonceManager (W : Type) : Type := {
  consume : ConsumeParameters -> M W Z;
}.

Module Implementation.
(** [NativeSmartAccountImplementation<extend>]: [W] is the state its
  methods run over. *)
Record NativeSmartAccountImplementation (W E : Type) : Type := {
    client : Client;
    extend : option E;
    getAddress : M W Address;
    decodeCalls : option (Hex -> M W (list Call));
    encodeCalls : list Call -> M W Hex;
    getDeployerArgs : M W DeployerArgs;
    getNonce : option (option GetNonceParameters -> M W Z);
    getStubSignature : M W Hex;
    nonceKeyManager : option (NonceManager W);
    sign : option (Hash -> M W Hex);
    signMessage : SignableMessage -> M W Hex;
    signTypedData : TypedDataDefinition -> M W Hex;
    signTransaction : TransactionSerializable -> M W Hex;
    transaction_estimateGas :
      option (TransactionRequest -> M W (option EstimateGasReturn));
  }.
End Implementation.
Abbreviation NativeSmartAccountImplementation :=
  Implementation.NativeSmartAccountImplementation.

(** The state of one account made by the factory: its closure variable
  [deployed], and the state [W] of the implementation and of the world. *)
Record AccountState (W : Type) : Type := {
  deployed : bool;
  world : W;
}.

Module Account.
(** [NativeSmartAccount<implementation>]: the implementation's members
  that the factory passes on, and those it defines. *)
Record NativeSmartAccount (W E : Type) : Type := {
    extend : option E;
    client : Client;
    getAddress : M W Address;
    decodeCalls : option (Hex -> M W (list Call));
    encodeCalls : list Call -> M W Hex;
    getStubSignature : M W Hex;
    signTransaction : TransactionSerializable -> M W Hex;
    transaction_estimateGas :
      option (TransactionRequest -> M W (option EstimateGasReturn));
    address : Address;
    getDeployerArgs : M (AccountState W) DeployerArgs;
    getNonce : option GetNonceParameters -> M (AccountState W) Z;
    isDeployed : M (AccountState W) bool;
    sign : option (Hash -> M (AccountState W) Hex);
    signMessage : SignableMessage -> M (AccountState W) Hex;
    signTypedData : TypedDataDefinition -> M (AccountState W) Hex;
    type : string;
  }.
End Account.
Abbreviation NativeSmartAccount := Account.NativeSmartAccount.

(* ------------------------------------------------------------------------- *)
(** ** External collaborators                                                 *)
(* ------------------------------------------------------------------------- *)

(** What the two source files import and call, over a world [X] that the
  network and the owner may read and change:
  - [getCode]: [getAction(client, getCode, 'getCode')({ address })],
    [undefined] when the address holds no code;
  - [readContractNonce]: [readContract] at [getNonce(address, uint192)] of
    the nonce manager predeploy;
  - [readContractAddress]: [readContract] at [getAddress(owner, nonce)] of
    the deployer contract;
  - [defaultNonceKeyManager]: [createNonceManager] over the [Date.now()]
    source;
  - the ERC-6492 serializer, the message and typed-data hashers, keccak256
    and the transaction serializer. *)
Class Collaborators (X : Type) : Type := {
  getCode : Client -> Address -> M X (option Hex);
  readContractNonce : Client -> Address -> Address -> bigint -> M X bigint;
  readContractAddress : Client -> Address -> Address -> bigint -> M X Address;
  defaultNonceKeyManager : NonceManager X;
  nonceManagerPredeployAddress : Address;
  serializeErc6492Signature : Address -> Hex -> Hex -> Hex;
  hashMessage : SignableMessage -> Hash;
  hashTypedData : TypedDataDefinition -> Result Hash;
  keccak256 : Hex -> Hash;
  serializeTransaction : TransactionSerializable -> Result Hex;
}.

(* ------------------------------------------------------------------------- *)
(** ** toNativeSmartAccount.ts                                                *)
(* ------------------------------------------------------------------------- *)

(** [Promise.all([p1, p2])]: both calls are made, in the order of the array,
  and the result is the pair of what they resolve to.  Which continuation
  the event loop runs first is not fixed by the code; this is the run where
  the first promise settles before the second call is made.  A rejection of
  either rejects the whole. *)
Definition PromiseAll2 {S A B} (p1 : M S A) (p2 : M S B) : M S (A * B) :=
  fun s =>
    let (r1, s1) := p1 s in
    let (r2, s2) := p2 s1 in
    match r1, r2 with
    | Ok a, Ok b => (Ok (a, b), s2)
    | Err e, _ => (Err e, s2)
    | Ok _, Err e => (Err e, s2)
    end.

Section ToNativeSmartAccount.
Context {W E : Type} {col : Collaborators W}.

Variable implementation : NativeSmartAccountImplementation W E.

(** A call into the implementation or the world: [deployed] is out of its
  reach. *)
Definition inWorld {A} (m : M W A) : M (AccountState W) A :=
  zoom (@world W) (fun w s => {| deployed := deployed s; world := w |}) m.

Definition setDeployed (b : bool) : M (AccountState W) unit :=
  fun s => (Ok tt, {| deployed := b; world := world s |}).

(** [nonceKeyManager = createNonceManager({...})] in the destructuring:
  the default applies when the implementation has none. *)
Definition nonceKeyManager : NonceManager W :=
  match Implementation.nonceKeyManager implementation with
  | Some m => m
  | None => defaultNonceKeyManager
  end.

Section Methods.
(** [const address = await implementation.getAddress()]. *)
Variable address : Address.

Definition isDeployed : M (AccountState W) bool :=
  s <- get ;;
  if deployed s then ret true
  else
    code <- inWorld (getCode (Implementation.client implementation) address) ;;
    _ <- setDeployed (truthyHex code) ;;
    s' <- get ;;
    ret (deployed s').

(** [getDeployerArgs] is written against [this]: [this_isDeployed] is
  [this.isDeployed] when ['isDeployed' in this], [None] otherwise. *)
Definition getDeployerArgs
    (this_isDeployed : option (M (AccountState W) bool))
    : M (AccountState W) DeployerArgs :=
  match this_isDeployed with
  | Some this_isDeployed =>
      d <- this_isDeployed ;;
      if d then ret {| deployer := None; deployerData := None |}
      else inWorld (Implementation.getDeployerArgs implementation)
  | None => inWorld (Implementation.getDeployerArgs implementation)
  end.

Definition getNonce (parameters : option GetNonceParameters)
    : M (AccountState W) Z :=
  key <-
    match match parameters with Some p => key p | None => None end with
    | Some k => ret k
    | None =>
        chainId <- liftResult (chainIdOf (Implementation.client implementation)) ;;
        n <- inWorld
               (consume nonceKeyManager
                  {| consume_address := address;
                     consume_chainId := chainId;
                     consume_client := Implementation.client implementation |}) ;;
        liftResult (BigInt_of_integer n)
    end ;;
  match Implementation.getNonce implementation with
  | Some implementation_getNonce =>
      inWorld (implementation_getNonce (Some {| key := Some key |}))
  | None =>
      inWorld
        (readContractNonce (Implementation.client implementation)
           nonceManagerPredeployAddress address key)
  end.

(** [if (deployer && deployerData) return serializeErc6492Signature(...)]
  and [return signature]: the test is JS truthiness of the two strings. *)
Definition wrapSignature (args : DeployerArgs) (signature : Hex) : Hex :=
  match deployer args, deployerData args with
  | Some deployer, Some deployerData =>
      if truthyString (addressString deployer)
         && truthyString (hexString deployerData)
      then serializeErc6492Signature deployer deployerData signature
      else signature
  | _, _ => signature
  end.

(** The body shared by [sign], [signMessage] and [signTypedData]:
  [this_getDeployerArgs] is [this.getDeployerArgs()], and
  [implementation_sign] the implementation's operation applied to the
  parameters. *)
Definition signWith
    (this_getDeployerArgs : M (AccountState W) DeployerArgs)
    (implementation_sign : M W Hex) : M (AccountState W) Hex :=
  ' (args, signature) <-
      PromiseAll2 this_getDeployerArgs (inWorld implementation_sign) ;;
  ret (wrapSignature args signature).

(** The object that is returned.  Its methods find [this] to be the
  object itself. *)
Definition account : NativeSmartAccount W E :=
  let this_getDeployerArgs := getDeployerArgs (Some isDeployed) in
  {| Account.extend := Implementation.extend implementation;
     Account.client := Implementation.client implementation;
     Account.getAddress := Implementation.getAddress implementation;
     Account.decodeCalls := Implementation.decodeCalls implementation;
     Account.encodeCalls := Implementation.encodeCalls implementation;
     Account.getStubSignature := Implementation.getStubSignature implementation;
     Account.signTransaction := Implementation.signTransaction implementation;
     Account.transaction_estimateGas :=
       Implementation.transaction_estimateGas implementation;
     Account.address := address;
     Account.getDeployerArgs := this_getDeployerArgs;
     Account.getNonce := getNonce;
     Account.isDeployed := isDeployed;
     Account.sign :=
       match Implementation.sign implementation with
       | Some implementation_sign =>
           Some (fun parameters =>
                   signWith this_getDeployerArgs (implementation_sign parameters))
       | None => None
       end;
     Account.signMessage := fun parameters =>
       signWith this_getDeployerArgs
         (Implementation.signMessage implementation parameters);
     Account.signTypedData := fun parameters =>
       signWith this_getDeployerArgs
         (Implementation.signTypedData implementation parameters);
     Account.type := "native-smart" |}.
End Methods.

(** [let deployed = false]: the state a new account starts in. *)
Definition newAccountState (w : W) : AccountState W :=
  {| deployed := false; world := w |}.

Definition toNativeSmartAccount : M W (NativeSmartAccount W E) :=
  address <- Implementation.getAddress implementation ;;
  ret (account address).
End ToNativeSmartAccount.

(* ------------------------------------------------------------------------- *)
(** ** implementations/toSimpleNativeSmartAccount.ts                          *)
(* ------------------------------------------------------------------------- *)

(** [a ?? b]. *)
Definition orElse {A} (a : option A) (b : A) : A :=
  match a with Some x => x | None => b end.

Fixpoint mapResult {A B} (f : A -> Result B) (l : list A) : Result (list B) :=
  match l with
  | [] => Ok []
  | x :: l' =>
      match f x with
      | Err e => Err e
      | Ok y => match mapResult f l' with
                | Err e => Err e
                | Ok ys => Ok (y :: ys)
                end
      end
  end.

(** [array.map((x, index) => ...)], the index starting at [i]. *)
Fixpoint mapResultFrom {A B} (i : nat) (f : A -> nat -> Result B) (l : list A)
    : Result (list B) :=
  match l with
  | [] => Ok []
  | x :: l' =>
      match f x i with
      | Err e => Err e
      | Ok y => match mapResultFrom (S i) f l' with
                | Err e => Err e
                | Ok ys => Ok (y :: ys)
                end
      end
  end.

Definition quote : string := String "034"%char EmptyString.

Module Simple.

Record LocalAccount (X : Type) : Type := {
    owner_address : Address;
    owner_sign : option (Hash -> M X Hex);
  }.

Record ToSimpleNativeSmartAccountParameters (X : Type) : Type := {
    p_address : option Address;
    p_client : Client;
    p_owner : LocalAccount X;
    p_nonce : option bigint;
  }.

(** The closure variable [address] of [toSimpleNativeSmartAccount], next
  to the world. *)
Record SimpleState (X : Type) : Type := {
    address_var : option Address;
    outside : X;
  }.

Record Deployer : Type := {
    deployer_abi : Abi;
    deployer_address : Address;
  }.

Record Extend : Type := {
    extend_abi : Abi;
    extend_deployer : Deployer;
  }.

(** The decoded arguments as the TypeScript types have them: an address, a
  bigint or nothing, a hex string or nothing.  A value of another kind
  cannot be typed, and shows as a TypeError. *)
Definition illTyped {A} : Result A :=
  Err (TypeError "decoded argument outside its TypeScript type").

Definition asAddress (v : option AbiValue) : Result Address :=
  match v with Some (VAddress a) => Ok a | _ => illTyped end.
Definition asBigint (v : option AbiValue) : Result (option bigint) :=
  match v with Some (VInt n) => Ok (Some n) | None => Ok None | _ => illTyped end.
Definition asHex (v : option AbiValue) : Result (option Hex) :=
  match v with Some (VHex h) => Ok (Some h) | None => Ok None | _ => illTyped end.

(** [{ to, value, data }]. *)
Definition callOf (to_ value_ data_ : option AbiValue) : Result Call :=
  match asAddress to_, asBigint value_, asHex data_ with
  | Ok t, Ok v, Ok d => Ok {| to := t; data := d; value := v |}
  | Err e, _, _ => Err e
  | _, Err e, _ => Err e
  | _, _, Err e => Err e
  end.

(** [obj.key] on a decoded value. *)
Definition field (key : string) (v : AbiValue) : option AbiValue :=
  match v with VObject fields => getField key fields | _ => None end.

(** [array[index]] on a decoded argument. *)
Definition at_index (a : option AbiValue) (index : nat) : Result (option AbiValue) :=
  match a with
  | Some (VArray items) => Ok (nth_error items index)
  | _ => illTyped
  end.

Definition unableToDecode (name : string) : Error :=
  BaseError ("unable to decode calls for " ++ quote ++ name ++ quote)%string.

Module Utilities.
Section Utilities.
Context {X : Type} {col : Collaborators X}.

Definition sign (hash : Hash) (owner : LocalAccount X) : M X Hex :=
  match owner_sign owner with
  | Some owner_sign => owner_sign hash
  | None => throw (BaseError "`owner` does not support raw sign.")
  end.

Definition toReplaySafeHash (address : Address) (chainId : Z) (hash : Hash)
    : Result Hash :=
  hashTypedData
    {| td_domain :=
         Some {| domain_chainId := Some chainId;
                 domain_name := Some "Simple Native Smart Wallet";
                 domain_verifyingContract := Some address;
                 domain_version := Some "1";
                 domain_salt := None |};
       td_types := [("SimpleNativeSmartWalletMessage", [("hash", "bytes32")])];
       td_primaryType := "SimpleNativeSmartWalletMessage";
       td_message := [("hash", VHex hash)] |}.
End Utilities.
End Utilities.

(** What the two revisions of the file share: everything but the two ABI
  constants and the call codec written against them. *)
Section SimpleImplementation.
Context {X : Type} {codec : AbiCodec} {col : Collaborators X}.
Variables abi deployerAbi : Abi.
Variable encodeCalls : list Call -> Result Hex.
Variable decodeCalls : Hex -> Result (list Call).
Variable parameters : ToSimpleNativeSmartAccountParameters X.

Definition client : Client := p_client parameters.
Definition owner : LocalAccount X := p_owner parameters.
Definition nonce : bigint := orElse (p_nonce parameters) 0.
Definition ownerAddr : Address := owner_address owner.

(** [const deployer]. *)
Definition deployerContract : Deployer :=
  {| deployer_abi := deployerAbi;
     deployer_address := 0x0ba5ed0c6aa8c49038f819e587e2633c4a9f428a |}.

Definition inOutside {A} (m : M X A) : M (SimpleState X) A :=
  zoom (@outside X)
       (fun x s => {| address_var := address_var s; outside := x |}) m.

(** The collaborators as the factory meets them, over the state of this
  implementation. *)
Definition collaborators : Collaborators (SimpleState X) :=
  {| getCode := fun c a => inOutside (getCode c a);
     readContractNonce := fun c p a k => inOutside (readContractNonce c p a k);
     readContractAddress := fun c d o n => inOutside (readContractAddress c d o n);
     defaultNonceKeyManager :=
       {| consume := fun p => inOutside (consume defaultNonceKeyManager p) |};
     nonceManagerPredeployAddress := nonceManagerPredeployAddress;
     serializeErc6492Signature := serializeErc6492Signature;
     hashMessage := hashMessage;
     hashTypedData := hashTypedData;
     keccak256 := keccak256;
     serializeTransaction := serializeTransaction |}.

Definition setAddress (a : Address) : M (SimpleState X) unit :=
  fun s => (Ok tt, {| address_var := Some a; outside := outside s |}).

(** [address ??= await readContract(...)]. *)
Definition getAddress : M (SimpleState X) Address :=
  s <- get ;;
  match address_var s with
  | Some address => ret address
  | None =>
      address <- inOutside
                   (readContractAddress client (deployer_address deployerContract)
                      ownerAddr nonce) ;;
      _ <- setAddress address ;;
      ret address
  end.

Definition getDeployerArgs : M (SimpleState X) DeployerArgs :=
  deployerData <- liftResult
                    (encodeFunctionData (deployer_abi deployerContract) "createAccount"
                       [VAddress ownerAddr; VInt nonce]) ;;
  ret {| deployer := Some (deployer_address deployerContract);
         deployerData := Some deployerData |}.

Definition getStubSignature : M (SimpleState X) Hex :=
  ret (bytesOfZ 65
         0xfffffffffffffffffffffffffffffff0000000000000000000000000000000007aaaaaaaaaaaaaaaaaaaaaaaaaaaaaaaaaaaaaaaaaaaaaaaaaaaaaaaaaaaaaaa1c).

(** The three signing methods: [this.getAddress()], the replay-safe hash
  of a hash, the owner's signature of it. *)
Definition signReplaySafe (hash : Result Hash) : M (SimpleState X) Hex :=
  address <- getAddress ;;
  chainId <- liftResult (chainIdOf client) ;;
  hash <- liftResult hash ;;
  hash <- liftResult (Utilities.toReplaySafeHash address chainId hash) ;;
  inOutside (Utilities.sign hash owner).

Definition sign (parameters : Hash) : M (SimpleState X) Hex :=
  signReplaySafe (Ok parameters).

Definition signMessage (message : SignableMessage) : M (SimpleState X) Hex :=
  signReplaySafe (Ok (hashMessage message)).

Definition signTypedData (parameters : TypedDataDefinition)
    : M (SimpleState X) Hex :=
  signReplaySafe
    (hashTypedData
       {| td_domain := td_domain parameters;
          td_types := td_types parameters;
          td_primaryType := td_primaryType parameters;
          td_message := td_message parameters |}).

Definition signTransaction (parameters : TransactionSerializable)
    : M (SimpleState X) Hex :=
  chainId <- match tx_chainId parameters with
             | Some c => ret c
             | None => liftResult (chainIdOf client)
             end ;;
  address <- getAddress ;;
  let serializableTransaction :=
    {| tx_chainId := Some chainId;
       tx_sender := Some address;
       tx_nonceKey := tx_nonceKey parameters;
       tx_nonce := tx_nonce parameters;
       tx_executionData := tx_executionData parameters;
       tx_builderFee := tx_builderFee parameters;
       tx_verificationGasLimit := tx_verificationGasLimit parameters;
       tx_deployer := tx_deployer parameters;
       tx_deployerData := tx_deployerData parameters;
       tx_paymaster := tx_paymaster parameters;
       tx_paymasterData := tx_paymasterData parameters;
       tx_paymasterVerificationGasLimit :=
         tx_paymasterVerificationGasLimit parameters;
       tx_paymasterPostOpGasLimit := tx_paymasterPostOpGasLimit parameters;
       tx_authorizationData := tx_authorizationData parameters;
       tx_gas := tx_gas parameters;
       tx_maxFeePerGas := tx_maxFeePerGas parameters;
       tx_maxPriorityFeePerGas := tx_maxPriorityFeePerGas parameters |} in
  serialized <- liftResult (serializeTransaction serializableTransaction) ;;
  inOutside (Utilities.sign (keccak256 serialized) owner).

(** [transaction.estimateGas]. *)
Definition estimateGas (transaction : TransactionRequest)
    : Result (option EstimateGasReturn) :=
  match BigInt_of_Number
          (Number_of_bigint (orElse (tx_verificationGasLimit transaction) 0)) with
  | Ok v =>
      Ok (Some {| est_verificationGasLimit := Some v;
                  est_gas := None;
                  est_paymasterVerificationGasLimit := None;
                  est_paymasterPostOpGasLimit := None |})
  | Err e => Err e
  end.

(** The object handed to [toNativeSmartAccount]. *)
Definition implementation : NativeSmartAccountImplementation (SimpleState X) Extend :=
  {| Implementation.client := client;
     Implementation.extend :=
       Some {| extend_abi := abi; extend_deployer := deployerContract |};
     Implementation.getAddress := getAddress;
     Implementation.decodeCalls := Some (fun data => liftResult (decodeCalls data));
     Implementation.encodeCalls := fun calls => liftResult (encodeCalls calls);
     Implementation.getDeployerArgs := getDeployerArgs;
     Implementation.getNonce := None;
     Implementation.getStubSignature := getStubSignature;
     Implementation.nonceKeyManager := None;
     Implementation.sign := Some sign;
     Implementation.signMessage := signMessage;
     Implementation.signTypedData := signTypedData;
     Implementation.signTransaction := signTransaction;
     Implementation.transaction_estimateGas :=
       Some (fun transaction => liftResult (estimateGas transaction)) |}.

(** [let address = parameters.address]. *)
Definition newSimpleState (x : X) : SimpleState X :=
  {| address_var := p_address parameters; outside := x |}.

Definition toSimpleNativeSmartAccount
    : M (SimpleState X) (NativeSmartAccount (SimpleState X) Extend) :=
  toNativeSmartAccount (col := collaborators) implementation.
End SimpleImplementation.

(** First revision: the account ABI has [executeBatch] over an array of
  [(target, value, data)] tuples. *)
Module Rev1.
Definition abi : Abi :=
  [
    {| fn_name := "REPLAYABLE_NONCE_KEY";
       fn_inputs := [] |};
    {| fn_name := "addOwnerAddress";
       fn_inputs := [("owner", TAddress)] |};
    {| fn_name := "addOwnerPublicKey";
       fn_inputs := [("x", TBytesN 32); ("y", TBytesN 32)] |};
    {| fn_name := "canSkipChainIdValidation";
       fn_inputs := [("functionSelector", TBytesN 4)] |};
    {| fn_name := "domainSeparator";
       fn_inputs := [] |};
    {| fn_name := "eip712Domain";
       fn_inputs := [] |};
    {| fn_name := "entryPoint";
       fn_inputs := [] |};
    {| fn_name := "execute";
       fn_inputs := [("target", TAddress); ("value", TUint 256); ("data", TBytes)] |};
    {| fn_name := "executeBatch";
       fn_inputs := [("calls", TArray (TTuple [("target", TAddress); ("value", TUint 256); ("data", TBytes)]))] |};
    {| fn_name := "executeWithoutChainIdValidation";
       fn_inputs := [("calls", TArray TBytes)] |};
    {| fn_name := "getUserOpHashWithoutChainId";
       fn_inputs := [("userOp", TTuple [("sender", TAddress); ("nonce", TUint 256); ("initCode", TBytes); ("callData", TBytes); ("callGasLimit", TUint 256); ("verificationGasLimit", TUint 256); ("preVerificationGas", TUint 256); ("maxFeePerGas", TUint 256); ("maxPriorityFeePerGas", TUint 256); ("paymasterAndData", TBytes); ("signature", TBytes)])] |};
    {| fn_name := "implementation";
       fn_inputs := [] |};
    {| fn_name := "initialize";
       fn_inputs := [("owners", TArray TBytes)] |};
    {| fn_name := "isOwnerAddress";
       fn_inputs := [("account", TAddress)] |};
    {| fn_name := "isOwnerBytes";
       fn_inputs := [("account", TBytes)] |};
    {| fn_name := "isOwnerPublicKey";
       fn_inputs := [("x", TBytesN 32); ("y", TBytesN 32)] |};
    {| fn_name := "isValidSignature";
       fn_inputs := [("hash", TBytesN 32); ("signature", TBytes)] |};
    {| fn_name := "nextOwnerIndex";
       fn_inputs := [] |};
    {| fn_name := "ownerAtIndex";
       fn_inputs := [("index", TUint 256)] |};
    {| fn_name := "ownerCount";
       fn_inputs := [] |};
    {| fn_name := "proxiableUUID";
       fn_inputs := [] |};
    {| fn_name := "removeLastOwner";
       fn_inputs := [("index", TUint 256); ("owner", TBytes)] |};
    {| fn_name := "removeOwnerAtIndex";
       fn_inputs := [("index", TUint 256); ("owner", TBytes)] |};
    {| fn_name := "removedOwnersCount";
       fn_inputs := [] |};
    {| fn_name := "replaySafeHash";
       fn_inputs := [("hash", TBytesN 32)] |};
    {| fn_name := "upgradeToAndCall";
       fn_inputs := [("newImplementation", TAddress); ("data", TBytes)] |};
    {| fn_name := "validateUserOp";
       fn_inputs := [("userOp", TTuple [("sender", TAddress); ("nonce", TUint 256); ("initCode", TBytes); ("callData", TBytes); ("callGasLimit", TUint 256); ("verificationGasLimit", TUint 256); ("preVerificationGas", TUint 256); ("maxFeePerGas", TUint 256); ("maxPriorityFeePerGas", TUint 256); ("paymasterAndData", TBytes); ("signature", TBytes)]); ("userOpHash", TBytesN 32); ("missingAccountFunds", TUint 256)] |}
  ].

Definition deployerAbi : Abi :=
  [
    {| fn_name := "createAccount";
       fn_inputs := [("owners", TAddress); ("nonce", TUint 256)] |};
    {| fn_name := "getAddress";
       fn_inputs := [("owners", TAddress); ("nonce", TUint 256)] |};
    {| fn_name := "implementation";
       fn_inputs := [] |};
    {| fn_name := "initCodeHash";
       fn_inputs := [] |}
  ].

(** The two functions of [abi] that [encodeCalls] names. *)
Definition executeFunction : AbiFunction :=
  {| fn_name := "execute";
     fn_inputs := [("target", TAddress); ("value", TUint 256); ("data", TBytes)] |}.
Definition executeBatchFunction : AbiFunction :=
  {| fn_name := "executeBatch";
     fn_inputs :=
       [("calls", TArray (TTuple [("target", TAddress); ("value", TUint 256);
                                  ("data", TBytes)]))] |}.

Section Calls.
Context {codec : AbiCodec}.

Definition decodeCalls (data : Hex) : Result (list Call) :=
  match decodeFunctionData abi data with
  | Err e => Err e
  | Ok result =>
      if String.eqb (functionName result) "execute" then
        match callOf (nth_error (args result) 0)
                     (nth_error (args result) 1)
                     (nth_error (args result) 2) with
        | Ok call => Ok [call]
        | Err e => Err e
        end
      else if String.eqb (functionName result) "executeBatch" then
        match nth_error (args result) 0 with
        | Some (VArray items) =>
            mapResult
              (fun arg => callOf (field "target" arg) (field "value" arg)
                                 (field "data" arg))
              items
        | _ => illTyped
        end
      else Err (unableToDecode (functionName result))
  end.

Definition encodeCalls (calls : list Call) : Result Hex :=
  match calls with
  | [call0] =>
      encodeFunctionData abi "execute"
        [VAddress (to call0); VInt (orElse (value call0) 0);
         VHex (orElse (data call0) [])]
  | _ =>
      encodeFunctionData abi "executeBatch"
        [VArray
           (map (fun call =>
                   VObject [("data", VHex (orElse (data call) []));
                            ("target", VAddress (to call));
                            ("value", VInt (orElse (value call) 0))])
                calls)]
  end.
End Calls.
(** [toSimpleNativeSmartAccount] of this revision. *)
Definition implementation {X : Type} {codec : AbiCodec} {col : Collaborators X}
    (parameters : ToSimpleNativeSmartAccountParameters X)
    : NativeSmartAccountImplementation (SimpleState X) Extend :=
  Simple.implementation abi deployerAbi encodeCalls decodeCalls parameters.

Definition toSimpleNativeSmartAccount {X : Type} {codec : AbiCodec}
    {col : Collaborators X} (parameters : ToSimpleNativeSmartAccountParameters X)
    : M (SimpleState X) (NativeSmartAccount (SimpleState X) Extend) :=
  Simple.toSimpleNativeSmartAccount abi deployerAbi encodeCalls decodeCalls
    parameters.
End Rev1.

(** Second revision: the ABI of the [SimpleAccount_7560] contract, whose
  [executeBatch] takes three parallel arrays. *)
Module Rev2.
Definition abi : Abi :=
  [
    {| fn_name := "UPGRADE_INTERFACE_VERSION";
       fn_inputs := [] |};
    {| fn_name := "_packValidationData";
       fn_inputs := [("magicValue", TBytesN 4); ("validUntil", TUint 48); ("validAfter", TUint 48)] |};
    {| fn_name := "execute";
       fn_inputs := [("dest", TAddress); ("value", TUint 256); ("func", TBytes)] |};
    {| fn_name := "executeBatch";
       fn_inputs := [("dest", TArray TAddress); ("value", TArray (TUint 256)); ("func", TArray TBytes)] |};
    {| fn_name := "initialize";
       fn_inputs := [("anOwner", TAddress)] |};
    {| fn_name := "owner";
       fn_inputs := [] |};
    {| fn_name := "proxiableUUID";
       fn_inputs := [] |};
    {| fn_name := "upgradeToAndCall";
       fn_inputs := [("newImplementation", TAddress); ("data", TBytes)] |};
    {| fn_name := "validateTransaction";
       fn_inputs := [("version", TUint 256); ("txHash", TBytesN 32); ("transaction", TBytes)] |}
  ].

Definition deployerAbi : Abi :=
  [
    {| fn_name := "accountImplementation";
       fn_inputs := [] |};
    {| fn_name := "createAccount";
       fn_inputs := [("owner", TAddress); ("salt", TUint 256)] |};
    {| fn_name := "getAddress";
       fn_inputs := [("owner", TAddress); ("salt", TUint 256)] |}
  ].

(** The two functions of [abi] that [encodeCalls] names. *)
Definition executeFunction : AbiFunction :=
  {| fn_name := "execute";
     fn_inputs := [("dest", TAddress); ("value", TUint 256); ("func", TBytes)] |}.
Definition executeBatchFunction : AbiFunction :=
  {| fn_name := "executeBatch";
     fn_inputs :=
       [("dest", TArray TAddress); ("value", TArray (TUint 256));
        ("func", TArray TBytes)] |}.

Section Calls.
Context {codec : AbiCodec}.

Definition decodeCalls (data : Hex) : Result (list Call) :=
  match decodeFunctionData abi data with
  | Err e => Err e
  | Ok result =>
      if String.eqb (functionName result) "execute" then
        match callOf (nth_error (args result) 0)
                     (nth_error (args result) 1)
                     (nth_error (args result) 2) with
        | Ok call => Ok [call]
        | Err e => Err e
        end
      else if String.eqb (functionName result) "executeBatch" then
        match nth_error (args result) 0 with
        | Some (VArray targets) =>
            mapResultFrom 0
              (fun target index =>
                 match at_index (nth_error (args result) 1) index,
                       at_index (nth_error (args result) 2) index with
                 | Ok value_, Ok data_ => callOf (Some target) value_ data_
                 | Err e, _ => Err e
                 | _, Err e => Err e
                 end)
              targets
        | _ => illTyped
        end
      else Err (unableToDecode (functionName result))
  end.

Definition encodeCalls (calls : list Call) : Result Hex :=
  match calls with
  | [call0] =>
      encodeFunctionData abi "execute"
        [VAddress (to call0); VInt (orElse (value call0) 0);
         VHex (orElse (data call0) [])]
  | _ =>
      encodeFunctionData abi "executeBatch"
        [VArray (map (fun call => VAddress (to call)) calls);
         VArray (map (fun call => VInt (orElse (value call) 0)) calls);
         VArray (map (fun call => VHex (orElse (data call) [])) calls)]
  end.
End Calls.
(** [toSimpleNativeSmartAccount] of this revision. *)
Definition implementation {X : Type} {codec : AbiCodec} {col : Collaborators X}
    (parameters : ToSimpleNativeSmartAccountParameters X)
    : NativeSmartAccountImplementation (SimpleState X) Extend :=
  Simple.implementation abi deployerAbi encodeCalls decodeCalls parameters.

Definition toSimpleNativeSmartAccount {X : Type} {codec : AbiCodec}
    {col : Collaborators X} (parameters : ToSimpleNativeSmartAccountParameters X)
    : M (SimpleState X) (NativeSmartAccount (SimpleState X) Extend) :=
  Simple.toSimpleNativeSmartAccount abi deployerAbi encodeCalls decodeCalls
    parameters.
End Rev2.
End Simple.

(* ------------------------------------------------------------------------- *)
(** ** Runs of an account                                                     *)
(* ------------------------------------------------------------------------- *)

Section Runs.
Context {W E : Type} {col : Collaborators W}.
Variable implementation : NativeSmartAccountImplementation W E.
Variable address : Address.

(** Whatever happens outside the account between two of its calls: the
  world moves, the closure variable does not. *)
Definition changeWorld (f : W -> W) (s : AccountState W) : AccountState W :=
  {| deployed := deployed s; world := f (world s) |}.

(** Invocations of [isDeployed()] on one account, one after the other,
  each run to completion; [changes] gives, for each invocation, what
  became of the world since the one before. *)
Fixpoint isDeployedRuns (changes : list (W -> W)) (s : AccountState W)
    : list (Result bool * AccountState W) :=
  match changes with
  | [] => []
  | f :: changes' =>
      let (r, s') := isDeployed implementation address (changeWorld f s) in
      (r, s') :: isDeployedRuns changes' s'
  end.

(** One invocation of [isDeployed()] as the event loop runs it, in two
  steps: up to the [await] (the flag is read; when it is unset the probe is
  sent and the invocation waits), and from the probe's answer on (the flag
  is written and returned). *)
Inductive IsDeployedTask : Type :=
| Settled (result : bool)
| AwaitingCode.

Definition isDeployed_begin (s : AccountState W) : IsDeployedTask :=
  if deployed s then Settled true else AwaitingCode.

Definition isDeployed_resume (code : option Hex) (s : AccountState W)
    : bool * AccountState W :=
  let s' := {| deployed := truthyHex code; world := world s |} in
  (deployed s', s').
End Runs.

(** A request with [verificationGasLimit] as its only field. *)
Definition withVerificationGasLimit (v : option bigint) : TransactionRequest :=
  {| tx_chainId := None; tx_sender := None; tx_nonceKey := None;
     tx_nonce := None; tx_executionData := None; tx_builderFee := None;
     tx_verificationGasLimit := v; tx_deployer := None;
     tx_deployerData := None; tx_paymaster := None; tx_paymasterData := None;
     tx_paymasterVerificationGasLimit := None;
     tx_paymasterPostOpGasLimit := None; tx_authorizationData := None;
     tx_gas := None; tx_maxFeePerGas := None; tx_maxPriorityFeePerGas := None |}.

(** The value [estimateGas] resolves to when it passes [v] on. *)
Definition onlyVerificationGasLimit (v : bigint) : EstimateGasReturn :=
  {| est_verificationGasLimit := Some v;
     est_gas := None;
     est_paymasterVerificationGasLimit := None;
     est_paymasterPostOpGasLimit := None |}.

(* ------------------------------------------------------------------------- *)
(** ** What the operations are to compute                                     *)
(* ------------------------------------------------------------------------- *)

(** The signature an account gives out: the ERC-6492 envelope of the raw
  signature when the deployer arguments hold both an address and calldata,
  the raw signature otherwise. *)
Definition envelopeOrRaw {X} {col : Collaborators X}
    (args : DeployerArgs) (signature : Hex) : Hex :=
  match deployer args, deployerData args with
  | Some deployerAddress, Some calldata =>
      serializeErc6492Signature deployerAddress calldata signature
  | _, _ => signature
  end.

(** The nonce read for a key: by the implementation's own [getNonce] when it
  has one, from the nonce manager predeploy otherwise. *)
Definition nonceForKey {W E} {col : Collaborators W}
    (implementation : NativeSmartAccountImplementation W E)
    (address : Address) (k : bigint) : M W Z :=
  match Implementation.getNonce implementation with
  | Some implementation_getNonce => implementation_getNonce (Some {| key := Some k |})
  | None =>
      readContractNonce (Implementation.client implementation)
        nonceManagerPredeployAddress address k
  end.

(** [parameters?.key]. *)
Definition suppliedKey (parameters : option GetNonceParameters) : option bigint :=
  match parameters with Some p => key p | None => None end.

(** The typed data that binds a hash to an account and a chain. *)
Definition replaySafeTypedData (account : Address) (chainId : Z) (hash : Hash)
    : TypedDataDefinition :=
  {| td_domain :=
       Some {| domain_chainId := Some chainId;
               domain_name := Some "Simple Native Smart Wallet";
               domain_verifyingContract := Some account;
               domain_version := Some "1";
               domain_salt := None |};
     td_types := [("SimpleNativeSmartWalletMessage", [("hash", "bytes32")])];
     td_primaryType := "SimpleNativeSmartWalletMessage";
     td_message := [("hash", VHex hash)] |}.

(** A call as it comes back from decoding: [value] and [data] defaulted. *)
Definition defaulted (call : Call) : Call :=
  {| to := to call;
     data := Some (orElse (data call) []);
     value := Some (orElse (value call) 0) |}.

(** A call the ABI can carry: a 20-byte address, a uint256 value, and
  calldata whose length a uint256 can hold. *)
Definition callInRange (call : Call) : Prop :=
  is_uint160 (to call) /\ is_uint256 (orElse (value call) 0) /\
  Z.of_nat (List.length (orElse (data call) [])) < 2 ^ 256.

(* ------------------------------------------------------------------------- *)
(** ** A reference codec and a small world                                    *)
(* ------------------------------------------------------------------------- *)

(** An instance of the codec interface to run the definitions with: calldata
  is the selector followed by the arguments one after the other, numbers as
  32-byte big-endian words, byte strings and arrays behind their length. *)
Module Reference.

(** Big-endian value of a byte string. *)
Definition zOfBytes (bs : list byte) : Z :=
  fold_left (fun acc b => acc * 256 + Z.of_N (Byte.to_N b)) bs 0.

Definition word (n : Z) : list byte := bytesOfZ 32 n.

Definition takeBytes (n : nat) (bs : list byte) : option (list byte * list byte) :=
  if Nat.leb n (List.length bs) then Some (firstn n bs, skipn n bs) else None.

Definition takeWord (bs : list byte) : option (Z * list byte) :=
  match takeBytes 32 bs with
  | Some (w, rest) => Some (zOfBytes w, rest)
  | None => None
  end.

Fixpoint ser (t : AbiType) (v : AbiValue) {struct t} : list byte :=
  match t, v with
  | TAddress, VAddress a => word a
  | TBool, VBool b => word (if b then 1 else 0)
  | TUint _, VInt n => word n
  | TString, VString s =>
      word (Z.of_nat (String.length s)) ++ list_byte_of_string s
  | TBytes, VHex h => word (Z.of_nat (List.length h)) ++ h
  | TBytesN _, VHex h => h
  | TArray elem, VArray items =>
      word (Z.of_nat (List.length items)) ++ List.concat (map (ser elem) items)
  | TTuple components, VObject fields =>
      (fix all (cs : list (string * AbiType)) : list byte :=
         match cs with
         | [] => []
         | (k, t') :: cs' =>
             match getField k fields with
             | Some v' => ser t' v'
             | None => []
             end ++ all cs'
         end) components
  | _, _ => []
  end.

Fixpoint parse (t : AbiType) (bs : list byte) {struct t}
    : option (AbiValue * list byte) :=
  match t with
  | TAddress =>
      match takeWord bs with
      | Some (n, rest) => Some (VAddress n, rest)
      | None => None
      end
  | TBool =>
      match takeWord bs with
      | Some (n, rest) => Some (VBool (negb (n =? 0)), rest)
      | None => None
      end
  | TUint _ =>
      match takeWord bs with
      | Some (n, rest) => Some (VInt n, rest)
      | None => None
      end
  | TString =>
      match takeWord bs with
      | Some (n, rest) =>
          match takeBytes (Z.to_nat n) rest with
          | Some (b, rest') => Some (VString (string_of_list_byte b), rest')
          | None => None
          end
      | None => None
      end
  | TBytes =>
      match takeWord bs with
      | Some (n, rest) =>
          match takeBytes (Z.to_nat n) rest with
          | Some (b, rest') => Some (VHex b, rest')
          | None => None
          end
      | None => None
      end
  | TBytesN size =>
      match takeBytes size bs with
      | Some (b, rest) => Some (VHex b, rest)
      | None => None
      end
  | TArray elem =>
      match takeWord bs with
      | Some (n, rest) =>
          match
            (fix items (count : nat) (bs : list byte)
               : option (list AbiValue * list byte) :=
               match count with
               | O => Some ([], bs)
               | S count' =>
                   match parse elem bs with
                   | Some (v, rest) =>
                       match items count' rest with
                       | Some (vs, rest') => Some (v :: vs, rest')
                       | None => None
                       end
                   | None => None
                   end
               end) (Z.to_nat n) rest
          with
          | Some (vs, rest') => Some (VArray vs, rest')
          | None => None
          end
      | None => None
      end
  | TTuple components =>
      match
        (fix all (cs : list (string * AbiType)) (bs : list byte)
           : option (list (string * AbiValue) * list byte) :=
           match cs with
           | [] => Some ([], bs)
           | (k, t') :: cs' =>
               match parse t' bs with
               | Some (v, rest) =>
                   match all cs' rest with
                   | Some (fs, rest') => Some ((k, v) :: fs, rest')
                   | None => None
                   end
               | None => None
               end
           end) components bs
      with
      | Some (fs, rest) => Some (VObject fs, rest)
      | None => None
      end
  end.

Fixpoint serArgs (ps : list (string * AbiType)) (args : list AbiValue) : list byte :=
  match ps, args with
  | (_, t) :: ps', v :: args' => ser t v ++ serArgs ps' args'
  | _, _ => []
  end.

Fixpoint parseArgs (ps : list (string * AbiType)) (bs : list byte)
    : option (list AbiValue) :=
  match ps with
  | [] => Some []
  | (_, t) :: ps' =>
      match parse t bs with
      | Some (v, rest) =>
          match parseArgs ps' rest with
          | Some vs => Some (v :: vs)
          | None => None
          end
      | None => None
      end
  end.

(** A stand-in for the first four bytes of the keccak-256 of the signature:
  a number made of the name and of the input types. *)
Fixpoint typeCode (t : AbiType) : Z :=
  match t with
  | TAddress => 1
  | TBool => 2
  | TString => 3
  | TBytes => 4
  | TUint bits => 5 + 16 * Z.of_nat bits
  | TBytesN size => 6 + 16 * Z.of_nat size
  | TArray elem => 7 + 16 * typeCode elem
  | TTuple components =>
      8 + 16 * (fix all (cs : list (string * AbiType)) : Z :=
                  match cs with
                  | [] => 0
                  | (_, t') :: cs' => typeCode t' + 31 * all cs'
                  end) components
  end.

Fixpoint stringCode (s : string) : Z :=
  match s with
  | EmptyString => 7
  | String c s' => Z.of_nat (nat_of_ascii c) + 131 * stringCode s'
  end.

Definition signatureCode (f : AbiFunction) : Z :=
  stringCode (fn_name f)
  + 257 * fold_right (fun p acc => typeCode (snd p) + 31 * acc) 0 (fn_inputs f).

Definition selector (f : AbiFunction) : Hex := bytesOfZ 4 (signatureCode f).

Definition hexEqb (a b : Hex) : bool :=
  if list_eq_dec Byte.byte_eq_dec a b then true else false.

Definition encode (abi : Abi) (name : string) (args : list AbiValue) : Result Hex :=
  match getAbiItem abi name with
  | None => Err (ExternalError "AbiFunctionNotFoundError" name)
  | Some f =>
      if hasTypes (fn_inputs f) args
      then Ok (selector f ++ serArgs (fn_inputs f) args)
      else Err (ExternalError "AbiEncodingError" name)
  end.

Definition decode (abi : Abi) (data : Hex) : Result DecodedFunctionData :=
  match find (fun f => hexEqb (selector f) (selectorOf data)) abi with
  | None => Err (ExternalError "AbiFunctionSignatureNotFoundError" (hexString (selectorOf data)))
  | Some f =>
      match parseArgs (fn_inputs f) (skipn 4 data) with
      | Some args => Ok {| functionName := fn_name f; args := args |}
      | None => Err (ExternalError "AbiDecodingDataSizeTooSmallError" (fn_name f))
      end
  end.
End Reference.

(** A world to run an account in.  The collaborators are stand-ins: the
  chain is a table of code, the nonce key source a counter, the owner signs
  by appending a byte, the hashes are sums. *)
Module Demo.
Import Reference.

Record World : Type := {
  codeAt : Address -> option Hex;
  now : Z;
  signed : list Hash;
}.

Definition magicBytes : Hex :=
  bytesOfZ 32 0x6492649264926492649264926492649264926492649264926492649264926492.

Definition messageCode (fields : list (string * AbiValue)) : Z :=
  fold_right
    (fun kv acc =>
       match snd kv with
       | VHex h => zOfBytes h + 31 * acc
       | _ => 31 * acc
       end) 0 fields.

Definition domainCode (domain : option TypedDataDomain) : Z :=
  match domain with
  | Some d =>
      orElse (domain_chainId d) 0 + 1000003 * orElse (domain_verifyingContract d) 0
  | None => 0
  end.

#[export] Instance collaborators : Collaborators World :=
  {| getCode := fun _ a w => (Ok (codeAt w a), w);
     readContractNonce := fun _ _ _ k => ret (k * 2 ^ 64);
     readContractAddress := fun _ d o n => ret ((d + 7 * o + n) mod 2 ^ 160);
     defaultNonceKeyManager :=
       {| consume := fun _ w =>
            (Ok (now w),
             {| codeAt := codeAt w; now := now w + 1; signed := signed w |}) |};
     nonceManagerPredeployAddress := 0x4200000000000000000000000000000000000024;
     serializeErc6492Signature := fun a d signature =>
       bytesOfZ 20 a ++ d ++ signature ++ magicBytes;
     hashMessage := fun m =>
       match m with
       | MessageString text => word (stringCode text)
       | MessageRaw raw => word (zOfBytes raw mod 2 ^ 256)
       end;
     hashTypedData := fun td =>
       Ok (word ((stringCode (td_primaryType td) + domainCode (td_domain td)
                  + messageCode (td_message td)) mod 2 ^ 256));
     keccak256 := fun h => word (zOfBytes h mod 2 ^ 256);
     serializeTransaction := fun tx =>
       Ok (word (orElse (tx_chainId tx) 0) ++ word (orElse (tx_sender tx) 0)) |}.

Definition ownerSign (hash : Hash) : M World Hex :=
  fun w =>
    (Ok (hash ++ [x1b]),
     {| codeAt := codeAt w; now := now w; signed := hash :: signed w |}).

Definition owner : Simple.LocalAccount World :=
  {| Simple.owner_address := 0xf39fd6e51aad88f6f4ce6ab8827279cfffb92266;
     Simple.owner_sign := Some ownerSign |}.

Definition client : Client := {| chain := Some {| chain_id := 11171168 |} |}.

Definition parameters : Simple.ToSimpleNativeSmartAccountParameters World :=
  {| Simple.p_address := None;
     Simple.p_client := client;
     Simple.p_owner := owner;
     Simple.p_nonce := None |}.

(** No address holds code; every address holds code. *)
Definition emptyChain : World :=
  {| codeAt := fun _ => None; now := 1730000000000; signed := [] |}.
Definition fullChain : World :=
  {| codeAt := fun _ => Some [x60; x80]; now := 1730000000000; signed := [] |}.

(** The address the deployer stand-in gives the account. *)
Definition accountAddress : Address :=
  (0x0ba5ed0c6aa8c49038f819e587e2633c4a9f428a
   + 7 * 0xf39fd6e51aad88f6f4ce6ab8827279cfffb92266) mod 2 ^ 160.

(** States of an account of the second revision whose address is cached. *)
Definition stateOn (w : World) : AccountState (Simple.SimpleState World) :=
  {| deployed := false;
     world := {| Simple.address_var := Some accountAddress; Simple.outside := w |} |}.

Definition callA : Call :=
  {| to := 0xaaaaaaaaaaaaaaaaaaaaaaaaaaaaaaaaaaaaaaaa;
     data := Some [x12; x34]; value := None |}.
Definition callB : Call :=
  {| to := 0xbbbbbbbbbbbbbbbbbbbbbbbbbbbbbbbbbbbbbbbb;
     data := None; value := Some 100 |}.
End Demo.

(** The object [encodeCalls] of the first revision makes of a call, and
  that object as decoding gives it back. *)
Definition rev1_callObject (call : Call) : AbiValue :=
  VObject [("data", VHex (orElse (data call) []));
           ("target", VAddress (to call));
           ("value", VInt (orElse (value call) 0))].

Definition rev1_decodedObject (call : Call) : AbiValue :=
  VObject [("target", VAddress (to call));
           ("value", VInt (orElse (value call) 0));
           ("data", VHex (orElse (data call) []))].

(** What [decodeCalls] does with calldata for another function: the codec's
  own failure, or the error naming the function that is neither of the
  two. *)
Definition rejected {codec : AbiCodec} (abi : Abi)
    (decodeCalls : Hex -> Result (list Call)) (data : Hex) : Prop :=
  (exists e, decodeFunctionData abi data = Err e /\ decodeCalls data = Err e) \/
  (exists r, decodeFunctionData abi data = Ok r /\
             functionName r <> "execute" /\ functionName r <> "executeBatch" /\
             decodeCalls data = Err (Simple.unableToDecode (functionName r))).

(** No two equal byte strings in a list. *)
Fixpoint distinctHex (l : list Hex) : bool :=
  match l with
  | [] => true
  | h :: l' => negb (existsb (Reference.hexEqb h) l') && distinctHex l'
  end.

(* ------------------------------------------------------------------------- *)
(** ** The operations of an account, one after the other                      *)
(* ------------------------------------------------------------------------- *)

(** A call of one of the methods the factory defines. *)
Inductive Operation : Type :=
| CallIsDeployed
| CallGetDeployerArgs
| CallGetNonce (parameters : option GetNonceParameters)
| CallSign (parameters : Hash)
| CallSignMessage (parameters : SignableMessage)
| CallSignTypedData (parameters : TypedDataDefinition).

Section Operations.
Context {W E : Type}.
Variable acct : NativeSmartAccount W E.

(** The state an operation leaves, whatever it resolves or rejects with.
  [sign] on an account without it is a TypeError that runs nothing. *)
Definition stateAfter (op : Operation) (s : AccountState W) : AccountState W :=
  match op with
  | CallIsDeployed => snd (Account.isDeployed acct s)
  | CallGetDeployerArgs => snd (Account.getDeployerArgs acct s)
  | CallGetNonce parameters => snd (Account.getNonce acct parameters s)
  | CallSign parameters =>
      match Account.sign acct with
      | Some account_sign => snd (account_sign parameters s)
      | None => s
      end
  | CallSignMessage parameters => snd (Account.signMessage acct parameters s)
  | CallSignTypedData parameters => snd (Account.signTypedData acct parameters s)
  end.

(** Operations run to completion one after the other; before each, the world
  may have changed. *)
Fixpoint stateAfterAll (ops : list ((W -> W) * Operation)) (s : AccountState W)
    : AccountState W :=
  match ops with
  | [] => s
  | (f, op) :: ops' =>
      stateAfterAll ops'
        (stateAfter op {| deployed := deployed s; world := f (world s) |})
  end.
End Operations.

(** A computation that leaves the closure variable [deployed] as it was. *)
Definition keepsFlag {W A} (m : M (AccountState W) A) : Prop :=
  forall s r s', m s = (r, s') -> deployed s' = deployed s.

(** [{ deployer: undefined, deployerData: undefined }]. *)
Definition noDeployerArgs : DeployerArgs :=
  {| deployer := None; deployerData := None |}.

(** [{ ...transaction, sender: address, chainId }]. *)
Definition withSenderAndChain (transaction : TransactionSerializable)
    (sender : Address) (chainId : Z) : TransactionSerializable :=
  {| tx_chainId := Some chainId;
     tx_sender := Some sender;
     tx_nonceKey := tx_nonceKey transaction;
     tx_nonce := tx_nonce transaction;
     tx_executionData := tx_executionData transaction;
     tx_builderFee := tx_builderFee transaction;
     tx_verificationGasLimit := tx_verificationGasLimit transaction;
     tx_deployer := tx_deployer transaction;
     tx_deployerData := tx_deployerData transaction;
     tx_paymaster := tx_paymaster transaction;
     tx_paymasterData := tx_paymasterData transaction;
     tx_paymasterVerificationGasLimit :=
       tx_paymasterVerificationGasLimit transaction;
     tx_paymasterPostOpGasLimit := tx_paymasterPostOpGasLimit transaction;
     tx_authorizationData := tx_authorizationData transaction;
     tx_gas := tx_gas transaction;
     tx_maxFeePerGas := tx_maxFeePerGas transaction;
     tx_maxPriorityFeePerGas := tx_maxPriorityFeePerGas transaction |}.

(** The calls that three decoded arrays hold, read by the index of the
  first: a value or calldata missing at an index is an omitted field. *)
Fixpoint zipCallsFrom (i : nat) (dest : list Address) (values : list bigint)
    (funcs : list Hex) : list Call :=
  match dest with
  | [] => []
  | target :: dest' =>
      {| to := target; data := nth_error funcs i; value := nth_error values i |}
        :: zipCallsFrom (S i) dest' values funcs
  end.

(* ------------------------------------------------------------------------- *)
(** ** SimpleAccount_7560.sol                                                 *)
(* ------------------------------------------------------------------------- *)

(** The account contract.  A [uintN] is an integer below [2^N] and a
  [bytesN] the integer its bytes spell; a transaction either returns, with
  the state it leaves, or reverts, and then leaves none. *)
Module SimpleAccount_7560.

(** What a revert carries: the reason of a failed [require], the return data
  of a failed call passed on by the assembly [revert], a panic of the
  compiler's checks, or the error of a library. *)
Inductive RevertData : Type :=
| ErrorString (reason : string)
| ReturnData (result : Hex)
| Panic (code : Z)
| LibraryError (name : string).

Inductive Outcome (S A : Type) : Type :=
| Returns (a : A) (s : S)
| Reverts (data : RevertData).
Arguments Returns {S A} a s.
Arguments Reverts {S A} data.

Definition EVM (S A : Type) : Type := S -> Outcome S A.

Definition evmRet {S A} (a : A) : EVM S A := fun s => Returns a s.
Definition evmBind {S A B} (m : EVM S A) (k : A -> EVM S B) : EVM S B :=
  fun s => match m s with
           | Returns a s' => k a s'
           | Reverts data => Reverts data
           end.

(** [require(condition, reason)]. *)
Definition require {S} (condition : bool) (reason : string) : EVM S unit :=
  fun s => if condition then Returns tt s else Reverts (ErrorString reason).

(** [array[i]]: out of bounds is [Panic(0x32)]. *)
Definition index {S A} (array : list A) (i : nat) : EVM S A :=
  fun s => match nth_error array i with
           | Some x => Returns x s
           | None => Reverts (Panic 0x32)
           end.

(** [for (uint256 i = start; ...; i++) body(i)], the condition holding
  [count] more times. *)
Fixpoint forFrom {St} (count start : nat) (body : nat -> EVM St unit)
    : EVM St unit :=
  match count with
  | O => evmRet tt
  | S count' => evmBind (body start) (fun _ => forFrom count' (S start) body)
  end.

(** What a library function gives a [view] function: a value or a revert. *)
Inductive Checked (A : Type) : Type :=
| Fine (a : A)
| Fails (data : RevertData).
Arguments Fine {A} a.
Arguments Fails {A} data.

Definition MAGIC_VALUE_SENDER : Z := 0xbf45c166.
Definition MAGIC_VALUE_SIGFAIL : Z := 0x31665494.
Definition _entryPoint : Address := 0x0000000000000000000000000000000000007560.

(** [msg.sender] and [address(this)]. *)
Record Msg : Type := { sender : Address; this : Address }.

(** The storage variable [owner], and the rest of the chain. *)
Record State (C : Type) : Type := { owner : Address; rest : C }.

(** Of the decoded [RIP7560Transaction] the contract reads one field. *)
Record RIP7560Transaction : Type := { authorizationData : Hex }.

(** [x << k] on [uint256]. *)
Definition shl256 (x k : Z) : Z := Z.shiftl x k mod 2 ^ 256.

Definition _packValidationData (magicValue validUntil validAfter : Z) : Z :=
  Z.lor (Z.lor magicValue (shl256 validUntil 160)) (shl256 validAfter (160 + 48)).

Section Contract.
Context {C : Type}.

(** [target.call{value: value}(data)] made by the account at [this]: the
  success flag, the returned bytes and the state the call leaves (the callee
  may call back into the account). *)
Variable call : Address -> Address -> Z -> Hex -> State C -> (bool * Hex) * State C.

(** [RIP7560Utils.decodeTransaction], [RIP7560Utils.VERSION],
  [MessageHashUtils.toEthSignedMessageHash] and [ECDSA.recover]. *)
Variable decodeTransaction : Z -> Hex -> Checked RIP7560Transaction.
Variable VERSION : Z.
Variable toEthSignedMessageHash : Z -> Z.
Variable recover : Z -> Hex -> Checked Address.

Definition _onlyOwner (msg : Msg) : EVM (State C) unit :=
  fun s =>
    require ((sender msg =? owner s) || (sender msg =? this msg)) "only owner" s.

Definition _initialize (anOwner : Address) : EVM (State C) unit :=
  fun s => Returns tt {| owner := anOwner; rest := rest s |}.

Definition _requireFromEntryPoint (msg : Msg) : EVM (State C) unit :=
  require (sender msg =? 0x0000000000000000000000000000000000007560)
          "account: not from EntryPoint".

Definition _requireFromEntryPointOrOwner (msg : Msg) : EVM (State C) unit :=
  fun s =>
    require ((sender msg =? _entryPoint) || (sender msg =? owner s))
            "account: not Owner or EntryPoint" s.

Definition _call (msg : Msg) (target : Address) (value : Z) (data : Hex)
    : EVM (State C) unit :=
  fun s =>
    let (answer, s') := call (this msg) target value data s in
    let (success, result) := answer in
    if negb success then Reverts (ReturnData result) else Returns tt s'.

Definition _validateSignature (txHash : Z) (transaction : Hex) (s : State C)
    : Checked Z :=
  match decodeTransaction VERSION transaction with
  | Fails data => Fails data
  | Fine _tx =>
      let hash := toEthSignedMessageHash txHash in
      match recover hash (authorizationData _tx) with
      | Fails data => Fails data
      | Fine signer =>
          if negb (owner s =? signer)
          then Fine (_packValidationData MAGIC_VALUE_SIGFAIL 0 0)
          else Fine (_packValidationData MAGIC_VALUE_SENDER 0 0)
      end
  end.

Definition validateTransaction (msg : Msg) (version txHash : Z)
    (transaction : Hex) (s : State C) : Checked Z :=
  match _requireFromEntryPoint msg s with
  | Reverts data => Fails data
  | Returns _ _ => _validateSignature txHash transaction s
  end.

Definition execute (msg : Msg) (dest : Address) (value : Z) (func : Hex)
    : EVM (State C) unit :=
  evmBind (_requireFromEntryPointOrOwner msg) (fun _ => _call msg dest value func).

Definition executeBatch (msg : Msg) (dest : list Address) (value : list Z)
    (func : list Hex) : EVM (State C) unit :=
  evmBind (_requireFromEntryPointOrOwner msg) (fun _ =>
  evmBind
    (require
       (Nat.eqb (List.length dest) (List.length func)
        && (Nat.eqb (List.length value) 0
            || Nat.eqb (List.length value) (List.length func)))
       "wrong array lengths") (fun _ =>
  if Nat.eqb (List.length value) 0 then
    forFrom (List.length dest) 0 (fun i =>
      evmBind (index dest i) (fun dest_i =>
      evmBind (index func i) (fun func_i =>
      _call msg dest_i 0 func_i)))
  else
    forFrom (List.length dest) 0 (fun i =>
      evmBind (index dest i) (fun dest_i =>
      evmBind (index value i) (fun value_i =>
      evmBind (index func i) (fun func_i =>
      _call msg dest_i value_i func_i)))))).

Definition _authorizeUpgrade (msg : Msg) (newImplementation : Address)
    : EVM (State C) unit :=
  _onlyOwner msg.

(** Calls made one after the other, the first failure reverting all. *)
Fixpoint callsInOrder (msg : Msg) (calls : list (Address * Z * Hex))
    : EVM (State C) unit :=
  match calls with
  | [] => evmRet tt
  | (target, value, data) :: calls' =>
      evmBind (_call msg target value data) (fun _ => callsInOrder msg calls')
  end.
End Contract.

(** [(dest[i], value[i], func[i])] for every [i]. *)
Fixpoint triples (dest : list Address) (value : list Z) (func : list Hex)
    : list (Address * Z * Hex) :=
  match dest, value, func with
  | d :: dest', v :: value', f :: func' => (d, v, f) :: triples dest' value' func'
  | _, _, _ => []
  end.
End SimpleAccount_7560.

(** The three arrays that [encodeCalls] of the second revision passes to
  [executeBatch]. *)
Definition batchTargets (calls : list Call) : list Address :=
  map (fun call => to call) calls.
Definition batchValues (calls : list Call) : list bigint :=
  map (fun call => orElse (value call) 0) calls.
Definition batchData (calls : list Call) : list Hex :=
  map (fun call => orElse (data call) []) calls.

(* ------------------------------------------------------------------------- *)
(** ** utils/formatters/transactionRequest.ts                                 *)
(* ------------------------------------------------------------------------- *)

Module TransactionRequestFormatter.

Inductive TransactionType : Type :=
| legacy | eip2930 | eip1559 | eip4844 | eip7702 | rip7560.


(** An item of [AuthorizationList<number, boolean>] and of
  [RpcAuthorizationList]. *)
Record Authorization : Type := {
  contractAddress : Address;
  r : Hex;
  s : Hex;
  chainId : Z;
  nonce : Z;
  yParity : option Z;
  v : option Z;
}.

Record RpcAuthorization : Type := {
  rpc_address : Address;
  rpc_r : Hex;
  rpc_s : Hex;
  rpc_chainId : string;
  rpc_auth_nonce : string;
  rpc_yParity : option string;
  rpc_v : option string;
}.

Definition AccessList : Type := list (Address * list Hex).

(** [readonly Hex[] | readonly ByteArray[]]. *)
Inductive Blobs : Type :=
| BlobsHex (blobs : list string)
| BlobsBytes (blobs : list (list byte)).

(** [ExactPartial<TransactionRequest>], the fields in the order in which the
  formatter reads them. *)
Record TransactionRequest : Type := {
  req_nonceKey : option Z;
  req_sender : option Address;
  req_executionData : option Hex;
  req_builderFee : option Z;
  req_verificationGasLimit : option Z;
  req_deployer : option Address;
  req_deployerData : option Hex;
  req_paymaster : option Address;
  req_paymasterData : option Hex;
  req_paymasterVerificationGasLimit : option Z;
  req_paymasterPostOpGasLimit : option Z;
  req_authorizationData : option Hex;
  req_authorizationList : option (list Authorization);
  req_accessList : option AccessList;
  req_blobVersionedHashes : option (list Hex);
  req_blobs : option Blobs;
  req_data : option Hex;
  req_from : option Address;
  req_gas : option Z;
  req_gasPrice : option Z;
  req_maxFeePerBlobGas : option Z;
  req_maxFeePerGas : option Z;
  req_maxPriorityFeePerGas : option Z;
  req_nonce : option Z;
  req_to : option Address;
  req_type : option TransactionType;
  req_value : option Z;
}.


Definition bindR {A B} (r : Result A) (k : A -> Result B) : Result B :=
  match r with Ok a => k a | Err e => Err e end.

Section Formatter.
(** [numberToHex] and [bytesToHex] of [utils/encoding/toHex]. *)
Variable numberToHex : Z -> Result string.
Variable bytesToHex : list byte -> string.


(** [if (typeof x !== 'undefined') rpcRequest.x = numberToHex(x)]. *)
Definition quantity (x : option Z) : Result (option string) :=
  match x with
  | Some n => bindR (numberToHex n) (fun h => Ok (Some h))
  | None => Ok None
  end.

Definition formatAuthorization (authorization : Authorization)
    : Result RpcAuthorization :=
  bindR (numberToHex (chainId authorization)) (fun chainId_ =>
  bindR (numberToHex (nonce authorization)) (fun nonce_ =>
  bindR (quantity (yParity authorization)) (fun yParity_ =>
  bindR (match v authorization, yParity authorization with
         | Some v_, None => bindR (numberToHex v_) (fun h => Ok (Some h))
         | _, _ => Ok None
         end) (fun v_ =>
  Ok {| rpc_address := contractAddress authorization;
        rpc_r := r authorization;
        rpc_s := s authorization;
        rpc_chainId := chainId_;
        rpc_auth_nonce := nonce_;
        rpc_yParity := yParity_;
        rpc_v := v_ |})))).

Fixpoint formatAuthorizationList (authorizationList : list Authorization)
    : Result (list RpcAuthorization) :=
  match authorizationList with
  | [] => Ok []
  | authorization :: rest =>
      bindR (formatAuthorization authorization) (fun a =>
      bindR (formatAuthorizationList rest) (fun l => Ok (a :: l)))
  end.


End Formatter.




(** Which fields of a request, and of an RPC request, are set. *)
Definition set {A} (x : option A) : bool :=
  match x with Some _ => true | None => false end.


End TransactionRequestFormatter.

(* ------------------------------------------------------------------------- *)
(** * Properties                                                              *)
(* ------------------------------------------------------------------------- *)

(** ** Running computations *)

Lemma bind_ok {S A B} (m : M S A) (k : A -> M S B) s a s' :
  m s = (Ok a, s') -> bind m k s = k a s'.
Proof. intros H. unfold bind. now rewrite H. Qed.

Lemma bind_err {S A B} (m : M S A) (k : A -> M S B) s e s' :
  m s = (Err e, s') -> bind m k s = (Err e, s').
Proof. intros H. unfold bind. now rewrite H. Qed.

(** ** Truthiness of hex strings *)

Lemma truthy_hexString (h : Hex) : truthyString (hexString h) = true.
Proof. reflexivity. Qed.

Lemma truthy_addressString (a : Address) : truthyString (addressString a) = true.
Proof. reflexivity. Qed.

(** ** [Number(bigint)] *)

Lemma roundToDouble_exact n : 0 <= n <= 2 ^ 53 -> roundToDouble n = n.
Proof.
  intros [H0 H1]. unfold roundToDouble.
  destruct (Z.eq_dec n (2 ^ 53)) as [->|Hne]; [reflexivity|].
  destruct (Z.eq_dec n 0) as [->|Hn]; [reflexivity|].
  assert (Z.log2 n < 53) by (apply Z.log2_lt_pow2; lia).
  destruct (Z.log2 n - 52 <=? 0) eqn:E; [reflexivity|].
  apply Z.leb_gt in E. lia.
Qed.

(** Above 53 bits the result is on the grid of multiples of [2^e], where
  [e = log2 n - 52], and no further from [n] than half a grid step. *)
Lemma roundToDouble_nearest n :
  0 < Z.log2 n - 52 ->
  let e := Z.log2 n - 52 in
  exists m, roundToDouble n = m * 2 ^ e /\
            2 * Z.abs (roundToDouble n - n) <= 2 ^ e.
Proof.
  intros He e. unfold roundToDouble. fold e.
  destruct (e <=? 0) eqn:E; [apply Z.leb_le in E; lia|]. clear E.
  rewrite Z.shiftr_div_pow2, Z.land_ones by lia.
  rewrite !Z.shiftl_mul_pow2 by lia. rewrite Z.mul_1_l.
  assert (Hp : 0 < 2 ^ e) by (apply Z.pow_pos_nonneg; lia).
  assert (Hh : 2 ^ e = 2 * 2 ^ (e - 1)).
  { rewrite <- Z.pow_succ_r by lia. f_equal. lia. }
  pose proof (Z.div_mod n (2 ^ e) ltac:(lia)) as Hdm.
  pose proof (Z.mod_pos_bound n (2 ^ e) Hp) as Hr.
  set (q := n / 2 ^ e) in *. set (r := n mod 2 ^ e) in *.
  set (half := 2 ^ (e - 1)) in *.
  destruct ((half <? r) || ((r =? half) && Z.odd q)) eqn:C.
  - exists (q + 1). split; [reflexivity|].
    assert (half <= r).
    { apply orb_true_iff in C as [C|C].
      - apply Z.ltb_lt in C. lia.
      - apply andb_true_iff in C as [C _]. apply Z.eqb_eq in C. lia. }
    nia.
  - exists q. split; [reflexivity|].
    apply orb_false_iff in C as [C _]. apply Z.ltb_ge in C. nia.
Qed.

Lemma roundToDouble_finite n : 0 <= n <= uint256_max -> roundToDouble n < 2 ^ 1024.
Proof.
  intros [H0 H1]. unfold uint256_max in H1.
  destruct (Z_le_gt_dec n (2 ^ 53)) as [Hs|Hb].
  - rewrite roundToDouble_exact by lia.
    eapply Z.le_lt_trans; [exact Hs|]. reflexivity.
  - assert (Hl : 53 <= Z.log2 n) by (apply Z.log2_le_pow2; lia).
    assert (Hu : Z.log2 n < 256) by (apply Z.log2_lt_pow2; lia).
    destruct (roundToDouble_nearest n ltac:(lia)) as (m & _ & Hnear).
    assert (2 ^ (Z.log2 n - 52) <= 2 ^ 256)
      by (apply Z.pow_le_mono_r; lia).
    assert (2 ^ 256 + 2 ^ 256 + 2 ^ 256 < 2 ^ 1024) by reflexivity.
    lia.
Qed.

(** ** The deployment flag *)

Section DeploymentFlag.
Context {W E : Type} {col : Collaborators W}.
Variable implementation : NativeSmartAccountImplementation W E.
Variable address : Address.

(** With the flag set, [isDeployed()] answers from it: no probe is made
  and nothing changes. *)
Lemma isDeployed_cached s :
  deployed s = true -> isDeployed implementation address s = (Ok true, s).
Proof.
  intros H. unfold isDeployed, bind, get.
  now rewrite H.
Qed.

(** What [isDeployed()] returns is what it leaves in the flag. *)
Lemma isDeployed_returns_flag s b s' :
  isDeployed implementation address s = (Ok b, s') -> deployed s' = b.
Proof.
  unfold isDeployed, bind, get.
  destruct (deployed s) eqn:D.
  - unfold ret. intros [= <- <-]. exact D.
  - unfold inWorld, zoom.
    destruct (getCode _ _ _) as [[code|e] w']; [|discriminate].
    unfold setDeployed, ret. simpl. now intros [= <- <-].
Qed.

Lemma isDeployedRuns_length changes s :
  List.length (isDeployedRuns implementation address changes s)
  = List.length changes.
Proof.
  revert s. induction changes as [|f changes IH]; intros s; simpl.
  - reflexivity.
  - destruct (isDeployed _ _ _) as [r s'].
    simpl. now rewrite IH.
Qed.

(** From a state with the flag set, every invocation returns true. *)
Lemma isDeployedRuns_all_true changes s :
  deployed s = true ->
  Forall (fun rs => fst rs = Ok true /\ deployed (snd rs) = true)
         (isDeployedRuns implementation address changes s).
Proof.
  revert s. induction changes as [|f changes IH]; intros s D; simpl.
  - constructor.
  - pose proof (isDeployed_cached (changeWorld f s) D) as H.
    rewrite H.
    constructor; [split; [reflexivity | exact D]|]. apply IH. exact D.
Qed.
(** The two steps, run without anything in between, are [isDeployed()]. *)
Lemma isDeployed_in_two_steps s :
  isDeployed implementation address s
  = match isDeployed_begin s with
    | Settled b => (Ok b, s)
    | AwaitingCode =>
        match getCode (Implementation.client implementation) address (world s) with
        | (Ok code, w') =>
            let (b, s') :=
              isDeployed_resume code {| deployed := deployed s; world := w' |} in
            (Ok b, s')
        | (Err e, w') => (Err e, {| deployed := deployed s; world := w' |})
        end
    end.
Proof.
  unfold isDeployed, isDeployed_begin, bind, get.
  destruct (deployed s) eqn:D; [reflexivity|].
  unfold inWorld, zoom.
  destruct (getCode _ _ _) as [[code|e] w']; simpl; now rewrite ?D.
Qed.

(** Outside the run-to-completion discipline: of two invocations begun
  while the flag is unset, the first is answered with code and sets the
  flag, the second is answered without code and unsets it again. *)
Remark isDeployed_overlapping_resets_flag (s : AccountState W) (code : Hex) :
  deployed s = false ->
  isDeployed_begin s = AwaitingCode /\
  let (first, s1) := isDeployed_resume (Some code) s in
  let (second, s2) := isDeployed_resume None s1 in
  first = true /\ deployed s1 = true /\ second = false /\ deployed s2 = false.
Proof.
  intros D. unfold isDeployed_begin. rewrite D. split; [reflexivity|].
  simpl. repeat split.
Qed.
End DeploymentFlag.

(** C3. On one account, in any run of [isDeployed()] invocations made one
  after the other (whatever happens to the world in between), once an
  invocation has returned true every later one returns true, and leaves the
  cached flag set: the flag does not go back to false, and no later probe
  of the code can overwrite it. *)
Theorem isDeployed_stays_true {W E : Type} {col : Collaborators W}
    (implementation : NativeSmartAccountImplementation W E) (address : Address)
    (changes : list (W -> W)) (s : AccountState W) (i j : nat) s_i :
  (i < j < List.length changes)%nat ->
  nth_error (isDeployedRuns implementation address changes s) i
    = Some (Ok true, s_i) ->
  exists s_j,
    nth_error (isDeployedRuns implementation address changes s) j
      = Some (Ok true, s_j) /\
    deployed s_j = true.
Proof.
  revert s i j. induction changes as [|f changes IH]; intros s i j [Hij Hj] Hi.
  - simpl in Hj. lia.
  - simpl in *.
    destruct (isDeployed implementation address (changeWorld f s)) as [r s'] eqn:R.
    destruct j as [|j]; [lia|]. simpl.
    destruct i as [|i]; simpl in Hi.
    + injection Hi as -> ->.
      apply isDeployed_returns_flag in R.
      pose proof (isDeployedRuns_all_true implementation address changes _ R) as A.
      rewrite Forall_forall in A.
      destruct (nth_error (isDeployedRuns implementation address changes s_i) j)
        as [[r_j s_j]|] eqn:N.
      * destruct (A _ (nth_error_In _ _ N)) as [Hr Hd]. simpl in *. subst r_j.
        exists s_j. split; [reflexivity | exact Hd].
      * apply nth_error_None in N.
        rewrite isDeployedRuns_length in N. lia.
    + apply (IH s' i j); [lia | exact Hi].
Qed.

(** ** The factory's methods *)

Section FactoryMethods.
Context {W E : Type} {col : Collaborators W}.
Variable implementation : NativeSmartAccountImplementation W E.
Variable address : Address.

Let acct := account implementation address.

Lemma inWorld_deployed {A} (m : M W A) s r s' :
  inWorld m s = (r, s') -> deployed s' = deployed s.
Proof.
  unfold inWorld, zoom. destruct (m (world s)) as [r' w'].
  now intros [= <- <-].
Qed.

Lemma getDeployerArgs_when_deployed s s1 :
  isDeployed implementation address s = (Ok true, s1) ->
  Account.getDeployerArgs acct s
  = (Ok {| deployer := None; deployerData := None |}, s1).
Proof. intros H. simpl. unfold getDeployerArgs. now rewrite (bind_ok _ _ _ H). Qed.

Lemma getDeployerArgs_when_not_deployed s s1 :
  isDeployed implementation address s = (Ok false, s1) ->
  Account.getDeployerArgs acct s
  = inWorld (Implementation.getDeployerArgs implementation) s1.
Proof. intros H. simpl. unfold getDeployerArgs. now rewrite (bind_ok _ _ _ H). Qed.

Lemma getDeployerArgs_when_probe_fails s e s1 :
  isDeployed implementation address s = (Err e, s1) ->
  Account.getDeployerArgs acct s = (Err e, s1).
Proof. intros H. simpl. unfold getDeployerArgs. now rewrite (bind_err _ _ _ H). Qed.

Lemma wrapSignature_envelopeOrRaw args signature :
  wrapSignature args signature = envelopeOrRaw args signature.
Proof.
  unfold wrapSignature, envelopeOrRaw.
  destruct (deployer args), (deployerData args); reflexivity.
Qed.

Lemma signWith_run (this_getDeployerArgs : M (AccountState W) DeployerArgs)
    (implementation_sign : M W Hex) s args s1 signature s2 :
  this_getDeployerArgs s = (Ok args, s1) ->
  inWorld implementation_sign s1 = (Ok signature, s2) ->
  signWith this_getDeployerArgs implementation_sign s
  = (Ok (envelopeOrRaw args signature), s2).
Proof.
  intros H1 H2. unfold signWith, bind, PromiseAll2.
  rewrite H1, H2. unfold ret. now rewrite wrapSignature_envelopeOrRaw.
Qed.



Lemma getNonce_with_key k s :
  Account.getNonce acct (Some {| key := Some k |}) s
  = inWorld (nonceForKey implementation address k) s.
Proof.
  simpl. unfold getNonce, nonceForKey, bind, ret. simpl.
  destruct (Implementation.getNonce implementation); reflexivity.
Qed.

Lemma getNonce_without_key parameters s c n s1 :
  suppliedKey parameters = None ->
  chain (Implementation.client implementation) = Some c ->
  inWorld (consume (nonceKeyManager implementation)
             {| consume_address := address;
                consume_chainId := chain_id c;
                consume_client := Implementation.client implementation |}) s
  = (Ok n, s1) ->
  Account.getNonce acct parameters s
  = inWorld (nonceForKey implementation address n) s1.
Proof.
  intros Hk Hc Hn. simpl. unfold getNonce, nonceForKey.
  unfold suppliedKey in Hk. rewrite Hk.
  unfold chainIdOf. rewrite Hc. unfold bind at 1. unfold bind at 1.
  unfold liftResult at 1. unfold bind at 1. rewrite Hn.
  unfold bind, liftResult, BigInt_of_integer, BigInt_of_Number, ret.
  destruct (Implementation.getNonce implementation); reflexivity.
Qed.
End FactoryMethods.

(** ** Values that fit their ABI types *)

Lemma hasType_address a : is_uint160 a -> hasType TAddress (VAddress a) = true.
Proof.
intros [H0 H1]. simpl. apply andb_true_iff. split.
- now apply Z.leb_le.
- now apply Z.ltb_lt.
Qed.

Lemma hasType_uint256 n : is_uint256 n -> hasType (TUint 256) (VInt n) = true.
Proof.
intros [H0 H1]. unfold uint256_max in H1.
cbn [hasType Nat.leb]. apply andb_true_iff. split; [reflexivity|].
apply andb_true_iff. split.
- now apply Z.leb_le.
- apply Z.ltb_lt. change (2 ^ Z.of_nat 256) with (2 ^ 256). lia.
Qed.

Lemma hasType_bytes h :
  Z.of_nat (List.length h) < 2 ^ 256 -> hasType TBytes (VHex h) = true.
Proof. intros H. simpl. unfold fitsLength. now apply Z.ltb_lt. Qed.

Lemma hasType_array elem items :
  Z.of_nat (List.length items) < 2 ^ 256 ->
  Forall (fun v => hasType elem v = true) items ->
  hasType (TArray elem) (VArray items) = true.
Proof.
intros Hl Hf. cbn [hasType]. apply andb_true_iff. split.
- unfold fitsLength. now apply Z.ltb_lt.
- apply forallb_forall. now apply Forall_forall.
Qed.

(** ** Calldata starts with its selector *)

Lemma selectorOf_encoded {codec : AbiCodec} (f : AbiFunction) (body : Hex) :
  selectorOf (toFunctionSelector f ++ body) = toFunctionSelector f.
Proof.
unfold selectorOf. rewrite firstn_app, selector_length, Nat.sub_diag.
rewrite <- (selector_length f) at 1.
rewrite firstn_all. simpl. apply app_nil_r.
Qed.

(** ** The Simple implementation: calls, first revision *)

Section Rev1Calls.
Context {codec : AbiCodec}.
Import Simple.

Lemma rev1_getAbiItem_execute :
  getAbiItem Rev1.abi "execute" = Some Rev1.executeFunction.
Proof. reflexivity. Qed.

Lemma rev1_getAbiItem_executeBatch :
  getAbiItem Rev1.abi "executeBatch" = Some Rev1.executeBatchFunction.
Proof. reflexivity. Qed.

Lemma rev1_callObject_hasType call :
  callInRange call ->
  hasType (TTuple [("target", TAddress); ("value", TUint 256); ("data", TBytes)])
          (rev1_callObject call) = true.
Proof.
intros (Ht & Hv & Hd). unfold rev1_callObject.
change (hasType TAddress (VAddress (to call))
  && (hasType (TUint 256) (VInt (orElse (value call) 0))
      && (hasType TBytes (VHex (orElse (data call) [])) && true)) = true).
now rewrite (hasType_address Ht), (hasType_uint256 Hv), (hasType_bytes _ Hd).
Qed.

Lemma rev1_callObject_canonical call :
  canonical (TTuple [("target", TAddress); ("value", TUint 256); ("data", TBytes)])
            (rev1_callObject call)
  = rev1_decodedObject call.
Proof. reflexivity. Qed.

Lemma rev1_decodedObject_callOf call :
  callOf (field "target" (rev1_decodedObject call))
         (field "value" (rev1_decodedObject call))
         (field "data" (rev1_decodedObject call))
  = Ok (defaulted call).
Proof. reflexivity. Qed.

Lemma rev1_decode_objects calls :
  mapResult
    (fun arg => callOf (field "target" arg) (field "value" arg) (field "data" arg))
    (map rev1_decodedObject calls)
  = Ok (map defaulted calls).
Proof.
induction calls as [|call calls IH]; [reflexivity|].
cbn [map mapResult]. rewrite rev1_decodedObject_callOf, IH. reflexivity.
Qed.

Lemma rev1_execute_roundtrip call :
  NoDup (map toFunctionSelector Rev1.abi) ->
  callInRange call ->
  exists data,
    Rev1.encodeCalls [call] = Ok data /\
    selectorOf data = toFunctionSelector Rev1.executeFunction /\
    Rev1.decodeCalls data = Ok [defaulted call].
Proof.
intros Hsel (Ht & Hv & Hd).
set (args := [VAddress (to call); VInt (orElse (value call) 0);
  VHex (orElse (data call) [])]).
assert (Hty : hasTypes (fn_inputs Rev1.executeFunction) args = true).
{ change (hasType TAddress (VAddress (to call))
          && (hasType (TUint 256) (VInt (orElse (value call) 0))
              && (hasType TBytes (VHex (orElse (data call) [])) && true)) = true).
  now rewrite (hasType_address Ht), (hasType_uint256 Hv), (hasType_bytes _ Hd). }
destruct (encode_well_typed Rev1.abi "execute" args rev1_getAbiItem_execute Hty)
  as [body Henc].
exists (toFunctionSelector Rev1.executeFunction ++ body).
split; [exact Henc|]. split.
- apply selectorOf_encoded.
- unfold Rev1.decodeCalls.
  rewrite (decode_encode Rev1.abi "execute" args Hsel rev1_getAbiItem_execute
             Hty Henc).
  reflexivity.
Qed.

Lemma rev1_executeBatch_roundtrip calls :
  NoDup (map toFunctionSelector Rev1.abi) ->
  Forall callInRange calls ->
  Z.of_nat (List.length calls) < 2 ^ 256 ->
  List.length calls <> 1%nat ->
  exists data,
    Rev1.encodeCalls calls = Ok data /\
    selectorOf data = toFunctionSelector Rev1.executeBatchFunction /\
    Rev1.decodeCalls data = Ok (map defaulted calls).
Proof.
intros Hsel Hin Hlen Hn1.
set (args := [VArray (map rev1_callObject calls)]).
assert (Henc0 : Rev1.encodeCalls calls
  = encodeFunctionData Rev1.abi "executeBatch" args).
{ destruct calls as [|c0 [|c1 calls']]; try reflexivity. now elim Hn1. }
assert (Hty : hasTypes (fn_inputs Rev1.executeBatchFunction) args = true).
{ change (hasType (TArray (TTuple [("target", TAddress); ("value", TUint 256);
                                   ("data", TBytes)]))
                  (VArray (map rev1_callObject calls)) && true = true).
  rewrite andb_true_r. apply hasType_array.
  - now rewrite length_map.
  - apply Forall_map. eapply Forall_impl; [|exact Hin].
    intros call Hc. now apply rev1_callObject_hasType. }
destruct (encode_well_typed Rev1.abi "executeBatch" args
  rev1_getAbiItem_executeBatch Hty) as [body Henc].
exists (toFunctionSelector Rev1.executeBatchFunction ++ body).
split; [now rewrite Henc0|]. split.
- apply selectorOf_encoded.
- unfold Rev1.decodeCalls.
  rewrite (decode_encode Rev1.abi "executeBatch" args Hsel
             rev1_getAbiItem_executeBatch Hty Henc).
  change (mapResult
            (fun arg => callOf (field "target" arg) (field "value" arg)
                               (field "data" arg))
            (map (canonical (TTuple [("target", TAddress); ("value", TUint 256);
                                     ("data", TBytes)]))
                 (map rev1_callObject calls))
          = Ok (map defaulted calls)).
  rewrite map_map.
  rewrite (map_ext _ rev1_decodedObject) by (intros; apply rev1_callObject_canonical).
  apply rev1_decode_objects.
Qed.
End Rev1Calls.

(** ** The Simple implementation: calls, second revision *)

Section Rev2Calls.
Context {codec : AbiCodec}.
Import Simple.

Lemma rev2_getAbiItem_execute :
  getAbiItem Rev2.abi "execute" = Some Rev2.executeFunction.
Proof. reflexivity. Qed.

Lemma rev2_getAbiItem_executeBatch :
  getAbiItem Rev2.abi "executeBatch" = Some Rev2.executeBatchFunction.
Proof. reflexivity. Qed.

Lemma nth_error_map_middle {A B} (g : A -> B) (pre : list A) (x : A) (post : list A) :
  nth_error (map g (pre ++ x :: post)) (List.length pre) = Some (g x).
Proof.
rewrite map_app. rewrite nth_error_app2 by (rewrite length_map; lia).
rewrite length_map, Nat.sub_diag. reflexivity.
Qed.

(** Zipping the three decoded arrays by index gives the calls back. *)
Lemma rev2_decode_arrays (pre calls : list Call) :
  let all := pre ++ calls in
  mapResultFrom (List.length pre)
    (fun target index =>
       match at_index (Some (VArray (map (fun call => VInt (orElse (value call) 0)) all))) index,
             at_index (Some (VArray (map (fun call => VHex (orElse (data call) [])) all))) index with
       | Ok value_, Ok data_ => callOf (Some target) value_ data_
       | Err e, _ => Err e
       | _, Err e => Err e
       end)
    (map (fun call => VAddress (to call)) calls)
  = Ok (map defaulted calls).
Proof.
revert pre. induction calls as [|call calls IH]; intros pre all; [reflexivity|].
cbn [map mapResultFrom at_index]. subst all.
rewrite !nth_error_map_middle.
specialize (IH (pre ++ [call])). cbn zeta in IH.
rewrite <- app_assoc in IH. cbn [app] in IH.
rewrite length_app in IH. cbn [List.length] in IH. rewrite Nat.add_1_r in IH.
cbn [at_index] in IH. rewrite IH. reflexivity.
Qed.

Lemma rev2_execute_roundtrip call :
  NoDup (map toFunctionSelector Rev2.abi) ->
  callInRange call ->
  exists data,
    Rev2.encodeCalls [call] = Ok data /\
    selectorOf data = toFunctionSelector Rev2.executeFunction /\
    Rev2.decodeCalls data = Ok [defaulted call].
Proof.
intros Hsel (Ht & Hv & Hd).
set (args := [VAddress (to call); VInt (orElse (value call) 0);
  VHex (orElse (data call) [])]).
assert (Hty : hasTypes (fn_inputs Rev2.executeFunction) args = true).
{ change (hasType TAddress (VAddress (to call))
          && (hasType (TUint 256) (VInt (orElse (value call) 0))
              && (hasType TBytes (VHex (orElse (data call) [])) && true)) = true).
  now rewrite (hasType_address Ht), (hasType_uint256 Hv), (hasType_bytes _ Hd). }
destruct (encode_well_typed Rev2.abi "execute" args rev2_getAbiItem_execute Hty)
  as [body Henc].
exists (toFunctionSelector Rev2.executeFunction ++ body).
split; [exact Henc|]. split.
- apply selectorOf_encoded.
- unfold Rev2.decodeCalls.
  rewrite (decode_encode Rev2.abi "execute" args Hsel rev2_getAbiItem_execute
             Hty Henc).
  reflexivity.
Qed.

Lemma rev2_executeBatch_roundtrip calls :
  NoDup (map toFunctionSelector Rev2.abi) ->
  Forall callInRange calls ->
  Z.of_nat (List.length calls) < 2 ^ 256 ->
  List.length calls <> 1%nat ->
  exists data,
    Rev2.encodeCalls calls = Ok data /\
    selectorOf data = toFunctionSelector Rev2.executeBatchFunction /\
    Rev2.decodeCalls data = Ok (map defaulted calls).
Proof.
intros Hsel Hin Hlen Hn1.
set (args := [VArray (map (fun call => VAddress (to call)) calls);
  VArray (map (fun call => VInt (orElse (value call) 0)) calls);
  VArray (map (fun call => VHex (orElse (data call) [])) calls)]).
assert (Henc0 : Rev2.encodeCalls calls
  = encodeFunctionData Rev2.abi "executeBatch" args).
{ destruct calls as [|c0 [|c1 calls']]; try reflexivity. now elim Hn1. }
assert (Hty : hasTypes (fn_inputs Rev2.executeBatchFunction) args = true).
{ change (hasType (TArray TAddress) (VArray (map (fun call => VAddress (to call)) calls))
          && (hasType (TArray (TUint 256))
                      (VArray (map (fun call => VInt (orElse (value call) 0)) calls))
              && (hasType (TArray TBytes)
                          (VArray (map (fun call => VHex (orElse (data call) [])) calls))
                  && true)) = true).
  rewrite !hasType_array; try reflexivity; try (now rewrite length_map);
    apply Forall_map; (eapply Forall_impl; [|exact Hin]);
    intros call (Ht & Hv & Hd).
  - now apply hasType_bytes.
  - now apply hasType_uint256.
  - now apply hasType_address. }
destruct (encode_well_typed Rev2.abi "executeBatch" args
  rev2_getAbiItem_executeBatch Hty) as [body Henc].
exists (toFunctionSelector Rev2.executeBatchFunction ++ body).
split; [now rewrite Henc0|]. split.
- apply selectorOf_encoded.
- unfold Rev2.decodeCalls.
  rewrite (decode_encode Rev2.abi "executeBatch" args Hsel
             rev2_getAbiItem_executeBatch Hty Henc).
  assert (Hcan : canonicals (fn_inputs Rev2.executeBatchFunction) args = args).
  { unfold args. cbn [canonicals fn_inputs Rev2.executeBatchFunction canonical].
    rewrite !map_map. reflexivity. }
  rewrite Hcan.
  exact (rev2_decode_arrays [] calls).
Qed.
End Rev2Calls.

(** ** Calldata for another function *)

Ltac only_function_named :=
  match goal with
  | H : In ?f _ |- _ =>
      cbv [In] in H;
      repeat (destruct H as [H|H]; [subst f; first [reflexivity | discriminate]|]);
      contradiction
  end.

Section Unrecognized.
Context {codec : AbiCodec}.
Import Simple.

Lemma rev1_execute_only f :
  In f Rev1.abi -> fn_name f = "execute" -> f = Rev1.executeFunction.
Proof. intros H Hn. unfold Rev1.abi in H. only_function_named. Qed.

Lemma rev1_executeBatch_only f :
  In f Rev1.abi -> fn_name f = "executeBatch" -> f = Rev1.executeBatchFunction.
Proof. intros H Hn. unfold Rev1.abi in H. only_function_named. Qed.

Lemma rev2_execute_only f :
  In f Rev2.abi -> fn_name f = "execute" -> f = Rev2.executeFunction.
Proof. intros H Hn. unfold Rev2.abi in H. only_function_named. Qed.

Lemma rev2_executeBatch_only f :
  In f Rev2.abi -> fn_name f = "executeBatch" -> f = Rev2.executeBatchFunction.
Proof. intros H Hn. unfold Rev2.abi in H. only_function_named. Qed.

Lemma rev1_decodeCalls_rejects data :
  selectorOf data <> toFunctionSelector Rev1.executeFunction ->
  selectorOf data <> toFunctionSelector Rev1.executeBatchFunction ->
  rejected Rev1.abi Rev1.decodeCalls data.
Proof.
intros H1 H2. unfold rejected, Rev1.decodeCalls.
destruct (decodeFunctionData Rev1.abi data) as [r|e] eqn:D.
- right. exists r. split; [reflexivity|].
  destruct (decode_names_selector _ _ D) as (f & Hin & Hname & Hsel).
  assert (N1 : functionName r <> "execute").
  { intros Hn. rewrite Hn in Hname.
    rewrite (rev1_execute_only Hin Hname) in Hsel. now apply H1. }
  assert (N2 : functionName r <> "executeBatch").
  { intros Hn. rewrite Hn in Hname.
    rewrite (rev1_executeBatch_only Hin Hname) in Hsel. now apply H2. }
  repeat split; [exact N1 | exact N2 |].
  apply String.eqb_neq in N1, N2. now rewrite N1, N2.
- left. exists e. now split.
Qed.

Lemma rev2_decodeCalls_rejects data :
  selectorOf data <> toFunctionSelector Rev2.executeFunction ->
  selectorOf data <> toFunctionSelector Rev2.executeBatchFunction ->
  rejected Rev2.abi Rev2.decodeCalls data.
Proof.
intros H1 H2. unfold rejected, Rev2.decodeCalls.
destruct (decodeFunctionData Rev2.abi data) as [r|e] eqn:D.
- right. exists r. split; [reflexivity|].
  destruct (decode_names_selector _ _ D) as (f & Hin & Hname & Hsel).
  assert (N1 : functionName r <> "execute").
  { intros Hn. rewrite Hn in Hname.
    rewrite (rev2_execute_only Hin Hname) in Hsel. now apply H1. }
  assert (N2 : functionName r <> "executeBatch").
  { intros Hn. rewrite Hn in Hname.
    rewrite (rev2_executeBatch_only Hin Hname) in Hsel. now apply H2. }
  repeat split; [exact N1 | exact N2 |].
  apply String.eqb_neq in N1, N2. now rewrite N1, N2.
- left. exists e. now split.
Qed.

Lemma rejected_is_error abi decodeCalls data :
  rejected abi decodeCalls data -> exists e, decodeCalls data = Err e.
Proof.
intros [(e & _ & H)|(r & _ & _ & _ & H)]; eauto.
Qed.
End Unrecognized.

(** ** The Simple implementation: address, deployer arguments, signatures *)

Section SimpleMethods.
Context {X : Type} {codec : AbiCodec} {col : Collaborators X}.
Variable deployerAbi : Abi.
Variable parameters : Simple.ToSimpleNativeSmartAccountParameters X.
Import Simple.

(** Once the address is known, [getAddress()] answers from the variable. *)
Lemma getAddress_cached s address :
  address_var s = Some address ->
  getAddress deployerAbi parameters s = (Ok address, s).
Proof. intros H. unfold getAddress, bind, get. now rewrite H. Qed.

(** What [getAddress()] resolves to is in the variable afterwards. *)
Lemma getAddress_caches s address s1 :
  getAddress deployerAbi parameters s = (Ok address, s1) ->
  address_var s1 = Some address.
Proof.
unfold getAddress, bind, get.
destruct (address_var s) as [a|] eqn:V.
- unfold ret. now intros [= <- <-].
- unfold inOutside, zoom.
  destruct (readContractAddress _ _ _ _ _) as [[a|e] x']; [|discriminate].
  unfold setAddress, ret. simpl. now intros [= <- <-].
Qed.

Lemma inOutside_address_var {A} (m : M X A) s r s' :
  inOutside m s = (r, s') -> address_var s' = address_var s.
Proof.
unfold inOutside, zoom. destruct (m (outside s)) as [r' x'].
now intros [= <- <-].
Qed.

(** [getDeployerArgs()] of the implementation: the fixed deployer and the
  calldata of [createAccount(owner, nonce)], or the codec's failure. *)
Lemma simple_getDeployerArgs_run s :
  getDeployerArgs deployerAbi parameters s
  = (match encodeFunctionData deployerAbi "createAccount"
             [VAddress (ownerAddr parameters); VInt (nonce parameters)] with
     | Ok calldata =>
         Ok {| deployer := Some 0x0ba5ed0c6aa8c49038f819e587e2633c4a9f428a;
               deployerData := Some calldata |}
     | Err e => Err e
     end, s).
Proof.
unfold getDeployerArgs, bind, liftResult, ret. simpl.
destruct (encodeFunctionData _ _ _); reflexivity.
Qed.

Lemma simple_getDeployerArgs_both s d s' :
  getDeployerArgs deployerAbi parameters s = (Ok d, s') ->
  s' = s /\
  deployer d = Some 0x0ba5ed0c6aa8c49038f819e587e2633c4a9f428a /\
  exists calldata,
    deployerData d = Some calldata /\
    encodeFunctionData deployerAbi "createAccount"
      [VAddress (ownerAddr parameters); VInt (nonce parameters)] = Ok calldata.
Proof.
rewrite simple_getDeployerArgs_run.
destruct (encodeFunctionData _ _ _) as [calldata|e] eqn:Enc; [|discriminate].
intros [= <- <-]. repeat split. now exists calldata.
Qed.

(** The replay-safe hash is the typed-data hash of the binding structure. *)
Lemma toReplaySafeHash_spec address chainId hash :
  Utilities.toReplaySafeHash address chainId hash
  = hashTypedData (replaySafeTypedData address chainId hash).
Proof. reflexivity. Qed.

Lemma signReplaySafe_run s address s1 c owner_sign h digest :
  getAddress deployerAbi parameters s = (Ok address, s1) ->
  chain (p_client parameters) = Some c ->
  Simple.owner_sign (p_owner parameters) = Some owner_sign ->
  hashTypedData (replaySafeTypedData address (chain_id c) h) = Ok digest ->
  signReplaySafe deployerAbi parameters (Ok h) s = inOutside (owner_sign digest) s1.
Proof.
intros Ha Hc Ho Hd. unfold signReplaySafe.
rewrite (bind_ok _ _ _ Ha).
unfold chainIdOf, client. rewrite Hc.
unfold bind, liftResult. rewrite toReplaySafeHash_spec, Hd.
unfold Utilities.sign, owner. now rewrite Ho.
Qed.

(** Without a chain on the client, or without [owner.sign], signing throws. *)
Lemma signReplaySafe_no_chain s address s1 h :
  getAddress deployerAbi parameters s = (Ok address, s1) ->
  chain (p_client parameters) = None ->
  exists message, signReplaySafe deployerAbi parameters h s = (Err (TypeError message), s1).
Proof.
intros Ha Hc. unfold signReplaySafe. rewrite (bind_ok _ _ _ Ha).
unfold chainIdOf, client. rewrite Hc. unfold bind, liftResult. eauto.
Qed.

Lemma signReplaySafe_no_owner_sign s address s1 c h digest :
  getAddress deployerAbi parameters s = (Ok address, s1) ->
  chain (p_client parameters) = Some c ->
  Simple.owner_sign (p_owner parameters) = None ->
  hashTypedData (replaySafeTypedData address (chain_id c) h) = Ok digest ->
  signReplaySafe deployerAbi parameters (Ok h) s
  = (Err (BaseError "`owner` does not support raw sign."), s1).
Proof.
intros Ha Hc Ho Hd. unfold signReplaySafe.
rewrite (bind_ok _ _ _ Ha).
unfold chainIdOf, client. rewrite Hc.
unfold bind, liftResult. rewrite toReplaySafeHash_spec, Hd.
unfold Utilities.sign, owner. rewrite Ho.
unfold inOutside, zoom, throw. destruct s1; reflexivity.
Qed.

(** The address of an account made over this implementation is the one in
  the variable from then on, so that [this.getAddress()] in the signing
  methods resolves to the account's address. *)
Lemma toSimpleNativeSmartAccount_address abi encodeCalls decodeCalls s acct s1 :
  toSimpleNativeSmartAccount abi deployerAbi encodeCalls decodeCalls parameters s
  = (Ok acct, s1) ->
  address_var s1 = Some (Account.address acct) /\
  getAddress deployerAbi parameters s1 = (Ok (Account.address acct), s1).
Proof.
unfold toSimpleNativeSmartAccount, toNativeSmartAccount, bind. simpl.
destruct (getAddress deployerAbi parameters s) as [[a|e] s'] eqn:G; [|discriminate].
unfold ret. intros [= <- <-]. simpl.
pose proof (getAddress_caches _ G) as V.
split; [exact V | now apply getAddress_cached].
Qed.
End SimpleMethods.

(** ** The reference codec keeps the laws of the interface *)

Module ReferenceLaws.
Import Reference.

Lemma length_bytesOfZ len v : List.length (bytesOfZ len v) = len.
Proof.
revert v. induction len as [|len IH]; intros v; simpl; [reflexivity|].
rewrite length_app, IH. simpl. lia.
Qed.

Lemma byte_of_small n :
  0 <= n < 256 ->
  Z.of_N (Byte.to_N (match Byte.of_N (Z.to_N n) with Some b => b | None => x00 end)) = n.
Proof.
intros Hn. destruct (Byte.of_N (Z.to_N n)) as [b|] eqn:B.
- apply Byte.to_of_N in B. rewrite B. lia.
- apply Byte.of_N_None_iff in B. lia.
Qed.

Lemma zOfBytes_snoc bs b :
  zOfBytes (bs ++ [b]) = zOfBytes bs * 256 + Z.of_N (Byte.to_N b).
Proof. unfold zOfBytes. rewrite fold_left_app. reflexivity. Qed.

Lemma zOfBytes_bytesOfZ len v :
  0 <= v < 256 ^ Z.of_nat len -> zOfBytes (bytesOfZ len v) = v.
Proof.
revert v. induction len as [|len IH]; intros v Hv.
- simpl in *. unfold zOfBytes. simpl. lia.
- cbn [bytesOfZ]. rewrite zOfBytes_snoc.
  rewrite Nat2Z.inj_succ, Z.pow_succ_r in Hv by lia.
  rewrite IH.
  + rewrite byte_of_small by (apply Z.mod_pos_bound; lia).
    pose proof (Z.div_mod v 256 ltac:(lia)). lia.
  + split.
    * apply Z.div_pos; lia.
    * apply Z.div_lt_upper_bound; lia.
Qed.

Lemma takeBytes_app (a rest : list byte) :
  takeBytes (List.length a) (a ++ rest) = Some (a, rest).
Proof.
unfold takeBytes. rewrite length_app.
destruct (Nat.leb_spec (List.length a) (List.length a + List.length rest)); [|lia].
rewrite firstn_app, Nat.sub_diag, firstn_all, skipn_app, Nat.sub_diag, skipn_all.
simpl. now rewrite app_nil_r.
Qed.

Lemma takeWord_word n rest :
  0 <= n < 2 ^ 256 -> takeWord (word n ++ rest) = Some (n, rest).
Proof.
intros Hn. unfold takeWord.
pose proof (takeBytes_app (word n) rest) as T.
unfold word in T at 1. rewrite length_bytesOfZ in T. rewrite T.
unfold word. rewrite zOfBytes_bytesOfZ; [reflexivity|].
change (256 ^ Z.of_nat 32) with (2 ^ 256). exact Hn.
Qed.

Lemma takeWord_length (n : nat) rest :
  fitsLength n = true ->
  takeWord (word (Z.of_nat n) ++ rest) = Some (Z.of_nat n, rest).
Proof.
intros H. apply takeWord_word. unfold fitsLength in H.
apply Z.ltb_lt in H. lia.
Qed.

(** Induction over ABI types, through the components of tuples. *)
Section AbiTypeInduction.
Variable P : AbiType -> Prop.
Hypothesis HAddress : P TAddress.
Hypothesis HBool : P TBool.
Hypothesis HString : P TString.
Hypothesis HBytes : P TBytes.
Hypothesis HUint : forall bits, P (TUint bits).
Hypothesis HBytesN : forall size, P (TBytesN size).
Hypothesis HArray : forall elem, P elem -> P (TArray elem).
Hypothesis HTuple :
  forall components, Forall (fun kt => P (snd kt)) components -> P (TTuple components).

Fixpoint AbiType_induction (t : AbiType) : P t :=
  match t with
  | TAddress => HAddress
  | TBool => HBool
  | TString => HString
  | TBytes => HBytes
  | TUint bits => HUint bits
  | TBytesN size => HBytesN size
  | TArray elem => HArray (AbiType_induction elem)
  | TTuple components =>
      HTuple
        ((fix all (cs : list (string * AbiType)) : Forall (fun kt => P (snd kt)) cs :=
            match cs with
            | [] => Forall_nil _
            | kt :: cs' => Forall_cons kt (AbiType_induction (snd kt)) (all cs')
            end) components)
  end.
End AbiTypeInduction.

Lemma parse_ser t :
  forall v rest,
    hasType t v = true ->
    parse t (ser t v ++ rest) = Some (canonical t v, rest).
Proof.
induction t as [ | | | | bits | size | elem IH | components IH]
  using AbiType_induction; intros v rest Hty.
- destruct v; try discriminate. cbn [hasType] in Hty.
  apply andb_true_iff in Hty as [H0 H1].
  apply Z.leb_le in H0. apply Z.ltb_lt in H1.
  cbn [ser parse canonical]. rewrite takeWord_word; [reflexivity|].
  assert (2 ^ 160 < 2 ^ 256) by reflexivity. lia.
- destruct v; try discriminate.
  cbn [ser parse canonical]. rewrite takeWord_word by (destruct b; split; reflexivity || discriminate).
  now destruct b.
- destruct v; try discriminate. cbn [hasType] in Hty.
  cbn [ser parse canonical]. rewrite <- app_assoc, takeWord_length by exact Hty.
  rewrite Nat2Z.id.
  replace (String.length s) with (List.length (list_byte_of_string s)).
  + rewrite takeBytes_app. now rewrite string_of_list_byte_of_string.
  + unfold list_byte_of_string. rewrite length_map.
    clear. induction s; simpl; congruence.
- destruct v; try discriminate. cbn [hasType] in Hty.
  cbn [ser parse canonical]. rewrite <- app_assoc, takeWord_length by exact Hty.
  rewrite Nat2Z.id, takeBytes_app. reflexivity.
- destruct v; try discriminate. cbn [hasType] in Hty.
  apply andb_true_iff in Hty as [Hb Hty].
  apply andb_true_iff in Hty as [H0 H1].
  apply Nat.leb_le in Hb. apply Z.leb_le in H0. apply Z.ltb_lt in H1.
  cbn [ser parse canonical]. rewrite takeWord_word; [reflexivity|].
  assert (2 ^ Z.of_nat bits <= 2 ^ 256) by (apply Z.pow_le_mono_r; lia).
  lia.
- destruct v; try discriminate. cbn [hasType] in Hty.
  apply andb_true_iff in Hty as [_ Hl]. apply Nat.eqb_eq in Hl.
  cbn [ser parse canonical]. rewrite <- Hl, takeBytes_app. reflexivity.
- destruct v as [ | | | | | items | ]; try discriminate. cbn [hasType] in Hty.
  apply andb_true_iff in Hty as [Hl Hall].
  cbn [ser parse canonical]. rewrite <- app_assoc, takeWord_length by exact Hl.
  rewrite Nat2Z.id. clear Hl.
  match goal with
  | |- match ?F (List.length items) ?bs with _ => _ end = _ =>
      assert (HF : F (List.length items) bs = Some (map (canonical elem) items, rest))
  end.
  { revert Hall. induction items as [|v items IHi]; intros Hall; [reflexivity|].
    cbn [forallb] in Hall. apply andb_true_iff in Hall as [Hv Hall].
    cbn [List.length map List.concat]. rewrite <- app_assoc.
    rewrite (IH v _ Hv). rewrite (IHi Hall). reflexivity. }
  rewrite HF. reflexivity.
- destruct v as [ | | | | | | fields]; try discriminate. cbn [hasType] in Hty.
  cbn [ser parse canonical].
  match goal with
  | |- match ?F components ?bs with _ => _ end = Some (VObject ?fs, rest) =>
      assert (HF : F components bs = Some (fs, rest))
  end.
  { revert Hty. induction IH as [|[k t'] cs Pt IHcs IHrec]; intros Hty; [reflexivity|].
    apply andb_true_iff in Hty as [Hv Hall].
    destruct (getField k fields) as [v'|] eqn:G; [|discriminate].
    rewrite <- app_assoc. simpl in Pt.
    rewrite (Pt v' _ Hv). rewrite (IHrec Hall). reflexivity. }
  rewrite HF. reflexivity.
Qed.

Lemma parseArgs_serArgs ps :
  forall args rest,
    hasTypes ps args = true ->
    parseArgs ps (serArgs ps args ++ rest) = Some (canonicals ps args).
Proof.
induction ps as [|[k t] ps IH]; intros args rest Hty.
- destruct args; [reflexivity|discriminate].
- destruct args as [|v args]; [discriminate|].
  cbn [hasTypes] in Hty. apply andb_true_iff in Hty as [Hv Hargs].
  cbn [serArgs parseArgs canonicals]. rewrite <- app_assoc.
  rewrite (parse_ser t v _ Hv), (IH args rest Hargs). reflexivity.
Qed.

Lemma hexEqb_eq a b : hexEqb a b = true <-> a = b.
Proof. unfold hexEqb. destruct (list_eq_dec _ a b); split; congruence. Qed.

Lemma selector_length4 f : List.length (selector f) = 4%nat.
Proof. apply length_bytesOfZ. Qed.

Lemma selectorOf_selector f body : selectorOf (selector f ++ body) = selector f.
Proof.
unfold selectorOf. rewrite firstn_app, selector_length4, Nat.sub_diag.
rewrite <- (selector_length4 f) at 1. rewrite firstn_all. apply app_nil_r.
Qed.

Lemma getAbiItem_In abi name f :
  getAbiItem abi name = Some f -> In f abi /\ fn_name f = name.
Proof.
intros H. apply find_some in H as [Hin Hn]. split; [exact Hin|].
now apply String.eqb_eq.
Qed.

(** In an ABI without two functions of one selector, looking a function of
  the ABI up by its selector finds it. *)
Lemma find_by_selector abi f :
  NoDup (map selector abi) -> In f abi ->
  find (fun g => hexEqb (selector g) (selector f)) abi = Some f.
Proof.
induction abi as [|g abi IH]; intros Hnd Hin; [contradiction|].
cbn [map] in Hnd. apply NoDup_cons_iff in Hnd as [Hng Hnd].
cbn [find]. destruct (hexEqb (selector g) (selector f)) eqn:Eq.
- apply hexEqb_eq in Eq. destruct Hin as [->|Hin]; [reflexivity|].
  exfalso. apply Hng. rewrite Eq. now apply in_map.
- destruct Hin as [->|Hin].
  + assert (hexEqb (selector f) (selector f) = true) by now apply hexEqb_eq.
    congruence.
  + now apply IH.
Qed.

#[export] Instance referenceCodec : AbiCodec.
Proof.
refine {| toFunctionSelector := selector;
  encodeFunctionData := encode;
  decodeFunctionData := decode |}.
- exact selector_length4.
- intros abi name f args Hf Hty. unfold encode. rewrite Hf, Hty. eauto.
- intros abi name f args data Hnd Hf Hty Henc.
  unfold encode in Henc. rewrite Hf, Hty in Henc.
  assert (Hdata : data = selector f ++ serArgs (fn_inputs f) args) by congruence.
  subst data. clear Henc.
  destruct (getAbiItem_In _ _ Hf) as [Hin Hname].
  unfold decode. rewrite selectorOf_selector, find_by_selector by assumption.
  rewrite skipn_app, selector_length4, Nat.sub_diag.
  rewrite <- (selector_length4 f) at 1. rewrite skipn_all. cbn [skipn app].
  rewrite <- (app_nil_r (serArgs _ _)), (parseArgs_serArgs _ _ _ Hty).
  now rewrite Hname.
- intros abi data r H. unfold decode in H.
  destruct (find _ abi) as [f|] eqn:F; [|discriminate].
  apply find_some in F as [Hin Hsel]. apply hexEqb_eq in Hsel.
  destruct (parseArgs _ _); [|discriminate]. injection H as <-.
  exists f. now repeat split.
Defined.

Lemma distinctHex_NoDup l : distinctHex l = true -> NoDup l.
Proof.
induction l as [|h l IH]; intros H; [constructor|].
cbn [distinctHex] in H. apply andb_true_iff in H as [Hh Hl].
constructor; [|now apply IH].
intros Hin. apply negb_true_iff in Hh.
assert (existsb (hexEqb h) l = true); [|congruence].
apply existsb_exists. exists h. split; [exact Hin|]. now apply hexEqb_eq.
Qed.
End ReferenceLaws.

(* ------------------------------------------------------------------------- *)
(** * The claims                                                              *)
(* ------------------------------------------------------------------------- *)

(** C1. [signMessage], [signTypedData] and (when the implementation has it)
  [sign] of an account made by the factory: with [this.getDeployerArgs()]
  resolved to [args] and the implementation's operation resolved to
  [signature], the result is the ERC-6492 serialization of the deployer
  address, the deployer calldata and [signature] when [args] holds both, and
  [signature] itself otherwise.  Without [sign] on the implementation the
  account has none. *)
Theorem sign_wraps_iff_deployer_args {W E : Type} {col : Collaborators W}
    (implementation : NativeSmartAccountImplementation W E) (address : Address)
    (s s1 s2 : AccountState W) (args : DeployerArgs) (signature : Hex) :
  let acct := account implementation address in
  Account.getDeployerArgs acct s = (Ok args, s1) ->
  (forall parameters,
      inWorld (Implementation.signMessage implementation parameters) s1
      = (Ok signature, s2) ->
      Account.signMessage acct parameters s
      = (Ok (envelopeOrRaw args signature), s2)) /\
  (forall parameters,
      inWorld (Implementation.signTypedData implementation parameters) s1
      = (Ok signature, s2) ->
      Account.signTypedData acct parameters s
      = (Ok (envelopeOrRaw args signature), s2)) /\
  match Implementation.sign implementation with
  | Some implementation_sign =>
      exists account_sign,
        Account.sign acct = Some account_sign /\
        forall parameters,
          inWorld (implementation_sign parameters) s1 = (Ok signature, s2) ->
          account_sign parameters s = (Ok (envelopeOrRaw args signature), s2)
  | None => Account.sign acct = None
  end.
Proof.
intros acct Hargs. repeat split.
- intros parameters Hsig. exact (signWith_run _ _ _ Hargs Hsig).
- intros parameters Hsig. exact (signWith_run _ _ _ Hargs Hsig).
- subst acct. simpl.
  destruct (Implementation.sign implementation) as [implementation_sign|].
  + eexists. split; [reflexivity|].
    intros parameters Hsig. exact (signWith_run _ _ _ Hargs Hsig).
  + reflexivity.
Qed.

(** C7. [getNonce] of an account made by the factory: a key given in the
  parameters is the key, and the nonce key manager is not called; without
  one, the key is what [consume] of the bound manager (the implementation's,
  or the default one) resolves to for the account's address, the chain id
  and the client, as a bigint.  With the key, the nonce is what the
  implementation's own [getNonce] resolves to when it has one, and what the
  nonce manager predeploy holds for the address and the key otherwise. *)
Theorem getNonce_key_and_lookup {W E : Type} {col : Collaborators W}
    (implementation : NativeSmartAccountImplementation W E) (address : Address) :
  let acct := account implementation address in
  let manager :=
    match Implementation.nonceKeyManager implementation with
    | Some implementation_manager => implementation_manager
    | None => defaultNonceKeyManager
    end in
  (forall parameters k s,
      suppliedKey parameters = Some k ->
      Account.getNonce acct parameters s
      = inWorld (nonceForKey implementation address k) s) /\
  (forall parameters c n s s1,
      suppliedKey parameters = None ->
      chain (Implementation.client implementation) = Some c ->
      inWorld (consume manager
                 {| consume_address := address;
                    consume_chainId := chain_id c;
                    consume_client := Implementation.client implementation |}) s
      = (Ok n, s1) ->
      Account.getNonce acct parameters s
      = inWorld (nonceForKey implementation address n) s1).
Proof.
intros acct manager. split.
- intros [[[k'|]]|] k s Hk; simpl in Hk; try discriminate.
  injection Hk as ->. apply getNonce_with_key.
- intros parameters c n s s1 Hk Hc Hn.
  now apply (getNonce_without_key implementation address parameters s Hk Hc).
Qed.

(** C4. For a non-empty list of calls (addresses of 20 bytes, values in
  uint256, lengths that a uint256 holds), in both revisions [encodeCalls]
  gives calldata that [decodeCalls] turns back into the same calls in the
  same order, [value] and [data] defaulted to 0 and to empty calldata where
  omitted; the calldata of one call is an [execute] call, that of two or
  more an [executeBatch] call. *)
Theorem decodeCalls_encodeCalls {codec : AbiCodec} (calls : list Call) :
  calls <> [] ->
  Forall callInRange calls ->
  Z.of_nat (List.length calls) < 2 ^ 256 ->
  (NoDup (map toFunctionSelector Simple.Rev1.abi) ->
   exists calldata,
     Simple.Rev1.encodeCalls calls = Ok calldata /\
     Simple.Rev1.decodeCalls calldata = Ok (map defaulted calls) /\
     selectorOf calldata
     = toFunctionSelector
         (if Nat.eqb (List.length calls) 1 then Simple.Rev1.executeFunction
          else Simple.Rev1.executeBatchFunction)) /\
  (NoDup (map toFunctionSelector Simple.Rev2.abi) ->
   exists calldata,
     Simple.Rev2.encodeCalls calls = Ok calldata /\
     Simple.Rev2.decodeCalls calldata = Ok (map defaulted calls) /\
     selectorOf calldata
     = toFunctionSelector
         (if Nat.eqb (List.length calls) 1 then Simple.Rev2.executeFunction
          else Simple.Rev2.executeBatchFunction)).
Proof.
intros Hne Hin Hlen.
destruct (Nat.eqb (List.length calls) 1) eqn:L.
- apply Nat.eqb_eq in L.
  destruct calls as [|call [|c1 calls']]; try discriminate.
  apply Forall_inv in Hin. split; intros Hsel.
  + destruct (rev1_execute_roundtrip Hsel Hin) as (d & H1 & H2 & H3).
    exists d. now repeat split.
  + destruct (rev2_execute_roundtrip Hsel Hin) as (d & H1 & H2 & H3).
    exists d. now repeat split.
- apply Nat.eqb_neq in L. split; intros Hsel.
  + destruct (rev1_executeBatch_roundtrip Hsel Hin Hlen L) as (d & H1 & H2 & H3).
    exists d. now repeat split.
  + destruct (rev2_executeBatch_roundtrip Hsel Hin Hlen L) as (d & H1 & H2 & H3).
    exists d. now repeat split.
Qed.

(** C6. In both revisions, calldata whose selector is neither that of
  [execute] nor that of [executeBatch] makes [decodeCalls] throw: either
  the codec's own error for that calldata, or the error that names the
  function found, which is neither of the two.  No list of calls comes
  back. *)
Theorem decodeCalls_rejects_other_selectors {codec : AbiCodec} (calldata : Hex) :
  (selectorOf calldata <> toFunctionSelector Simple.Rev1.executeFunction ->
   selectorOf calldata <> toFunctionSelector Simple.Rev1.executeBatchFunction ->
   exists e,
     Simple.Rev1.decodeCalls calldata = Err e /\
     (decodeFunctionData Simple.Rev1.abi calldata = Err e \/
      exists r,
        decodeFunctionData Simple.Rev1.abi calldata = Ok r /\
        functionName r <> "execute" /\ functionName r <> "executeBatch" /\
        e = BaseError ("unable to decode calls for " ++ quote
                         ++ functionName r ++ quote)%string)) /\
  (selectorOf calldata <> toFunctionSelector Simple.Rev2.executeFunction ->
   selectorOf calldata <> toFunctionSelector Simple.Rev2.executeBatchFunction ->
   exists e,
     Simple.Rev2.decodeCalls calldata = Err e /\
     (decodeFunctionData Simple.Rev2.abi calldata = Err e \/
      exists r,
        decodeFunctionData Simple.Rev2.abi calldata = Ok r /\
        functionName r <> "execute" /\ functionName r <> "executeBatch" /\
        e = BaseError ("unable to decode calls for " ++ quote
                         ++ functionName r ++ quote)%string)).
Proof.
split; intros H1 H2.
- destruct (rev1_decodeCalls_rejects _ H1 H2) as [(e & D & R)|(r & D & N1 & N2 & R)].
  + exists e. split; [exact R | now left].
  + eexists. split; [exact R|]. right. exists r. now repeat split.
- destruct (rev2_decodeCalls_rejects _ H1 H2) as [(e & D & R)|(r & D & N1 & N2 & R)].
  + exists e. split; [exact R | now left].
  + eexists. split; [exact R|]. right. exists r. now repeat split.
Qed.

(** C8, as amended.  The default [transaction.estimateGas] of the Simple
  implementation resolves to an object holding [verificationGasLimit]
  alone, made from the transaction's own [verificationGasLimit] (0 when
  absent) and from nothing else.  The value is passed through [Number]: up
  to [2^53] it comes back as it was; above, it comes back as a multiple of
  [2^e], [e = log2 v - 52], at most half of [2^e] away. *)
Theorem estimateGas_passes_limit_through_Number (transaction : TransactionRequest) :
  let v := orElse (tx_verificationGasLimit transaction) 0 in
  is_uint256 v ->
  exists r,
    Simple.estimateGas transaction = Ok (Some (onlyVerificationGasLimit r)) /\
    (v <= 2 ^ 53 -> r = v) /\
    (2 ^ 53 < v ->
     exists m, r = m * 2 ^ (Z.log2 v - 52) /\
               2 * Z.abs (r - v) <= 2 ^ (Z.log2 v - 52)).
Proof.
intros v Hv. exists (roundToDouble v).
assert (Hfin : roundToDouble v < 2 ^ 1024) by now apply roundToDouble_finite.
destruct Hv as [H0 H1].
split; [|split].
- unfold Simple.estimateGas. fold v. unfold Number_of_bigint.
  rewrite Z.abs_eq by exact H0.
  destruct (2 ^ 1024 <=? roundToDouble v) eqn:C.
  + apply Z.leb_le in C. lia.
  + cbn [BigInt_of_Number]. unfold onlyVerificationGasLimit.
    destruct (Z.eq_dec v 0) as [->|Hnz]; [reflexivity|].
    rewrite Z.sgn_pos by lia. now rewrite Z.mul_1_l.
- intros Hs. apply roundToDouble_exact. lia.
- intros Hb.
  assert (53 <= Z.log2 v) by (apply Z.log2_le_pow2; lia).
  apply roundToDouble_nearest. lia.
Qed.

(** C8 as stated fails: a [verificationGasLimit] of [2^53 + 1] comes back
  as [2^53]. *)
Lemma estimateGas_loses_precision :
  Simple.estimateGas (withVerificationGasLimit (Some 9007199254740993))
  = Ok (Some (onlyVerificationGasLimit 9007199254740992)) /\
  ~ (exists r,
        Simple.estimateGas (withVerificationGasLimit (Some 9007199254740993))
        = Ok (Some r) /\
        est_verificationGasLimit r = Some 9007199254740993).
Proof.
split; [reflexivity|].
intros (r & Hr & Hv). vm_compute in Hr. injection Hr as <-.
discriminate Hv.
Qed.

(** [createAccount] always encodes for a 20-byte owner and a uint256 nonce. *)
Lemma createAccount_encodes {codec : AbiCodec} (deployerAbi : Abi) (f : AbiFunction)
    (owner : Address) (nonce : bigint) :
  getAbiItem deployerAbi "createAccount" = Some f ->
  map snd (fn_inputs f) = [TAddress; TUint 256] ->
  is_uint160 owner -> is_uint256 nonce ->
  exists calldata,
    encodeFunctionData deployerAbi "createAccount" [VAddress owner; VInt nonce]
    = Ok calldata.
Proof.
intros Hf Hin Ho Hn.
assert (Hty : hasTypes (fn_inputs f) [VAddress owner; VInt nonce] = true).
{ destruct (fn_inputs f) as [|[k1 t1] [|[k2 t2] [|p ps]]]; try discriminate.
  injection Hin as -> ->.
  change (hasType TAddress (VAddress owner)
          && (hasType (TUint 256) (VInt nonce) && true) = true).
  now rewrite (hasType_address Ho), (hasType_uint256 Hn). }
destruct (encode_well_typed deployerAbi "createAccount" _ Hf Hty) as [body Henc].
eauto.
Qed.

(** C2. [getDeployerArgs()] of an account made by the factory: when the
  [isDeployed()] it calls returns true the result is
  [{ deployer: undefined, deployerData: undefined }], and when it returns
  false the result is that of the implementation's own [getDeployerArgs()].
  The Simple implementation's own always holds both fields, the fixed
  deployer address and the calldata of [createAccount(owner, nonce)] (and
  in both revisions it does resolve, for a 20-byte owner and a uint256
  nonce); so an account over it never gives exactly one of the two. *)
Theorem getDeployerArgs_gated_by_isDeployed :
  (forall (W E : Type) (col : Collaborators W)
          (implementation : NativeSmartAccountImplementation W E)
          (address : Address) (s s1 : AccountState W),
      (isDeployed implementation address s = (Ok true, s1) ->
       Account.getDeployerArgs (account implementation address) s
       = (Ok {| deployer := None; deployerData := None |}, s1)) /\
      (isDeployed implementation address s = (Ok false, s1) ->
       Account.getDeployerArgs (account implementation address) s
       = inWorld (Implementation.getDeployerArgs implementation) s1)) /\
  (forall (X : Type) (codec : AbiCodec) (col : Collaborators X)
          (abi deployerAbi : Abi) encodeCalls decodeCalls
          (parameters : Simple.ToSimpleNativeSmartAccountParameters X),
      let implementation :=
        Simple.implementation abi deployerAbi encodeCalls decodeCalls parameters in
      let owner := Simple.owner_address (Simple.p_owner parameters) in
      let nonce := orElse (Simple.p_nonce parameters) 0 in
      (forall s d s',
          Implementation.getDeployerArgs implementation s = (Ok d, s') ->
          deployer d = Some 0x0ba5ed0c6aa8c49038f819e587e2633c4a9f428a /\
          exists calldata,
            deployerData d = Some calldata /\
            encodeFunctionData deployerAbi "createAccount"
              [VAddress owner; VInt nonce] = Ok calldata) /\
      (deployerAbi = Simple.Rev1.deployerAbi \/
       deployerAbi = Simple.Rev2.deployerAbi ->
       is_uint160 owner -> is_uint256 nonce ->
       forall s, exists d,
         Implementation.getDeployerArgs implementation s = (Ok d, s)) /\
      (forall address t d t',
          Account.getDeployerArgs
            (account (col := Simple.collaborators) implementation address) t
          = (Ok d, t') ->
          (deployer d = None /\ deployerData d = None) \/
          (exists a calldata, deployer d = Some a /\ deployerData d = Some calldata))).
Proof.
split.
- intros W E col implementation address s s1. split; intros H.
  + now apply getDeployerArgs_when_deployed.
  + now apply getDeployerArgs_when_not_deployed.
- intros X codec col abi deployerAbi encodeCalls decodeCalls parameters
         implementation owner nonce.
  split; [|split].
  + intros s d s' H. simpl in H.
    destruct (simple_getDeployerArgs_both _ _ _ H) as (_ & Hd & calldata & Hc & He).
    split; [exact Hd|]. now exists calldata.
  + intros Habi Ho Hn s. simpl. rewrite simple_getDeployerArgs_run.
    assert (Henc : exists calldata,
               encodeFunctionData deployerAbi "createAccount"
                 [VAddress owner; VInt nonce] = Ok calldata).
    { destruct Habi as [-> | ->].
      - eapply createAccount_encodes; try eassumption; reflexivity.
      - eapply createAccount_encodes; try eassumption; reflexivity. }
    destruct Henc as [calldata Henc].
    fold owner. unfold Simple.ownerAddr, Simple.nonce, Simple.owner.
    fold owner nonce. rewrite Henc. eauto.
  + intros address t d t' H. simpl in H. unfold getDeployerArgs in H.
    unfold bind in H.
    destruct (isDeployed implementation address t) as [[[|]|e] t1];
      [| |discriminate].
    * unfold ret in H. injection H as <- <-. now left.
    * unfold inWorld, zoom in H. simpl in H.
      rewrite simple_getDeployerArgs_run in H.
      destruct (encodeFunctionData _ _ _) as [calldata|e]; [|discriminate].
      injection H as <- <-. right. do 2 eexists. split; reflexivity.
Qed.

(** C5. [sign], [signMessage] and [signTypedData] of the Simple
  implementation, on a client with a chain and an owner that can sign a raw
  hash: the signature is the owner's signature of the EIP-712 hash of the
  [SimpleNativeSmartWalletMessage] (one [bytes32] field, [hash]) in the
  domain of name "Simple Native Smart Wallet", version "1", the client's
  chain id and the account address as verifying contract, where [hash] is
  the hash given, [hashMessage(message)], and [hashTypedData(parameters)]
  respectively. *)
Theorem simple_signs_replay_safe_hash {X : Type} {codec : AbiCodec}
    {col : Collaborators X} (abi deployerAbi : Abi) encodeCalls decodeCalls
    (parameters : Simple.ToSimpleNativeSmartAccountParameters X)
    (s s1 : Simple.SimpleState X) (address : Address) (c : Chain)
    (owner_sign : Hash -> M X Hex) :
  let implementation :=
    Simple.implementation abi deployerAbi encodeCalls decodeCalls parameters in
  let domainHash hash := hashTypedData (replaySafeTypedData address (chain_id c) hash) in
  Implementation.getAddress implementation s = (Ok address, s1) ->
  chain (Simple.p_client parameters) = Some c ->
  Simple.owner_sign (Simple.p_owner parameters) = Some owner_sign ->
  (exists implementation_sign,
      Implementation.sign implementation = Some implementation_sign /\
      forall hash digest,
        domainHash hash = Ok digest ->
        implementation_sign hash s = Simple.inOutside (owner_sign digest) s1) /\
  (forall message digest,
      domainHash (hashMessage message) = Ok digest ->
      Implementation.signMessage implementation message s
      = Simple.inOutside (owner_sign digest) s1) /\
  (forall typedData hash digest,
      hashTypedData typedData = Ok hash ->
      domainHash hash = Ok digest ->
      Implementation.signTypedData implementation typedData s
      = Simple.inOutside (owner_sign digest) s1).
Proof.
intros implementation domainHash Ha Hc Ho. simpl in Ha.
split; [|split].
- eexists. split; [reflexivity|].
  intros hash digest Hd. unfold Simple.sign.
  now apply (signReplaySafe_run deployerAbi parameters s _ Ha Hc Ho).
- intros message digest Hd. simpl. unfold Simple.signMessage.
  now apply (signReplaySafe_run deployerAbi parameters s _ Ha Hc Ho).
- intros typedData hash digest Hh Hd. simpl. unfold Simple.signTypedData.
  destruct typedData as [dom types primaryType message]. simpl.
  rewrite Hh.
  now apply (signReplaySafe_run deployerAbi parameters s _ Ha Hc Ho).
Qed.

(* ------------------------------------------------------------------------- *)
(** * The claims at work                                                      *)
(* ------------------------------------------------------------------------- *)

(** An account of each revision in the small world, over the reference
  codec. *)
Module DemoAccount.
Import ReferenceLaws.

Definition implementation1
    : NativeSmartAccountImplementation (Simple.SimpleState Demo.World) Simple.Extend :=
  Simple.Rev1.implementation (codec := referenceCodec) (col := Demo.collaborators)
    Demo.parameters.

Definition implementation2
    : NativeSmartAccountImplementation (Simple.SimpleState Demo.World) Simple.Extend :=
  Simple.Rev2.implementation (codec := referenceCodec) (col := Demo.collaborators)
    Demo.parameters.

Definition account2 : NativeSmartAccount (Simple.SimpleState Demo.World) Simple.Extend :=
  account (col := Simple.collaborators (col := Demo.collaborators)) implementation2
    Demo.accountAddress.

(** The chain loses its code: what a later probe would see. *)
Definition codeGone (s : Simple.SimpleState Demo.World) : Simple.SimpleState Demo.World :=
  {| Simple.address_var := Simple.address_var s; Simple.outside := Demo.emptyChain |}.
End DemoAccount.

Lemma rev1_selectors_distinct :
  NoDup (map (@toFunctionSelector ReferenceLaws.referenceCodec) Simple.Rev1.abi).
Proof. apply ReferenceLaws.distinctHex_NoDup. vm_compute. reflexivity. Qed.

Lemma rev2_selectors_distinct :
  NoDup (map (@toFunctionSelector ReferenceLaws.referenceCodec) Simple.Rev2.abi).
Proof. apply ReferenceLaws.distinctHex_NoDup. vm_compute. reflexivity. Qed.

Lemma estimateGas_passes_limit_through_Number_witness :
  is_uint256 21000 /\
  exists r,
    Simple.estimateGas (withVerificationGasLimit (Some 21000))
    = Ok (Some (onlyVerificationGasLimit r)) /\
    r = 21000.
Proof.
assert (H : is_uint256 21000) by (unfold is_uint256, uint256_max; lia).
split; [exact H|].
destruct (estimateGas_passes_limit_through_Number
  (withVerificationGasLimit (Some 21000)) H) as (r & Hr & Hs & _).
exists r. split; [exact Hr|]. apply Hs. simpl. lia.
Defined.

Lemma isDeployed_stays_true_witness :
  exists s_j,
    nth_error
      (isDeployedRuns (col := Simple.collaborators (col := Demo.collaborators))
         DemoAccount.implementation2
         Demo.accountAddress [id; DemoAccount.codeGone; DemoAccount.codeGone]
         (Demo.stateOn Demo.fullChain)) 2
    = Some (Ok true, s_j) /\
    deployed s_j = true.
Proof.
eapply (isDeployed_stays_true
  (col := Simple.collaborators (col := Demo.collaborators))
  DemoAccount.implementation2 Demo.accountAddress
  [id; DemoAccount.codeGone; DemoAccount.codeGone]
  (Demo.stateOn Demo.fullChain) (i := 0) (j := 2)).
- simpl. lia.
- reflexivity.
Defined.

Lemma sign_wraps_iff_deployer_args_witness :
  exists args signature s1 s2,
    Account.getDeployerArgs DemoAccount.account2 (Demo.stateOn Demo.emptyChain)
    = (Ok args, s1) /\
    inWorld (Implementation.signMessage DemoAccount.implementation2
               (MessageString "hi")) s1
    = (Ok signature, s2) /\
    Account.signMessage DemoAccount.account2 (MessageString "hi")
      (Demo.stateOn Demo.emptyChain)
    = (Ok (envelopeOrRaw (col := Simple.collaborators (col := Demo.collaborators))
             args signature), s2).
Proof.
do 4 eexists.
match goal with
| |- ?A /\ ?B /\ _ =>
  assert (H1 : A) by reflexivity;
  assert (H2 : B) by reflexivity
end.
split; [exact H1|]. split; [exact H2|].
exact (proj1 (@sign_wraps_iff_deployer_args _ _
     (Simple.collaborators (col := Demo.collaborators))
     DemoAccount.implementation2 Demo.accountAddress _ _ _ _ _ H1)
  (MessageString "hi") H2).
Defined.

Lemma getDeployerArgs_gated_by_isDeployed_witness :
  exists s1,
    isDeployed (col := Simple.collaborators (col := Demo.collaborators))
      DemoAccount.implementation2 Demo.accountAddress (Demo.stateOn Demo.fullChain)
    = (Ok true, s1) /\
    Account.getDeployerArgs DemoAccount.account2 (Demo.stateOn Demo.fullChain)
    = (Ok {| deployer := None; deployerData := None |}, s1).
Proof.
eexists.
match goal with |- ?A /\ _ => assert (H : A) by reflexivity end.
split; [exact H|].
exact (proj1 (proj1 getDeployerArgs_gated_by_isDeployed _ _
  (Simple.collaborators (col := Demo.collaborators))
  DemoAccount.implementation2 Demo.accountAddress _ _) H).
Defined.

Ltac in_range :=
  repeat split;
  first [ apply Z.leb_le; vm_compute; reflexivity
        | apply Z.ltb_lt; vm_compute; reflexivity ].

Lemma decodeCalls_encodeCalls_witness :
  [Demo.callA; Demo.callB] <> [] /\
  Forall callInRange [Demo.callA; Demo.callB] /\
  exists calldata,
    Simple.Rev2.encodeCalls (codec := ReferenceLaws.referenceCodec)
      [Demo.callA; Demo.callB] = Ok calldata /\
    Simple.Rev2.decodeCalls (codec := ReferenceLaws.referenceCodec) calldata
    = Ok [defaulted Demo.callA; defaulted Demo.callB] /\
    selectorOf calldata
    = toFunctionSelector (AbiCodec := ReferenceLaws.referenceCodec)
        Simple.Rev2.executeBatchFunction.
Proof.
assert (Hne : [Demo.callA; Demo.callB] <> []) by discriminate.
assert (Hin : Forall callInRange [Demo.callA; Demo.callB]).
{ repeat constructor; unfold callInRange, is_uint160, is_uint256; in_range. }
assert (Hlen : Z.of_nat (List.length [Demo.callA; Demo.callB]) < 2 ^ 256)
  by (apply Z.ltb_lt; vm_compute; reflexivity).
split; [exact Hne|]. split; [exact Hin|].
exact (proj2 (decodeCalls_encodeCalls (codec := ReferenceLaws.referenceCodec)
  Hne Hin Hlen) rev2_selectors_distinct).
Defined.

Lemma simple_signs_replay_safe_hash_witness :
  exists digest,
    hashTypedData (Collaborators := Demo.collaborators)
      (replaySafeTypedData Demo.accountAddress 11171168
         (hashMessage (Collaborators := Demo.collaborators) (MessageString "hi")))
    = Ok digest /\
    Implementation.signMessage DemoAccount.implementation2 (MessageString "hi")
      (world (Demo.stateOn Demo.emptyChain))
    = Simple.inOutside (Demo.ownerSign digest) (world (Demo.stateOn Demo.emptyChain)).
Proof.
eexists.
match goal with |- ?A /\ _ => assert (H : A) by reflexivity end.
split; [exact H|].
exact (proj1 (proj2
  (@simple_signs_replay_safe_hash _ ReferenceLaws.referenceCodec
     Demo.collaborators Simple.Rev2.abi Simple.Rev2.deployerAbi
     Simple.Rev2.encodeCalls Simple.Rev2.decodeCalls Demo.parameters
     (world (Demo.stateOn Demo.emptyChain))
     (world (Demo.stateOn Demo.emptyChain))
     Demo.accountAddress {| chain_id := 11171168 |} Demo.ownerSign
     eq_refl eq_refl eq_refl))
  (MessageString "hi") _ H).
Defined.

Lemma decodeCalls_rejects_other_selectors_witness :
  exists e,
    Simple.Rev2.decodeCalls (codec := ReferenceLaws.referenceCodec)
      [xde; xad; xbe; xef] = Err e.
Proof.
assert (H1 : selectorOf [xde; xad; xbe; xef]
             <> toFunctionSelector (AbiCodec := ReferenceLaws.referenceCodec)
                  Simple.Rev2.executeFunction)
  by (vm_compute; discriminate).
assert (H2 : selectorOf [xde; xad; xbe; xef]
             <> toFunctionSelector (AbiCodec := ReferenceLaws.referenceCodec)
                  Simple.Rev2.executeBatchFunction)
  by (vm_compute; discriminate).
destruct (proj2 (decodeCalls_rejects_other_selectors
     (codec := ReferenceLaws.referenceCodec) [xde; xad; xbe; xef])
  H1 H2) as (e & He & _).
exists e. exact He.
Defined.

Lemma getNonce_key_and_lookup_witness :
  Account.getNonce DemoAccount.account2 (Some {| key := Some 5 |})
    (Demo.stateOn Demo.emptyChain)
  = inWorld (nonceForKey (col := Simple.collaborators (col := Demo.collaborators))
               DemoAccount.implementation2 Demo.accountAddress 5)
      (Demo.stateOn Demo.emptyChain) /\
  exists s1,
    Account.getNonce DemoAccount.account2 None (Demo.stateOn Demo.emptyChain)
    = inWorld (nonceForKey (col := Simple.collaborators (col := Demo.collaborators))
                 DemoAccount.implementation2 Demo.accountAddress 1730000000000)
        s1.
Proof.
pose proof (@getNonce_key_and_lookup _ _
  (Simple.collaborators (col := Demo.collaborators))
  DemoAccount.implementation2 Demo.accountAddress) as [Hkey Hnone].
split.
- exact (Hkey (Some {| key := Some 5 |}) 5 (Demo.stateOn Demo.emptyChain) eq_refl).
- eexists.
  exact (Hnone None {| chain_id := 11171168 |} 1730000000000
           (Demo.stateOn Demo.emptyChain) _ eq_refl eq_refl eq_refl).
Defined.

(* ------------------------------------------------------------------------- *)
(** * Further properties of the factory                                       *)
(* ------------------------------------------------------------------------- *)

Lemma keepsFlag_inWorld {W A} (m : M W A) : keepsFlag (inWorld m).
Proof. intros s r s' H. exact (inWorld_deployed _ _ H). Qed.

Lemma keepsFlag_ret {W A} (a : A) : keepsFlag (@ret (AccountState W) A a).
Proof. intros s r s'. unfold ret. now intros [= <- <-]. Qed.

Lemma keepsFlag_liftResult {W A} (r : Result A) :
  keepsFlag (@liftResult (AccountState W) A r).
Proof. intros s r' s'. unfold liftResult. now intros [= <- <-]. Qed.

Lemma keepsFlag_bind {W A B} (m : M (AccountState W) A)
    (k : A -> M (AccountState W) B) :
  keepsFlag m -> (forall a, keepsFlag (k a)) -> keepsFlag (bind m k).
Proof.
intros Hm Hk s r s'. unfold bind.
destruct (m s) as [[a|e] s1] eqn:M1.
- intros H. rewrite (Hk a _ _ _ H). exact (Hm _ _ _ M1).
- intros [= <- <-]. exact (Hm _ _ _ M1).
Qed.

Section FactoryFurther.
Context {W E : Type} {col : Collaborators W}.
Variable implementation : NativeSmartAccountImplementation W E.
Variable address : Address.

Lemma getNonce_keepsFlag parameters :
  keepsFlag (getNonce implementation address parameters).
Proof.
unfold getNonce. apply keepsFlag_bind.
- destruct (match parameters with Some p => key p | None => None end).
  + apply keepsFlag_ret.
  + apply keepsFlag_bind; [apply keepsFlag_liftResult|]. intros chainId.
    apply keepsFlag_bind; [apply keepsFlag_inWorld|]. intros n.
    apply keepsFlag_liftResult.
- intros k. destruct (Implementation.getNonce implementation);
    apply keepsFlag_inWorld.
Qed.

(** With the flag set, [getDeployerArgs()] returns the undefined pair and
  touches nothing. *)
Lemma getDeployerArgs_flag_set s :
  deployed s = true ->
  getDeployerArgs implementation (Some (isDeployed implementation address)) s
  = (Ok noDeployerArgs, s).
Proof.
intros D. unfold getDeployerArgs.
now rewrite (bind_ok _ _ _ (isDeployed_cached implementation address s D)).
Qed.

(** With the flag set, a signing method is the implementation's. *)
Lemma signWith_flag_set (implementation_sign : M W Hex) s :
  deployed s = true ->
  signWith (getDeployerArgs implementation (Some (isDeployed implementation address)))
           implementation_sign s
  = inWorld implementation_sign s.
Proof.
intros D. unfold signWith, bind, PromiseAll2.
rewrite (getDeployerArgs_flag_set s D).
destruct (inWorld implementation_sign s) as [[signature|e] s2]; reflexivity.
Qed.

(** What a probe makes of the flag when it was unset. *)
Lemma isDeployed_probes s :
  deployed s = false ->
  isDeployed implementation address s
  = match getCode (Implementation.client implementation) address (world s) with
    | (Ok (Some _), w') => (Ok true, {| deployed := true; world := w' |})
    | (Ok None, w') => (Ok false, {| deployed := false; world := w' |})
    | (Err e, w') => (Err e, {| deployed := false; world := w' |})
    end.
Proof.
intros D. rewrite isDeployed_in_two_steps. unfold isDeployed_begin. rewrite D.
destruct (getCode _ _ _) as [[[code|]|e] w']; reflexivity.
Qed.

Lemma stateAfter_keeps_set_flag op s :
  deployed s = true ->
  deployed (stateAfter (account implementation address) op s) = true.
Proof.
intros D. destruct op; cbn [stateAfter account Account.isDeployed
  Account.getDeployerArgs Account.getNonce Account.sign Account.signMessage
  Account.signTypedData].
- now rewrite isDeployed_cached.
- now rewrite getDeployerArgs_flag_set.
- destruct (getNonce implementation address parameters s) as [r s'] eqn:G.
  simpl. now rewrite (getNonce_keepsFlag _ _ G).
- destruct (Implementation.sign implementation) as [implementation_sign|];
    [|exact D].
  rewrite signWith_flag_set by exact D.
  destruct (inWorld (implementation_sign parameters) s) as [r s'] eqn:G.
  simpl. now rewrite (inWorld_deployed _ _ G).
- rewrite signWith_flag_set by exact D.
  destruct (inWorld _ s) as [r s'] eqn:G.
  simpl. now rewrite (inWorld_deployed _ _ G).
- rewrite signWith_flag_set by exact D.
  destruct (inWorld _ s) as [r s'] eqn:G.
  simpl. now rewrite (inWorld_deployed _ _ G).
Qed.
End FactoryFurther.

(** X1. [toNativeSmartAccount] calls [implementation.getAddress()] once: when
  that rejects, the factory rejects with the same error and no account is
  made; when it resolves, the account carries that address and the type tag
  "native-smart", and has [sign] exactly when the implementation has. *)
Theorem toNativeSmartAccount_resolves_address_once {W E : Type}
    {col : Collaborators W}
    (implementation : NativeSmartAccountImplementation W E) (s : W) :
  match Implementation.getAddress implementation s with
  | (Ok resolved, s1) =>
      exists acct,
        toNativeSmartAccount implementation s = (Ok acct, s1) /\
        Account.address acct = resolved /\
        Account.type acct = "native-smart" /\
        (Account.sign acct = None <-> Implementation.sign implementation = None)
  | (Err e, s1) => toNativeSmartAccount implementation s = (Err e, s1)
  end.
Proof.
unfold toNativeSmartAccount, bind.
destruct (Implementation.getAddress implementation s) as [[resolved|e] s1];
  [|reflexivity].
eexists. split; [reflexivity|]. repeat split; simpl;
  destruct (Implementation.sign implementation); congruence.
Qed.

(** X2. [isDeployed()] does not cache a negative answer: after it has
  returned false the flag is still unset, and the next invocation probes
  again, returning true (and setting the flag) as soon as the address holds
  code. *)
Theorem isDeployed_reprobes_after_false {W E : Type} {col : Collaborators W}
    (implementation : NativeSmartAccountImplementation W E) (address : Address)
    (s s1 : AccountState W) (f : W -> W) (code : Hex) (w' : W) :
  isDeployed implementation address s = (Ok false, s1) ->
  getCode (Implementation.client implementation) address (f (world s1))
  = (Ok (Some code), w') ->
  deployed s1 = false /\
  isDeployed implementation address (changeWorld f s1)
  = (Ok true, {| deployed := true; world := w' |}).
Proof.
intros H1 H2.
pose proof (isDeployed_returns_flag _ _ _ H1) as D.
split; [exact D|].
rewrite isDeployed_probes by exact D. simpl. now rewrite H2.
Qed.


(** X4. On an account whose flag is set, [signMessage], [signTypedData] and
  [sign] are the implementation's operations: the same result, raw signature
  or error, and the same effect on the world. *)
Theorem deployed_account_signs_raw {W E : Type} {col : Collaborators W}
    (implementation : NativeSmartAccountImplementation W E) (address : Address)
    (s : AccountState W) :
  deployed s = true ->
  (forall parameters,
      Account.signMessage (account implementation address) parameters s
      = inWorld (Implementation.signMessage implementation parameters) s) /\
  (forall parameters,
      Account.signTypedData (account implementation address) parameters s
      = inWorld (Implementation.signTypedData implementation parameters) s) /\
  (forall implementation_sign,
      Implementation.sign implementation = Some implementation_sign ->
      exists account_sign,
        Account.sign (account implementation address) = Some account_sign /\
        forall parameters,
          account_sign parameters s = inWorld (implementation_sign parameters) s).
Proof.
intros D. repeat split.
- intros parameters. simpl. now apply signWith_flag_set.
- intros parameters. simpl. now apply signWith_flag_set.
- intros implementation_sign Hs. simpl. rewrite Hs.
  eexists. split; [reflexivity|]. intros parameters. now apply signWith_flag_set.
Qed.


(** X6. [getNonce] without a key: on a client without a chain it throws a
  TypeError before the nonce key manager is called, and when [consume]
  rejects it rejects with that error; in both cases no nonce is looked up. *)
Theorem getNonce_fails_before_lookup {W E : Type} {col : Collaborators W}
    (implementation : NativeSmartAccountImplementation W E) (address : Address)
    (parameters : option GetNonceParameters) (s : AccountState W) :
  suppliedKey parameters = None ->
  (chain (Implementation.client implementation) = None ->
   exists message,
     Account.getNonce (account implementation address) parameters s
     = (Err (TypeError message), s)) /\
  (forall c e s1,
      chain (Implementation.client implementation) = Some c ->
      inWorld (consume (nonceKeyManager implementation)
                 {| consume_address := address;
                    consume_chainId := chain_id c;
                    consume_client := Implementation.client implementation |}) s
      = (Err e, s1) ->
      Account.getNonce (account implementation address) parameters s
      = (Err e, s1)).
Proof.
intros Hk. unfold suppliedKey in Hk. split.
- intros Hc. simpl. unfold getNonce. rewrite Hk.
  unfold chainIdOf. rewrite Hc. unfold bind, liftResult. eauto.
- intros c e s1 Hc Hn. simpl. unfold getNonce. rewrite Hk.
  unfold chainIdOf. rewrite Hc. unfold bind at 1. unfold bind at 1.
  unfold liftResult at 1. unfold bind at 1. now rewrite Hn.
Qed.

(** X7. Run to completion one after the other, no operation of an account
  unsets the flag: from a state where it is set, it is set after any
  sequence of [isDeployed], [getDeployerArgs], [getNonce], [sign],
  [signMessage] and [signTypedData], whatever happens to the world in
  between. *)
Theorem deployed_flag_survives_operations {W E : Type} {col : Collaborators W}
    (implementation : NativeSmartAccountImplementation W E) (address : Address)
    (ops : list ((W -> W) * Operation)) (s : AccountState W) :
  deployed s = true ->
  deployed (stateAfterAll (account implementation address) ops s) = true.
Proof.
revert s. induction ops as [|[f op] ops IH]; intros s D; [exact D|].
cbn [stateAfterAll]. apply IH. now apply stateAfter_keeps_set_flag.
Qed.

(* ------------------------------------------------------------------------- *)
(** * Further properties of the Simple implementation                         *)
(* ------------------------------------------------------------------------- *)

(** X8. An account over the Simple implementation whose address holds no
  code: [signMessage] resolves to the ERC-6492 serialization of the fixed
  deployer address, the calldata of [createAccount(owner, nonce)] and the
  raw signature of the implementation; the flag stays unset. *)
Theorem undeployed_simple_account_wraps {X : Type} {codec : AbiCodec}
    {col : Collaborators X} (abi deployerAbi : Abi) encodeCalls decodeCalls
    (parameters : Simple.ToSimpleNativeSmartAccountParameters X)
    (address : Address) (t : AccountState (Simple.SimpleState X))
    (x1 : X) (calldata raw : Hex) (w2 : Simple.SimpleState X) message :
  let implementation :=
    Simple.implementation abi deployerAbi encodeCalls decodeCalls parameters in
  let acct := account (col := Simple.collaborators) implementation address in
  deployed t = false ->
  getCode (Simple.p_client parameters) address (Simple.outside (world t))
  = (Ok None, x1) ->
  encodeFunctionData deployerAbi "createAccount"
    [VAddress (Simple.owner_address (Simple.p_owner parameters));
     VInt (orElse (Simple.p_nonce parameters) 0)] = Ok calldata ->
  Implementation.signMessage implementation message
    {| Simple.address_var := Simple.address_var (world t); Simple.outside := x1 |}
  = (Ok raw, w2) ->
  Account.signMessage acct message t
  = (Ok (serializeErc6492Signature 0x0ba5ed0c6aa8c49038f819e587e2633c4a9f428a
           calldata raw),
     {| deployed := false; world := w2 |}).
Proof.
intros implementation acct D Hcode Henc Hsig.
assert (Hargs : Account.getDeployerArgs acct t
                = (Ok {| deployer := Some 0x0ba5ed0c6aa8c49038f819e587e2633c4a9f428a;
                         deployerData := Some calldata |},
                   {| deployed := false;
                      world := {| Simple.address_var := Simple.address_var (world t);
                                  Simple.outside := x1 |} |})).
{ subst acct. cbn [account Account.getDeployerArgs]. unfold getDeployerArgs.
  assert (Hprobe : isDeployed (col := Simple.collaborators) implementation address t
                   = (Ok false,
                      {| deployed := false;
                         world := {| Simple.address_var := Simple.address_var (world t);
                                     Simple.outside := x1 |} |})).
  { rewrite isDeployed_probes by exact D.
    cbn [getCode Simple.collaborators]. unfold Simple.inOutside, zoom.
    subst implementation. cbn [Implementation.client Simple.implementation].
    unfold Simple.client. now rewrite Hcode. }
  rewrite (bind_ok _ _ _ Hprobe).
  unfold inWorld, zoom. cbn [world deployed].
  subst implementation. cbn [Implementation.getDeployerArgs Simple.implementation].
  rewrite simple_getDeployerArgs_run.
  unfold Simple.ownerAddr, Simple.nonce, Simple.owner. now rewrite Henc. }
subst acct. cbn [account Account.signMessage].
cbn [account Account.getDeployerArgs] in Hargs.
assert (Hraw : inWorld (Implementation.signMessage implementation message)
                 {| deployed := false;
                    world := {| Simple.address_var := Simple.address_var (world t);
                                Simple.outside := x1 |} |}
               = (Ok raw, {| deployed := false; world := w2 |})).
{ unfold inWorld, zoom. cbn [world deployed]. now rewrite Hsig. }
rewrite (signWith_run (col := Simple.collaborators) _ _ _ Hargs Hraw).
reflexivity.
Qed.

Section SimpleFurther.
Context {X : Type} {codec : AbiCodec} {col : Collaborators X}.
Variable deployerAbi : Abi.
Variable parameters : Simple.ToSimpleNativeSmartAccountParameters X.
Import Simple.

(** What [getAddress()] does while the variable is unset. *)
Lemma getAddress_reads s :
  address_var s = None ->
  getAddress deployerAbi parameters s
  = match readContractAddress (p_client parameters)
            0x0ba5ed0c6aa8c49038f819e587e2633c4a9f428a
            (owner_address (p_owner parameters)) (orElse (p_nonce parameters) 0)
            (outside s) with
    | (Ok a, x') => (Ok a, {| address_var := Some a; outside := x' |})
    | (Err e, x') => (Err e, {| address_var := None; outside := x' |})
    end.
Proof.
intros V. unfold getAddress, bind, get. rewrite V.
unfold inOutside, zoom. cbn [deployer_address deployerContract].
unfold client, ownerAddr, owner, nonce.
destruct (readContractAddress _ _ _ _ _) as [[a|e] x']; cbn; rewrite ?V; reflexivity.
Qed.

Lemma signTransaction_run transaction s c address s1 serialized owner_sign :
  match tx_chainId transaction with
  | Some given => given = c
  | None => chainIdOf (p_client parameters) = Ok c
  end ->
  getAddress deployerAbi parameters s = (Ok address, s1) ->
  serializeTransaction (withSenderAndChain transaction address c) = Ok serialized ->
  Simple.owner_sign (p_owner parameters) = owner_sign ->
  signTransaction deployerAbi parameters transaction s
  = match owner_sign with
    | Some owner_sign => inOutside (owner_sign (keccak256 serialized)) s1
    | None => (Err (BaseError "`owner` does not support raw sign."), s1)
    end.
Proof.
intros Hc Ha Hs Ho. unfold signTransaction.
assert (Hchain : (match tx_chainId transaction with
                  | Some c0 => ret c0
                  | None => liftResult (chainIdOf (client parameters))
                  end) s = (Ok c, s)).
{ destruct (tx_chainId transaction) as [given|].
  - now subst given.
  - unfold client, liftResult. now rewrite Hc. }
rewrite (bind_ok _ _ _ Hchain), (bind_ok _ _ _ Ha).
fold (withSenderAndChain transaction address c). rewrite Hs.
unfold bind, liftResult, Utilities.sign, owner. rewrite Ho.
destruct owner_sign as [f|]; [reflexivity|].
unfold inOutside, zoom, throw. destruct s1; reflexivity.
Qed.
End SimpleFurther.

(** X9. With an address given in the parameters, [toSimpleNativeSmartAccount]
  reads nothing from the deployer contract: the account is made with that
  address and the world is as it was. *)
Theorem explicit_address_needs_no_read {X : Type} {codec : AbiCodec}
    {col : Collaborators X} (abi deployerAbi : Abi) encodeCalls decodeCalls
    (parameters : Simple.ToSimpleNativeSmartAccountParameters X)
    (given : Address) (x : X) :
  Simple.p_address parameters = Some given ->
  exists acct,
    Simple.toSimpleNativeSmartAccount abi deployerAbi encodeCalls decodeCalls
      parameters (Simple.newSimpleState parameters x)
    = (Ok acct, Simple.newSimpleState parameters x) /\
    Account.address acct = given.
Proof.
intros Hp. unfold Simple.toSimpleNativeSmartAccount, toNativeSmartAccount.
cbn [Implementation.getAddress Simple.implementation].
assert (Hg : Simple.getAddress deployerAbi parameters
               (Simple.newSimpleState parameters x)
             = (Ok given, Simple.newSimpleState parameters x)).
{ apply getAddress_cached. unfold Simple.newSimpleState. exact Hp. }
rewrite (bind_ok _ _ _ Hg). unfold ret. eexists. split; reflexivity.
Qed.

(** X10. Without a given address, [getAddress()] of the Simple
  implementation reads [getAddress(owner, nonce)] of the deployer contract
  once: what the read resolves to is kept, and later calls return it without
  reading, whatever the world has become; a read that rejects keeps nothing,
  so that the next call reads again. *)
Theorem getAddress_reads_once {X : Type} {col : Collaborators X}
    (deployerAbi : Abi)
    (parameters : Simple.ToSimpleNativeSmartAccountParameters X)
    (s : Simple.SimpleState X) :
  let read :=
    readContractAddress (Simple.p_client parameters)
      0x0ba5ed0c6aa8c49038f819e587e2633c4a9f428a
      (Simple.owner_address (Simple.p_owner parameters))
      (orElse (Simple.p_nonce parameters) 0) in
  Simple.address_var s = None ->
  (forall a x',
      read (Simple.outside s) = (Ok a, x') ->
      Simple.getAddress deployerAbi parameters s
      = (Ok a, {| Simple.address_var := Some a; Simple.outside := x' |}) /\
      forall x'',
        Simple.getAddress deployerAbi parameters
          {| Simple.address_var := Some a; Simple.outside := x'' |}
        = (Ok a, {| Simple.address_var := Some a; Simple.outside := x'' |})) /\
  (forall e x',
      read (Simple.outside s) = (Err e, x') ->
      Simple.getAddress deployerAbi parameters s
      = (Err e, {| Simple.address_var := None; Simple.outside := x' |})).
Proof.
intros read V. split.
- intros a x' Hr. split.
  + rewrite getAddress_reads by exact V. fold read. now rewrite Hr.
  + intros x''. now apply getAddress_cached.
- intros e x' Hr. rewrite getAddress_reads by exact V. fold read. now rewrite Hr.
Qed.

(** X11. [signTransaction] of the Simple implementation signs, with the
  owner's raw-hash signing, the keccak-256 of the serialization of the
  transaction in which [sender] is the account address (whatever sender the
  caller gave) and [chainId] is the transaction's own when it has one and the
  client's otherwise; no typed-data hash is involved. *)
Theorem signTransaction_binds_sender_and_chain {X : Type}
    {col : Collaborators X} (deployerAbi : Abi)
    (parameters : Simple.ToSimpleNativeSmartAccountParameters X)
    (transaction : TransactionSerializable) (s s1 : Simple.SimpleState X)
    (c : Z) (address : Address) (serialized : Hex) (owner_sign : Hash -> M X Hex) :
  match tx_chainId transaction with
  | Some given => given = c
  | None => chain (Simple.p_client parameters) = Some {| chain_id := c |}
  end ->
  Simple.getAddress deployerAbi parameters s = (Ok address, s1) ->
  serializeTransaction (withSenderAndChain transaction address c) = Ok serialized ->
  Simple.owner_sign (Simple.p_owner parameters) = Some owner_sign ->
  Simple.signTransaction deployerAbi parameters transaction s
  = Simple.inOutside (owner_sign (keccak256 serialized)) s1.
Proof.
intros Hc Ha Hs Ho.
apply signTransaction_run with (c := c) (address := address)
  (serialized := serialized) (owner_sign := Some owner_sign); auto.
destruct (tx_chainId transaction); [exact Hc|].
unfold chainIdOf. now rewrite Hc.
Qed.

(** X12. With an owner that has no [sign], the signing methods of the Simple
  implementation reject with the error "`owner` does not support raw sign."
  once the hash is computed: [sign], [signMessage] and [signTransaction]
  give no signature. *)
Theorem signing_requires_owner_sign {X : Type} {col : Collaborators X}
    (deployerAbi : Abi)
    (parameters : Simple.ToSimpleNativeSmartAccountParameters X)
    (s s1 : Simple.SimpleState X) (address : Address) (c : Chain) :
  Simple.owner_sign (Simple.p_owner parameters) = None ->
  Simple.getAddress deployerAbi parameters s = (Ok address, s1) ->
  chain (Simple.p_client parameters) = Some c ->
  let unsupported := Err (BaseError "`owner` does not support raw sign.") in
  (forall hash digest,
      hashTypedData (replaySafeTypedData address (chain_id c) hash) = Ok digest ->
      Simple.sign deployerAbi parameters hash s = (unsupported, s1)) /\
  (forall message digest,
      hashTypedData (replaySafeTypedData address (chain_id c) (hashMessage message))
      = Ok digest ->
      Simple.signMessage deployerAbi parameters message s = (unsupported, s1)) /\
  (forall transaction serialized,
      serializeTransaction
        (withSenderAndChain transaction address
           (orElse (tx_chainId transaction) (chain_id c))) = Ok serialized ->
      Simple.signTransaction deployerAbi parameters transaction s
      = (unsupported, s1)).
Proof.
intros Ho Ha Hc unsupported. split; [|split].
- intros hash digest Hd. unfold Simple.sign.
  exact (signReplaySafe_no_owner_sign deployerAbi parameters s _ Ha Hc Ho Hd).
- intros message digest Hd. unfold Simple.signMessage.
  exact (signReplaySafe_no_owner_sign deployerAbi parameters s _ Ha Hc Ho Hd).
- intros transaction serialized Hs.
  apply signTransaction_run
    with (c := orElse (tx_chainId transaction) (chain_id c)) (address := address)
         (serialized := serialized) (owner_sign := None); auto.
  destruct (tx_chainId transaction); [reflexivity|].
  unfold chainIdOf. now rewrite Hc.
Qed.


(** ** Calls: defaults, the empty list, arrays of different lengths *)

Lemma rev2_decode_ragged_from (i : nat) (dest : list Address)
    (values : list bigint) (funcs : list Hex) :
  mapResultFrom i
    (fun target index =>
       match Simple.at_index (Some (VArray (map VInt values))) index,
             Simple.at_index (Some (VArray (map VHex funcs))) index with
       | Ok value_, Ok data_ => Simple.callOf (Some target) value_ data_
       | Err e, _ => Err e
       | _, Err e => Err e
       end)
    (map VAddress dest)
  = Ok (zipCallsFrom i dest values funcs).
Proof.
revert i. induction dest as [|target dest IH]; intros i; [reflexivity|].
cbn [map mapResultFrom zipCallsFrom Simple.at_index].
rewrite !nth_error_map. rewrite IH.
destruct (nth_error values i), (nth_error funcs i); reflexivity.
Qed.

(** X14. Leaving [value] or [data] out of a call is the same as giving 0 or
  empty calldata: in both revisions [encodeCalls] gives the same result for
  the calls and for the calls with their defaults filled in. *)
Theorem encodeCalls_fills_defaults {codec : AbiCodec} (calls : list Call) :
  Simple.Rev1.encodeCalls (map defaulted calls) = Simple.Rev1.encodeCalls calls /\
  Simple.Rev2.encodeCalls (map defaulted calls) = Simple.Rev2.encodeCalls calls.
Proof.
split.
- destruct calls as [|c0 [|c1 calls]]; try reflexivity.
  unfold Simple.Rev1.encodeCalls. cbn [map]. rewrite map_map. reflexivity.
- destruct calls as [|c0 [|c1 calls]]; try reflexivity.
  unfold Simple.Rev2.encodeCalls. cbn [map]. rewrite !map_map. reflexivity.
Qed.

(** X15. The empty list of calls is not an error: in both revisions it is
  encoded as an [executeBatch] of no calls, which [decodeCalls] turns back
  into the empty list. *)
Theorem encodeCalls_of_no_calls {codec : AbiCodec} :
  (NoDup (map toFunctionSelector Simple.Rev1.abi) ->
   exists calldata,
     Simple.Rev1.encodeCalls [] = Ok calldata /\
     selectorOf calldata = toFunctionSelector Simple.Rev1.executeBatchFunction /\
     Simple.Rev1.decodeCalls calldata = Ok []) /\
  (NoDup (map toFunctionSelector Simple.Rev2.abi) ->
   exists calldata,
     Simple.Rev2.encodeCalls [] = Ok calldata /\
     selectorOf calldata = toFunctionSelector Simple.Rev2.executeBatchFunction /\
     Simple.Rev2.decodeCalls calldata = Ok []).
Proof.
assert (Hlen : Z.of_nat (@List.length Call []) < 2 ^ 256) by reflexivity.
assert (Hn1 : @List.length Call [] <> 1%nat) by discriminate.
split; intros Hsel.
- exact (rev1_executeBatch_roundtrip Hsel (Forall_nil _) Hlen Hn1).
- exact (rev2_executeBatch_roundtrip Hsel (Forall_nil _) Hlen Hn1).
Qed.

(** X16. [decodeCalls] of the second revision reads the three arrays of an
  [executeBatch] by the index of the first: the result has one call per
  target, in order, and a value or calldata missing at an index is an omitted
  field, not an error.  With an empty array of values (which the contract's
  [executeBatch] accepts) every decoded call has no value. *)
Theorem rev2_decodeCalls_reads_by_index {codec : AbiCodec} (calldata : Hex)
    (dest : list Address) (values : list bigint) (funcs : list Hex) :
  decodeFunctionData Simple.Rev2.abi calldata
  = Ok {| functionName := "executeBatch";
          args := [VArray (map VAddress dest); VArray (map VInt values);
                   VArray (map VHex funcs)] |} ->
  Simple.Rev2.decodeCalls calldata = Ok (zipCallsFrom 0 dest values funcs) /\
  List.length (zipCallsFrom 0 dest values funcs) = List.length dest /\
  map to (zipCallsFrom 0 dest values funcs) = dest /\
  (values = [] ->
   Forall (fun call => value call = None) (zipCallsFrom 0 dest values funcs)).
Proof.
intros Hd. split; [|split; [|split]].
- unfold Simple.Rev2.decodeCalls. rewrite Hd.
  cbn [functionName args String.eqb Ascii.eqb Bool.eqb nth_error].
  apply rev2_decode_ragged_from.
- clear Hd. generalize 0%nat.
  induction dest as [|t dest IH]; intros i; [reflexivity|].
  cbn [zipCallsFrom List.length]. now rewrite IH.
- clear Hd. generalize 0%nat.
  induction dest as [|t dest IH]; intros i; [reflexivity|].
  cbn [zipCallsFrom map to]. now rewrite IH.
- clear Hd. intros ->. generalize 0%nat.
  induction dest as [|t dest IH]; intros i; [constructor|].
  cbn [zipCallsFrom]. constructor; [|apply IH].
  cbn [value]. now destruct i.
Qed.

(** ** [Number(bigint)] on what it has produced, and beyond the doubles *)

(** On the grid of 53-bit multiples of a power of two nothing is rounded. *)
Lemma roundToDouble_grid_below m e :
  0 <= e -> 2 ^ 52 <= m < 2 ^ 53 -> roundToDouble (m * 2 ^ e) = m * 2 ^ e.
Proof.
intros He [Hl Hu].
assert (Hp : 0 < 2 ^ e) by (apply Z.pow_pos_nonneg; lia).
assert (Hlog : Z.log2 (m * 2 ^ e) = 52 + e).
{ apply Z.log2_unique; [lia|].
  rewrite Z.pow_succ_r, Z.pow_add_r by lia.
  assert (H53 : 2 ^ 53 = 2 * 2 ^ 52) by reflexivity.
  split; nia. }
unfold roundToDouble. rewrite Hlog.
replace (52 + e - 52) with e by lia.
destruct (e <=? 0) eqn:E; [reflexivity|]. apply Z.leb_gt in E.
rewrite Z.shiftr_div_pow2, Z.land_ones by lia.
rewrite Z.div_mul, Z.mod_mul by lia.
rewrite !Z.shiftl_mul_pow2 by lia. rewrite Z.mul_1_l.
assert (Hh : 0 < 2 ^ (e - 1)) by (apply Z.pow_pos_nonneg; lia).
destruct (2 ^ (e - 1) <? 0) eqn:C1; [apply Z.ltb_lt in C1; lia|].
destruct (0 =? 2 ^ (e - 1)) eqn:C2; [apply Z.eqb_eq in C2; lia|].
reflexivity.
Qed.

Lemma roundToDouble_grid m e :
  0 <= e -> 2 ^ 52 <= m <= 2 ^ 53 -> roundToDouble (m * 2 ^ e) = m * 2 ^ e.
Proof.
intros He [Hl Hu].
destruct (Z.eq_dec m (2 ^ 53)) as [->|Hne].
- replace (2 ^ 53 * 2 ^ e) with (2 ^ 52 * 2 ^ (e + 1)).
  + apply roundToDouble_grid_below; [lia|]. split; [lia|reflexivity].
  + rewrite Z.pow_add_r by lia. change (2 ^ 53) with (2 ^ 52 * 2 ^ 1). ring.
- apply roundToDouble_grid_below; [exact He | lia].
Qed.

(** Above 53 bits the result is a 53-bit multiple of [2^e]. *)
Lemma roundToDouble_on_grid n :
  53 <= Z.log2 n ->
  exists m, roundToDouble n = m * 2 ^ (Z.log2 n - 52) /\ 2 ^ 52 <= m <= 2 ^ 53.
Proof.
intros HL.
destruct (roundToDouble_nearest n ltac:(lia)) as (m & Hm & Hnear).
exists m. split; [exact Hm|].
assert (Hn : 0 < n) by (destruct (Z_lt_le_dec 0 n); [assumption|];
                        rewrite Z.log2_nonpos in HL; lia).
destruct (Z.log2_spec n Hn) as [Hlo Hhi].
set (e := Z.log2 n - 52) in *.
assert (He : 0 < e) by (unfold e; lia).
assert (Hp : 0 < 2 ^ e) by (apply Z.pow_pos_nonneg; lia).
assert (H1 : 2 ^ Z.log2 n = 2 ^ 52 * 2 ^ e).
{ rewrite <- Z.pow_add_r by lia. f_equal. unfold e. lia. }
assert (H2 : 2 ^ Z.succ (Z.log2 n) = 2 ^ 53 * 2 ^ e).
{ rewrite <- Z.pow_add_r by lia. f_equal. unfold e. lia. }
rewrite H1 in Hlo. rewrite H2 in Hhi. rewrite Hm in Hnear.
assert (Hhalf : 2 ^ e = 2 * 2 ^ (e - 1)).
{ rewrite <- Z.pow_succ_r by lia. f_equal. lia. }
assert (Hh : 0 < 2 ^ (e - 1)) by (apply Z.pow_pos_nonneg; lia).
split; nia.
Qed.

Lemma roundToDouble_idempotent n :
  0 <= n -> roundToDouble (roundToDouble n) = roundToDouble n.
Proof.
intros Hn. destruct (Z_le_gt_dec n (2 ^ 53)) as [Hs|Hb].
- assert (He : roundToDouble n = n) by (apply roundToDouble_exact; lia).
  now rewrite !He.
- assert (HL : 53 <= Z.log2 n) by (apply Z.log2_le_pow2; lia).
  destruct (roundToDouble_on_grid n HL) as (m & Hm & Hrange).
  rewrite Hm. apply roundToDouble_grid; [lia | exact Hrange].
Qed.

Lemma roundToDouble_nonneg n : 0 <= n -> 0 <= roundToDouble n.
Proof.
intros Hn. destruct (Z_le_gt_dec n (2 ^ 53)) as [Hs|Hb].
- now rewrite roundToDouble_exact by lia.
- assert (HL : 53 <= Z.log2 n) by (apply Z.log2_le_pow2; lia).
  destruct (roundToDouble_on_grid n HL) as (m & Hm & Hrange).
  rewrite Hm. apply Z.mul_nonneg_nonneg; [lia|]. apply Z.pow_nonneg. lia.
Qed.

(** X17. The estimate is stable: for an unsigned 256-bit
  [verificationGasLimit], giving the [verificationGasLimit] that
  [estimateGas] resolved to back to [estimateGas] resolves to the same
  object. *)
Theorem estimateGas_of_its_result (transaction : TransactionRequest)
    (estimate : EstimateGasReturn) :
  is_uint256 (orElse (tx_verificationGasLimit transaction) 0) ->
  Simple.estimateGas transaction = Ok (Some estimate) ->
  Simple.estimateGas
    (withVerificationGasLimit (est_verificationGasLimit estimate))
  = Ok (Some estimate).
Proof.
intros Hv. unfold Simple.estimateGas.
set (v := orElse (tx_verificationGasLimit transaction) 0) in *.
pose proof (roundToDouble_finite Hv) as Hfin. destruct Hv as [H0 H1].
pose proof (roundToDouble_nonneg H0) as Hr0.
assert (Hnum : forall n, 0 <= n -> roundToDouble n < 2 ^ 1024 ->
                 Number_of_bigint n = NumInt (roundToDouble n)).
{ intros n Hn Hf. unfold Number_of_bigint. rewrite Z.abs_eq by exact Hn.
  destruct (2 ^ 1024 <=? roundToDouble n) eqn:C; [apply Z.leb_le in C; lia|].
  destruct (Z.eq_dec n 0) as [->|Hnz]; [reflexivity|].
  rewrite Z.sgn_pos by lia. now rewrite Z.mul_1_l. }
rewrite (Hnum v H0 Hfin). cbn [BigInt_of_Number].
intros [= <-]. cbn [est_verificationGasLimit withVerificationGasLimit
                    tx_verificationGasLimit orElse].
rewrite Hnum.
- cbn [BigInt_of_Number]. now rewrite roundToDouble_idempotent.
- exact Hr0.
- now rewrite roundToDouble_idempotent.
Qed.

(** X18. Beyond the doubles there is no estimate: for a
  [verificationGasLimit] of [2^1024] or more, [Number] gives Infinity and
  [BigInt] of it throws a RangeError. *)
Theorem estimateGas_beyond_doubles (transaction : TransactionRequest) (v : bigint) :
  tx_verificationGasLimit transaction = Some v ->
  2 ^ 1024 <= v ->
  exists message, Simple.estimateGas transaction = Err (RangeError message).
Proof.
intros Hv Hbig. unfold Simple.estimateGas. rewrite Hv. cbn [orElse].
assert (H0 : 0 <= v).
{ assert (0 < 2 ^ 1024) by reflexivity. lia. }
assert (HL : 53 <= Z.log2 v).
{ apply Z.log2_le_pow2; [|]; assert (2 ^ 53 < 2 ^ 1024) by reflexivity; lia. }
assert (HL' : 1024 <= Z.log2 v).
{ apply Z.log2_le_pow2; [|exact Hbig]. assert (0 < 2 ^ 1024) by reflexivity. lia. }
destruct (roundToDouble_on_grid v HL) as (m & Hm & Hrange).
assert (Hge : 2 ^ 1024 <= roundToDouble v).
{ rewrite Hm.
  assert (Hp : 2 ^ 972 <= 2 ^ (Z.log2 v - 52)) by (apply Z.pow_le_mono_r; lia).
  change (2 ^ 1024) with (2 ^ 52 * 2 ^ 972).
  assert (0 < 2 ^ 972) by reflexivity. nia. }
unfold Number_of_bigint. rewrite Z.abs_eq by exact H0.
apply Z.leb_le in Hge. rewrite Hge. cbn [BigInt_of_Number]. eauto.
Qed.

(* ------------------------------------------------------------------------- *)
(** * Properties of the account contract                                      *)
(* ------------------------------------------------------------------------- *)

(** Bits that do not meet add up. *)
Lemma lor_shiftl_add a b k :
  0 <= k -> 0 <= a < 2 ^ k -> Z.lor a (Z.shiftl b k) = a + b * 2 ^ k.
Proof.
intros Hk [Ha0 Ha1].
assert (Hland : Z.land a (Z.shiftl b k) = 0).
{ apply Z.bits_inj'. intros n Hn. rewrite Z.land_spec, Z.bits_0.
  destruct (Z_lt_le_dec n k) as [Hlt|Hge].
  - rewrite Z.shiftl_spec_low by exact Hlt. apply andb_false_r.
  - destruct (Z.eq_dec a 0) as [->|Hnz]; [now rewrite Z.bits_0|].
    rewrite (Z.bits_above_log2 a n); [reflexivity | lia |].
    assert (Z.log2 a < k) by (apply Z.log2_lt_pow2; lia). lia. }
pose proof (Z.add_lor_land a (Z.shiftl b k)) as H.
rewrite Hland, Z.add_0_r in H. rewrite H.
now rewrite Z.shiftl_mul_pow2 by exact Hk.
Qed.

Section ContractProperties.
Import SimpleAccount_7560.

Lemma shl256_small x k n :
  0 <= k -> 0 <= x < 2 ^ n -> 0 <= n -> n + k <= 256 ->
  shl256 x k = x * 2 ^ k.
Proof.
intros Hk [H0 H1] Hn Hnk. unfold shl256.
rewrite Z.shiftl_mul_pow2 by exact Hk.
apply Z.mod_small. split.
- apply Z.mul_nonneg_nonneg; [exact H0|]. apply Z.pow_nonneg. lia.
- assert (Hp : 0 < 2 ^ k) by (apply Z.pow_pos_nonneg; lia).
  assert (2 ^ n * 2 ^ k <= 2 ^ 256).
  { rewrite <- Z.pow_add_r by lia. apply Z.pow_le_mono_r; lia. }
  nia.
Qed.

Lemma packValidationData_sum magicValue validUntil validAfter :
  0 <= magicValue < 2 ^ 32 ->
  0 <= validUntil < 2 ^ 48 ->
  0 <= validAfter < 2 ^ 48 ->
  _packValidationData magicValue validUntil validAfter
  = magicValue + validUntil * 2 ^ 160 + validAfter * 2 ^ 208.
Proof.
intros Hm Hu Ha. unfold _packValidationData.
rewrite (shl256_small (k := 160) (n := 48)) by (lia || exact Hu).
rewrite (shl256_small (k := 160 + 48) (n := 48)) by (lia || exact Ha).
change (160 + 48) with 208.
assert (E1 : Z.lor magicValue (validUntil * 2 ^ 160)
             = magicValue + validUntil * 2 ^ 160).
{ rewrite <- (lor_shiftl_add (a := magicValue) validUntil (k := 160)).
  - now rewrite Z.shiftl_mul_pow2 by lia.
  - lia.
  - assert (2 ^ 32 < 2 ^ 160) by reflexivity. lia. }
rewrite E1.
rewrite <- (lor_shiftl_add (a := magicValue + validUntil * 2 ^ 160) validAfter
              (k := 208)).
- now rewrite Z.shiftl_mul_pow2 by lia.
- lia.
- assert (2 ^ 208 = 2 ^ 160 * 2 ^ 48) by reflexivity.
  assert (0 < 2 ^ 160) by reflexivity.
  assert (2 ^ 32 < 2 ^ 160) by reflexivity. nia.
Qed.

Section Calls.
Context {C : Type}.
Variable call : Address -> Address -> Z -> Hex -> State C -> (bool * Hex) * State C.
Variable msg : Msg.

Lemma evmBind_returns {A B} (m : EVM (State C) A) (k : A -> EVM (State C) B)
    s a s' :
  m s = Returns a s' -> evmBind m k s = k a s'.
Proof. intros H. unfold evmBind. now rewrite H. Qed.

Lemma evmBind_reverts {A B} (m : EVM (State C) A) (k : A -> EVM (State C) B)
    s data :
  m s = Reverts data -> evmBind m k s = Reverts data.
Proof. intros H. unfold evmBind. now rewrite H. Qed.

Lemma index_middle {A} (pre : list A) (x : A) (post : list A) (i : nat)
    (s : State C) :
  List.length pre = i -> index (pre ++ x :: post) i s = Returns x s.
Proof.
intros <-. unfold index. rewrite nth_error_app2 by lia. now rewrite Nat.sub_diag.
Qed.

(** The loop with values, from any index on. *)
Lemma forFrom_with_values (d : list Address) :
  forall (pd : list Address) (pv : list Z) (pf : list Hex) (v : list Z)
         (f : list Hex),
    List.length pv = List.length pd -> List.length pf = List.length pd ->
    List.length v = List.length d -> List.length f = List.length d ->
    forall s,
      forFrom (List.length d) (List.length pd)
        (fun i =>
           evmBind (index (pd ++ d) i) (fun dest_i =>
           evmBind (index (pv ++ v) i) (fun value_i =>
           evmBind (index (pf ++ f) i) (fun func_i =>
           _call call msg dest_i value_i func_i)))) s
      = callsInOrder call msg (triples d v f) s.
Proof.
induction d as [|x d IH]; intros pd pv pf v f Hpv Hpf Hv Hf s.
- reflexivity.
- destruct v as [|y v]; [discriminate|]. destruct f as [|z f]; [discriminate|].
  cbn [List.length forFrom triples callsInOrder].
  unfold evmBind at 1. unfold evmBind at 1.
  rewrite (index_middle pd x d s eq_refl). unfold evmBind at 1.
  rewrite (index_middle pv y v s Hpv). unfold evmBind at 1.
  rewrite (index_middle pf z f s Hpf).
  destruct (_call call msg x y z s) as [[] s'|data] eqn:Hc;
    [rewrite (evmBind_returns _ _ _ Hc) | now rewrite (evmBind_reverts _ _ _ Hc)].
  simpl in Hv, Hf.
  pose proof (IH (pd ++ [x]) (pv ++ [y]) (pf ++ [z]) v f) as IH'.
  rewrite !length_app in IH'. cbn [List.length] in IH'.
  rewrite !Nat.add_1_r in IH'. rewrite <- !app_assoc in IH'. cbn [app] in IH'.
  apply IH'; lia.
Qed.

(** The loop without values. *)
Lemma forFrom_without_values (d : list Address) :
  forall (pd : list Address) (pf : list Hex) (f : list Hex),
    List.length pf = List.length pd -> List.length f = List.length d ->
    forall s,
      forFrom (List.length d) (List.length pd)
        (fun i =>
           evmBind (index (pd ++ d) i) (fun dest_i =>
           evmBind (index (pf ++ f) i) (fun func_i =>
           _call call msg dest_i 0 func_i))) s
      = callsInOrder call msg (triples d (repeat 0 (List.length d)) f) s.
Proof.
induction d as [|x d IH]; intros pd pf f Hpf Hf s.
- reflexivity.
- destruct f as [|z f]; [discriminate|].
  cbn [List.length forFrom triples callsInOrder repeat].
  unfold evmBind at 1. unfold evmBind at 1.
  rewrite (index_middle pd x d s eq_refl). unfold evmBind at 1.
  rewrite (index_middle pf z f s Hpf).
  destruct (_call call msg x 0 z s) as [[] s'|data] eqn:Hc;
    [rewrite (evmBind_returns _ _ _ Hc) | now rewrite (evmBind_reverts _ _ _ Hc)].
  simpl in Hf.
  pose proof (IH (pd ++ [x]) (pf ++ [z]) f) as IH'.
  rewrite !length_app in IH'. cbn [List.length] in IH'.
  rewrite !Nat.add_1_r in IH'. rewrite <- !app_assoc in IH'. cbn [app] in IH'.
  apply IH'; lia.
Qed.

Lemma executeBatch_authorized dest value func s :
  (sender msg =? _entryPoint) || (sender msg =? owner s) = true ->
  List.length dest = List.length func ->
  List.length value = 0%nat \/ List.length value = List.length func ->
  executeBatch call msg dest value func s
  = callsInOrder call msg
      (triples dest
         (match value with [] => repeat 0 (List.length dest) | _ => value end)
         func) s.
Proof.
intros Hauth Hdf Hv. unfold executeBatch.
unfold evmBind at 1. unfold _requireFromEntryPointOrOwner, require.
rewrite Hauth. unfold evmBind at 1.
assert (Hlen : Nat.eqb (List.length dest) (List.length func)
               && (Nat.eqb (List.length value) 0
                   || Nat.eqb (List.length value) (List.length func)) = true).
{ apply andb_true_iff. split; [now apply Nat.eqb_eq|].
  apply orb_true_iff. destruct Hv as [Hv|Hv]; [left|right]; now apply Nat.eqb_eq. }
rewrite Hlen.
destruct value as [|y value].
- cbn [List.length Nat.eqb].
  exact (forFrom_without_values dest [] [] func eq_refl (eq_sym Hdf) s).
- cbn [List.length Nat.eqb].
  destruct Hv as [Hv|Hv]; [discriminate|].
  apply (forFrom_with_values dest [] [] [] (y :: value) func);
    try reflexivity; congruence.
Qed.
End Calls.
End ContractProperties.

(** X19. [_packValidationData] keeps its three fields apart: for a 4-byte
  magic value and two 48-bit times the result is a 256-bit word whose low 32
  bits are the magic value, whose bits 160 to 207 are [validUntil] and whose
  bits from 208 on are [validAfter]. *)
Theorem packValidationData_unpacks (magicValue validUntil validAfter : Z) :
  0 <= magicValue < 2 ^ 32 ->
  0 <= validUntil < 2 ^ 48 ->
  0 <= validAfter < 2 ^ 48 ->
  let packed :=
    SimpleAccount_7560._packValidationData magicValue validUntil validAfter in
  0 <= packed < 2 ^ 256 /\
  packed mod 2 ^ 32 = magicValue /\
  (packed / 2 ^ 160) mod 2 ^ 48 = validUntil /\
  packed / 2 ^ 208 = validAfter.
Proof.
intros Hm Hu Ha packed. subst packed.
rewrite packValidationData_sum by assumption.
assert (E160 : 2 ^ 160 = 2 ^ 32 * 2 ^ 128) by reflexivity.
assert (E208 : 2 ^ 208 = 2 ^ 160 * 2 ^ 48) by reflexivity.
assert (E256 : 2 ^ 256 = 2 ^ 208 * 2 ^ 48) by reflexivity.
assert (P32 : 0 < 2 ^ 32) by reflexivity.
assert (P128 : 0 < 2 ^ 128) by reflexivity.
assert (P160 : 0 < 2 ^ 160) by reflexivity.
assert (P208 : 0 < 2 ^ 208) by reflexivity.
assert (P48 : 0 < 2 ^ 48) by reflexivity.
assert (Hlow : 0 <= magicValue + validUntil * 2 ^ 160 < 2 ^ 208) by nia.
split; [nia|]. split; [|split].
- symmetry.
  apply (Z.mod_unique_pos _ _ (validUntil * 2 ^ 128 + validAfter * (2 ^ 128 * 2 ^ 48)));
    [lia | rewrite E208, E160; ring].
- assert (Hq : (magicValue + validUntil * 2 ^ 160 + validAfter * 2 ^ 208) / 2 ^ 160
               = validUntil + validAfter * 2 ^ 48).
  { symmetry. apply (Z.div_unique_pos _ _ _ magicValue); [nia|].
    rewrite E208. ring. }
  rewrite Hq. symmetry. apply (Z.mod_unique_pos _ _ validAfter); [lia | ring].
- symmetry.
  apply (Z.div_unique_pos _ _ _ (magicValue + validUntil * 2 ^ 160)); [lia | ring].
Qed.

Section ContractClaims.
Import SimpleAccount_7560.
Context {C : Type}.
Variable call : Address -> Address -> Z -> Hex -> State C -> (bool * Hex) * State C.
Variable decodeTransaction : Z -> Hex -> Checked RIP7560Transaction.
Variable VERSION : Z.
Variable toEthSignedMessageHash : Z -> Z.
Variable recover : Z -> Hex -> Checked Address.

(** X20. [validateTransaction] answers the entry point only, and with one of
  two words: for any other sender it reverts with "account: not from
  EntryPoint" whatever the transaction; for the entry point, once the
  transaction decodes and a signer is recovered from its authorization data
  over the Ethereum-signed-message hash of [txHash], the result is exactly
  [MAGIC_VALUE_SENDER] when the signer is the owner and exactly
  [MAGIC_VALUE_SIGFAIL] when it is not. *)
Theorem validateTransaction_answers (msg : Msg) (version txHash : Z)
    (transaction : Hex) (s : State C) :
  (sender msg <> 0x7560 ->
   validateTransaction decodeTransaction VERSION toEthSignedMessageHash recover
     msg version txHash transaction s
   = Fails (ErrorString "account: not from EntryPoint")) /\
  (forall _tx signer,
      sender msg = 0x7560 ->
      decodeTransaction VERSION transaction = Fine _tx ->
      recover (toEthSignedMessageHash txHash) (authorizationData _tx) = Fine signer ->
      validateTransaction decodeTransaction VERSION toEthSignedMessageHash recover
        msg version txHash transaction s
      = Fine (if signer =? owner s then 0xbf45c166 else 0x31665494)).
Proof.
split.
- intros Hs. unfold validateTransaction, _requireFromEntryPoint, require.
  apply Z.eqb_neq in Hs. now rewrite Hs.
- intros _tx signer Hs Hd Hr.
  unfold validateTransaction, _requireFromEntryPoint, require.
  rewrite Hs. cbn [Z.eqb Pos.eqb].
  unfold _validateSignature. rewrite Hd, Hr.
  rewrite (Z.eqb_sym (owner s) signer).
  destruct (signer =? owner s); reflexivity.
Qed.

(** X21. [execute] and [executeBatch] are for the entry point and the owner:
  for any other sender (the account itself included) both revert with
  "account: not Owner or EntryPoint", and no call is made. *)
Theorem execute_rejects_strangers (msg : Msg) (s : State C) :
  sender msg <> _entryPoint -> sender msg <> owner s ->
  (forall dest value func,
      execute call msg dest value func s
      = Reverts (ErrorString "account: not Owner or EntryPoint")) /\
  (forall dest value func,
      executeBatch call msg dest value func s
      = Reverts (ErrorString "account: not Owner or EntryPoint")).
Proof.
intros H1 H2. apply Z.eqb_neq in H1, H2.
split; intros dest value func.
- unfold execute, evmBind, _requireFromEntryPointOrOwner, require.
  now rewrite H1, H2.
- unfold executeBatch, evmBind, _requireFromEntryPointOrOwner, require.
  now rewrite H1, H2.
Qed.

(** X22. [executeBatch] checks the lengths before any call: from the entry
  point or the owner, arrays in which the targets and the calldata differ in
  number, or in which the values are neither none nor as many as the
  calldata, revert with "wrong array lengths". *)
Theorem executeBatch_checks_lengths (msg : Msg) (s : State C)
    (dest : list Address) (value : list Z) (func : list Hex) :
  sender msg = _entryPoint \/ sender msg = owner s ->
  List.length dest <> List.length func \/
  (List.length value <> 0%nat /\ List.length value <> List.length func) ->
  executeBatch call msg dest value func s
  = Reverts (ErrorString "wrong array lengths").
Proof.
intros Hauth Hbad.
assert (Ha : (sender msg =? _entryPoint) || (sender msg =? owner s) = true).
{ apply orb_true_iff. destruct Hauth as [H|H]; [left|right]; now apply Z.eqb_eq. }
unfold executeBatch. unfold evmBind at 1.
unfold _requireFromEntryPointOrOwner, require. rewrite Ha.
unfold evmBind at 1.
assert (Hl : Nat.eqb (List.length dest) (List.length func)
             && (Nat.eqb (List.length value) 0
                 || Nat.eqb (List.length value) (List.length func)) = false).
{ apply andb_false_iff. destruct Hbad as [H|[H1 H2]].
  - left. now apply Nat.eqb_neq.
  - right. apply orb_false_iff. split; now apply Nat.eqb_neq. }
now rewrite Hl.
Qed.

(** X23. From the entry point or the owner and with arrays of fitting
  lengths, [executeBatch] makes the calls [(dest[i], value[i], func[i])] in
  the order of the arrays, with value 0 for every call when no values are
  given; the first call that fails reverts the whole with the data that call
  returned, and the calls after it are not made. *)
Theorem executeBatch_calls_in_order (msg : Msg) (s : State C)
    (dest : list Address) (value : list Z) (func : list Hex) :
  sender msg = _entryPoint \/ sender msg = owner s ->
  List.length dest = List.length func ->
  List.length value = 0%nat \/ List.length value = List.length func ->
  executeBatch call msg dest value func s
  = callsInOrder call msg
      (triples dest
         (match value with [] => repeat 0 (List.length dest) | _ => value end)
         func) s.
Proof.
intros Hauth Hdf Hv. apply executeBatch_authorized; try assumption.
apply orb_true_iff. destruct Hauth as [H|H]; [left|right]; now apply Z.eqb_eq.
Qed.

(** X24. What [encodeCalls] of the second revision encodes, the contract
  runs as the list of calls: for any list of calls but a single one the
  calldata is that of [executeBatch] over the targets, the values and the
  calldata of the calls, three arrays that pass the contract's check of
  lengths and on which [executeBatch] (from the entry point or the owner)
  makes one call per call of the list, in order, with value 0 and empty
  calldata where the call left them out; for a single call the calldata is
  that of [execute], which makes that one call. *)
Theorem encoded_batch_runs_in_order {codec : AbiCodec} (msg : Msg) (s : State C)
    (calls : list Call) :
  sender msg = _entryPoint \/ sender msg = owner s ->
  (List.length calls <> 1%nat ->
   Simple.Rev2.encodeCalls calls
   = encodeFunctionData Simple.Rev2.abi "executeBatch"
       [VArray (map VAddress (batchTargets calls));
        VArray (map VInt (batchValues calls));
        VArray (map VHex (batchData calls))]) /\
  executeBatch call msg (batchTargets calls) (batchValues calls) (batchData calls) s
  = callsInOrder call msg
      (map (fun c => (to c, orElse (value c) 0, orElse (data c) [])) calls) s /\
  (forall call0,
      calls = [call0] ->
      Simple.Rev2.encodeCalls calls
      = encodeFunctionData Simple.Rev2.abi "execute"
          [VAddress (to call0); VInt (orElse (value call0) 0);
           VHex (orElse (data call0) [])] /\
      execute call msg (to call0) (orElse (value call0) 0) (orElse (data call0) []) s
      = callsInOrder call msg
          (map (fun c => (to c, orElse (value c) 0, orElse (data c) [])) calls) s).
Proof.
intros Hauth.
assert (Ha : (sender msg =? _entryPoint) || (sender msg =? owner s) = true).
{ apply orb_true_iff. destruct Hauth as [H|H]; [left|right]; now apply Z.eqb_eq. }
split; [|split].
- intros Hn1. unfold batchTargets, batchValues, batchData. rewrite !map_map.
  destruct calls as [|c0 [|c1 calls']]; try reflexivity. now elim Hn1.
- rewrite executeBatch_authorized.
  + f_equal. unfold batchTargets, batchValues, batchData.
    destruct calls as [|c0 calls]; [reflexivity|].
    cbn [map]. clear Hauth. revert c0.
    induction calls as [|c1 calls IH]; intros c0; [reflexivity|].
    cbn [map triples]. f_equal. apply IH.
  + exact Ha.
  + unfold batchTargets, batchData. now rewrite !length_map.
  + right. unfold batchValues, batchData. now rewrite !length_map.
- intros call0 ->. split; [reflexivity|].
  cbn [map callsInOrder]. unfold execute.
  unfold evmBind at 1. unfold _requireFromEntryPointOrOwner, require. rewrite Ha.
  unfold evmBind.
  destruct (_call call msg (to call0) (orElse (value call0) 0)
              (orElse (data call0) []) s) as [[] s'|result]; reflexivity.
Qed.
End ContractClaims.

(* ------------------------------------------------------------------------- *)
(** * Properties of the transaction request formatter                         *)
(* ------------------------------------------------------------------------- *)

Section FormatterProperties.
Import TransactionRequestFormatter.
Variable numberToHex : Z -> Result string.
Variable bytesToHex : list byte -> string.

Lemma bindR_ok {A B} (r : Result A) (k : A -> Result B) b :
  bindR r k = Ok b -> exists a, r = Ok a /\ k a = Ok b.
Proof. destruct r as [a|e]; [|discriminate]. simpl. eauto. Qed.

Lemma quantity_set x y : quantity numberToHex x = Ok y -> set y = set x.
Proof.
destruct x as [n|]; simpl.
- destruct (numberToHex n); [|discriminate]. simpl. now intros [= <-].
- now intros [= <-].
Qed.




Lemma formatAuthorization_fields a a' :
  formatAuthorization numberToHex a = Ok a' ->
  rpc_address a' = contractAddress a /\ rpc_r a' = r a /\ rpc_s a' = s a /\
  numberToHex (chainId a) = Ok (rpc_chainId a') /\
  numberToHex (nonce a) = Ok (rpc_auth_nonce a') /\
  set (rpc_yParity a') = set (yParity a) /\
  set (rpc_v a') = set (v a) && negb (set (yParity a)).
Proof.
unfold formatAuthorization. intros H.
apply bindR_ok in H as (c & Ec & H). apply bindR_ok in H as (n & En & H).
apply bindR_ok in H as (y & Ey & H). apply bindR_ok in H as (x & Ex & H).
injection H as <-. cbn. repeat split; try assumption.
- now apply quantity_set.
- destruct (v a) as [v0|], (yParity a) as [y0|]; cbn in *;
    try (injection Ex as <-; reflexivity).
  destruct (numberToHex v0); [|discriminate]. now injection Ex as <-.
Qed.
End FormatterProperties.



(** X26. [formatAuthorizationList] keeps the items and their order, carries
  address, [r] and [s] over, and gives an item [yParity] exactly when the
  authorization has one and [v] exactly when the authorization has [v] and no
  [yParity]: no RPC authorization holds both. *)
Theorem formatAuthorizationList_v_without_yParity
    (numberToHex : Z -> Result string)
    (authorizationList : list TransactionRequestFormatter.Authorization)
    (formatted : list TransactionRequestFormatter.RpcAuthorization) :
  TransactionRequestFormatter.formatAuthorizationList numberToHex authorizationList
  = Ok formatted ->
  Forall2
    (fun a a' =>
       TransactionRequestFormatter.rpc_address a'
       = TransactionRequestFormatter.contractAddress a /\
       TransactionRequestFormatter.rpc_r a' = TransactionRequestFormatter.r a /\
       TransactionRequestFormatter.rpc_s a' = TransactionRequestFormatter.s a /\
       TransactionRequestFormatter.set (TransactionRequestFormatter.rpc_yParity a')
       = TransactionRequestFormatter.set (TransactionRequestFormatter.yParity a) /\
       TransactionRequestFormatter.set (TransactionRequestFormatter.rpc_v a')
       = TransactionRequestFormatter.set (TransactionRequestFormatter.v a)
         && negb (TransactionRequestFormatter.set
                    (TransactionRequestFormatter.yParity a)) /\
       (TransactionRequestFormatter.rpc_yParity a' = None \/
        TransactionRequestFormatter.rpc_v a' = None))
    authorizationList formatted.
Proof.
revert formatted.
induction authorizationList as [|a l IH]; intros formatted H.
- injection H as <-. constructor.
- cbn [TransactionRequestFormatter.formatAuthorizationList] in H.
  apply bindR_ok in H as (a' & Ea & H). apply bindR_ok in H as (l' & El & H).
  injection H as <-. constructor; [|now apply IH].
  destruct (formatAuthorization_fields _ _ Ea) as (H1 & H2 & H3 & _ & _ & H6 & H7).
  repeat split; try assumption.
  destruct (TransactionRequestFormatter.rpc_yParity a'); [|now left].
  right. destruct (TransactionRequestFormatter.rpc_v a'); [|reflexivity].
  cbn in H6, H7. rewrite <- H6 in H7. cbn in H7.
  rewrite andb_false_r in H7. discriminate.
Qed.

(* ------------------------------------------------------------------------- *)
(** * The further properties at work                                          *)
(* ------------------------------------------------------------------------- *)

(** More of the small world: a network whose calls reject, an owner without
  [sign], a client without a chain, a transaction. *)
Module DemoFurther.
Import ReferenceLaws.

Definition unreachable : Error := ExternalError "HttpRequestError" "fetch failed".

#[export] Instance offline : Collaborators Demo.World :=
  {| getCode := fun _ _ w => (Err unreachable, w);
     readContractNonce := fun _ _ _ _ w => (Err unreachable, w);
     readContractAddress := fun _ _ _ _ w => (Err unreachable, w);
     defaultNonceKeyManager :=
       {| consume := fun _ w => (Err unreachable, w) |};
     nonceManagerPredeployAddress :=
       nonceManagerPredeployAddress (Collaborators := Demo.collaborators);
     serializeErc6492Signature :=
       serializeErc6492Signature (Collaborators := Demo.collaborators);
     hashMessage := hashMessage (Collaborators := Demo.collaborators);
     hashTypedData := hashTypedData (Collaborators := Demo.collaborators);
     keccak256 := keccak256 (Collaborators := Demo.collaborators);
     serializeTransaction :=
       serializeTransaction (Collaborators := Demo.collaborators) |}.

Definition implementationOffline
    : NativeSmartAccountImplementation (Simple.SimpleState Demo.World) Simple.Extend :=
  Simple.Rev2.implementation (codec := referenceCodec) (col := offline)
    Demo.parameters.

Definition readOnlyOwner : Simple.LocalAccount Demo.World :=
  {| Simple.owner_address := 0xf39fd6e51aad88f6f4ce6ab8827279cfffb92266;
     Simple.owner_sign := None |}.

Definition readOnlyParameters : Simple.ToSimpleNativeSmartAccountParameters Demo.World :=
  {| Simple.p_address := None;
     Simple.p_client := Demo.client;
     Simple.p_owner := readOnlyOwner;
     Simple.p_nonce := None |}.


Definition chainlessParameters : Simple.ToSimpleNativeSmartAccountParameters Demo.World :=
  {| Simple.p_address := None;
     Simple.p_client := {| chain := None |};
     Simple.p_owner := Demo.owner;
     Simple.p_nonce := None |}.

Definition implementationChainless
    : NativeSmartAccountImplementation (Simple.SimpleState Demo.World) Simple.Extend :=
  Simple.Rev2.implementation (codec := referenceCodec) (col := Demo.collaborators)
    chainlessParameters.

Definition givenAddress : Address := 0x1111111111111111111111111111111111111111.

Definition addressedParameters : Simple.ToSimpleNativeSmartAccountParameters Demo.World :=
  {| Simple.p_address := Some givenAddress;
     Simple.p_client := Demo.client;
     Simple.p_owner := Demo.owner;
     Simple.p_nonce := None |}.

(** Code arrives at every address: what a later probe would see. *)
Definition codeArrives (s : Simple.SimpleState Demo.World) : Simple.SimpleState Demo.World :=
  {| Simple.address_var := Simple.address_var s; Simple.outside := Demo.fullChain |}.

(** A state whose flag is set. *)
Definition deployedOn (w : Demo.World) : AccountState (Simple.SimpleState Demo.World) :=
  {| deployed := true; world := world (Demo.stateOn w) |}.

(** A transaction that names another sender and no chain. *)
Definition transaction : TransactionSerializable :=
  {| tx_chainId := None;
     tx_sender := Some 0x2222222222222222222222222222222222222222;
     tx_nonceKey := Some 0; tx_nonce := Some 7;
     tx_executionData := Some [x12; x34]; tx_builderFee := None;
     tx_verificationGasLimit := Some 100000; tx_deployer := None;
     tx_deployerData := None; tx_paymaster := None; tx_paymasterData := None;
     tx_paymasterVerificationGasLimit := None;
     tx_paymasterPostOpGasLimit := None; tx_authorizationData := None;
     tx_gas := Some 21000; tx_maxFeePerGas := Some 2000000000;
     tx_maxPriorityFeePerGas := Some 1000000000 |}.
(** Calldata of [executeBatch] with two targets, no values and one calldata. *)
Definition raggedBatch : Hex :=
  match
    encodeFunctionData (AbiCodec := ReferenceLaws.referenceCodec)
      Simple.Rev2.abi "executeBatch"
      [VArray [VAddress 0xaaaaaaaaaaaaaaaaaaaaaaaaaaaaaaaaaaaaaaaa;
               VAddress 0xbbbbbbbbbbbbbbbbbbbbbbbbbbbbbbbbbbbbbbbb];
       VArray [];
       VArray [VHex [x12; x34]]]
  with
  | Ok calldata => calldata
  | Err _ => []
  end.

End DemoFurther.

Lemma isDeployed_reprobes_after_false_witness :
  isDeployed (col := Simple.collaborators (col := Demo.collaborators))
    DemoAccount.implementation2 Demo.accountAddress (Demo.stateOn Demo.emptyChain)
  = (Ok false, Demo.stateOn Demo.emptyChain) /\
  deployed (Demo.stateOn Demo.emptyChain) = false /\
  isDeployed (col := Simple.collaborators (col := Demo.collaborators))
    DemoAccount.implementation2 Demo.accountAddress
    (changeWorld DemoFurther.codeArrives (Demo.stateOn Demo.emptyChain))
  = (Ok true, DemoFurther.deployedOn Demo.fullChain).
Proof.
match goal with |- ?A /\ _ => assert (H1 : A) by reflexivity end.
split; [exact H1|].
exact (@isDeployed_reprobes_after_false _ _
  (Simple.collaborators (col := Demo.collaborators))
  DemoAccount.implementation2 Demo.accountAddress _ _
  DemoFurther.codeArrives [x60; x80] _ H1 eq_refl).
Defined.


Lemma deployed_account_signs_raw_witness :
  deployed (DemoFurther.deployedOn Demo.emptyChain) = true /\
  Account.signMessage DemoAccount.account2 (MessageString "hi")
    (DemoFurther.deployedOn Demo.emptyChain)
  = inWorld (Implementation.signMessage DemoAccount.implementation2
               (MessageString "hi"))
      (DemoFurther.deployedOn Demo.emptyChain).
Proof.
split; [reflexivity|].
exact (proj1 (@deployed_account_signs_raw _ _
  (Simple.collaborators (col := Demo.collaborators))
  DemoAccount.implementation2 Demo.accountAddress
  (DemoFurther.deployedOn Demo.emptyChain) eq_refl) (MessageString "hi")).
Defined.


Lemma getNonce_fails_before_lookup_witness :
  (exists message,
      Account.getNonce
        (account (col := Simple.collaborators (col := Demo.collaborators))
           DemoFurther.implementationChainless Demo.accountAddress)
        None (Demo.stateOn Demo.emptyChain)
      = (Err (TypeError message), Demo.stateOn Demo.emptyChain)) /\
  Account.getNonce
    (account (col := Simple.collaborators (col := DemoFurther.offline))
       DemoFurther.implementationOffline Demo.accountAddress)
    (Some {| key := None |}) (Demo.stateOn Demo.emptyChain)
  = (Err DemoFurther.unreachable, Demo.stateOn Demo.emptyChain).
Proof.
split.
- exact (proj1 (@getNonce_fails_before_lookup _ _
    (Simple.collaborators (col := Demo.collaborators))
    DemoFurther.implementationChainless Demo.accountAddress None
    (Demo.stateOn Demo.emptyChain) eq_refl) eq_refl).
- exact (proj2 (@getNonce_fails_before_lookup _ _
    (Simple.collaborators (col := DemoFurther.offline))
    DemoFurther.implementationOffline Demo.accountAddress
    (Some {| key := None |}) (Demo.stateOn Demo.emptyChain) eq_refl)
    {| chain_id := 11171168 |} DemoFurther.unreachable
    (Demo.stateOn Demo.emptyChain) eq_refl eq_refl).
Defined.

Lemma deployed_flag_survives_operations_witness :
  deployed (DemoFurther.deployedOn Demo.fullChain) = true /\
  deployed
    (stateAfterAll DemoAccount.account2
       [(DemoAccount.codeGone, CallIsDeployed);
        (id, CallSignMessage (MessageString "hi"));
        (DemoAccount.codeGone, CallGetNonce None);
        (id, CallGetDeployerArgs)]
       (DemoFurther.deployedOn Demo.fullChain))
  = true.
Proof.
split; [reflexivity|].
exact (@deployed_flag_survives_operations _ _
  (Simple.collaborators (col := Demo.collaborators))
  DemoAccount.implementation2 Demo.accountAddress
  [(DemoAccount.codeGone, CallIsDeployed);
   (id, CallSignMessage (MessageString "hi"));
   (DemoAccount.codeGone, CallGetNonce None);
   (id, CallGetDeployerArgs)]
  (DemoFurther.deployedOn Demo.fullChain) eq_refl).
Defined.

Lemma undeployed_simple_account_wraps_witness :
  exists calldata raw w2,
    deployed (Demo.stateOn Demo.emptyChain) = false /\
    encodeFunctionData (AbiCodec := ReferenceLaws.referenceCodec)
      Simple.Rev2.deployerAbi "createAccount"
      [VAddress 0xf39fd6e51aad88f6f4ce6ab8827279cfffb92266; VInt 0]
    = Ok calldata /\
    Account.signMessage DemoAccount.account2 (MessageString "hi")
      (Demo.stateOn Demo.emptyChain)
    = (Ok (serializeErc6492Signature (Collaborators := Demo.collaborators)
             0x0ba5ed0c6aa8c49038f819e587e2633c4a9f428a calldata raw),
       {| deployed := false; world := w2 |}).
Proof.
do 3 eexists.
match goal with
| |- ?A /\ ?B /\ _ =>
  assert (H1 : A) by reflexivity;
  assert (H2 : B) by (vm_compute; reflexivity)
end.
split; [exact H1|]. split; [exact H2|].
exact (@undeployed_simple_account_wraps _ ReferenceLaws.referenceCodec
  Demo.collaborators Simple.Rev2.abi Simple.Rev2.deployerAbi
  Simple.Rev2.encodeCalls Simple.Rev2.decodeCalls Demo.parameters
  Demo.accountAddress (Demo.stateOn Demo.emptyChain) Demo.emptyChain _ _ _
  (MessageString "hi") H1 eq_refl H2 eq_refl).
Defined.

Lemma explicit_address_needs_no_read_witness :
  exists acct,
    Simple.Rev2.toSimpleNativeSmartAccount (codec := ReferenceLaws.referenceCodec)
      (col := DemoFurther.offline) DemoFurther.addressedParameters
      (Simple.newSimpleState DemoFurther.addressedParameters Demo.emptyChain)
    = (Ok acct,
       Simple.newSimpleState DemoFurther.addressedParameters Demo.emptyChain) /\
    Account.address acct = DemoFurther.givenAddress.
Proof.
exact (@explicit_address_needs_no_read _ ReferenceLaws.referenceCodec
  DemoFurther.offline Simple.Rev2.abi Simple.Rev2.deployerAbi
  (Simple.Rev2.encodeCalls (codec := ReferenceLaws.referenceCodec))
  (Simple.Rev2.decodeCalls (codec := ReferenceLaws.referenceCodec))
  DemoFurther.addressedParameters DemoFurther.givenAddress Demo.emptyChain
  eq_refl).
Defined.

Lemma getAddress_reads_once_witness :
  (Simple.getAddress (col := Demo.collaborators) Simple.Rev2.deployerAbi
     Demo.parameters (Simple.newSimpleState Demo.parameters Demo.emptyChain)
   = (Ok Demo.accountAddress, world (Demo.stateOn Demo.emptyChain)) /\
   Simple.getAddress (col := Demo.collaborators) Simple.Rev2.deployerAbi
     Demo.parameters (world (Demo.stateOn Demo.fullChain))
   = (Ok Demo.accountAddress, world (Demo.stateOn Demo.fullChain))) /\
  Simple.getAddress (col := DemoFurther.offline) Simple.Rev2.deployerAbi
    Demo.parameters (Simple.newSimpleState Demo.parameters Demo.emptyChain)
  = (Err DemoFurther.unreachable,
     Simple.newSimpleState Demo.parameters Demo.emptyChain).
Proof.
split.
- pose proof (proj1 (@getAddress_reads_once _ Demo.collaborators
    Simple.Rev2.deployerAbi Demo.parameters
    (Simple.newSimpleState Demo.parameters Demo.emptyChain) eq_refl)
    Demo.accountAddress Demo.emptyChain eq_refl) as [Hread Hkept].
  split; [exact Hread | exact (Hkept Demo.fullChain)].
- exact (proj2 (@getAddress_reads_once _ DemoFurther.offline
    Simple.Rev2.deployerAbi Demo.parameters
    (Simple.newSimpleState Demo.parameters Demo.emptyChain) eq_refl)
    DemoFurther.unreachable Demo.emptyChain eq_refl).
Defined.

Lemma signTransaction_binds_sender_and_chain_witness :
  exists serialized,
    serializeTransaction (Collaborators := Demo.collaborators)
      (withSenderAndChain DemoFurther.transaction Demo.accountAddress 11171168)
    = Ok serialized /\
    Simple.signTransaction (col := Demo.collaborators) Simple.Rev2.deployerAbi
      Demo.parameters DemoFurther.transaction
      (world (Demo.stateOn Demo.emptyChain))
    = Simple.inOutside
        (Demo.ownerSign
           (keccak256 (Collaborators := Demo.collaborators) serialized))
        (world (Demo.stateOn Demo.emptyChain)).
Proof.
eexists.
match goal with |- ?A /\ _ => assert (H1 : A) by reflexivity end.
split; [exact H1|].
exact (@signTransaction_binds_sender_and_chain _ Demo.collaborators
  Simple.Rev2.deployerAbi Demo.parameters DemoFurther.transaction
  (world (Demo.stateOn Demo.emptyChain)) (world (Demo.stateOn Demo.emptyChain))
  11171168 Demo.accountAddress _ Demo.ownerSign eq_refl eq_refl H1 eq_refl).
Defined.

Lemma signing_requires_owner_sign_witness :
  Simple.sign (col := Demo.collaborators) Simple.Rev2.deployerAbi
    DemoFurther.readOnlyParameters
    (hashMessage (Collaborators := Demo.collaborators) (MessageString "hi"))
    (world (Demo.stateOn Demo.emptyChain))
  = (Err (BaseError "`owner` does not support raw sign."),
     world (Demo.stateOn Demo.emptyChain)) /\
  Simple.signMessage (col := Demo.collaborators) Simple.Rev2.deployerAbi
    DemoFurther.readOnlyParameters (MessageString "hi")
    (world (Demo.stateOn Demo.emptyChain))
  = (Err (BaseError "`owner` does not support raw sign."),
     world (Demo.stateOn Demo.emptyChain)) /\
  Simple.signTransaction (col := Demo.collaborators) Simple.Rev2.deployerAbi
    DemoFurther.readOnlyParameters DemoFurther.transaction
    (world (Demo.stateOn Demo.emptyChain))
  = (Err (BaseError "`owner` does not support raw sign."),
     world (Demo.stateOn Demo.emptyChain)).
Proof.
pose proof (@signing_requires_owner_sign _ Demo.collaborators
  Simple.Rev2.deployerAbi DemoFurther.readOnlyParameters
  (world (Demo.stateOn Demo.emptyChain)) (world (Demo.stateOn Demo.emptyChain))
  Demo.accountAddress {| chain_id := 11171168 |} eq_refl eq_refl eq_refl)
  as (Hsign & Hmessage & Htransaction).
split; [|split].
- exact (Hsign _ _ eq_refl).
- exact (Hmessage (MessageString "hi") _ eq_refl).
- exact (Htransaction DemoFurther.transaction _ eq_refl).
Defined.


Lemma encodeCalls_of_no_calls_witness :
  (exists calldata,
      Simple.Rev1.encodeCalls (codec := ReferenceLaws.referenceCodec) []
      = Ok calldata /\
      selectorOf calldata
      = toFunctionSelector (AbiCodec := ReferenceLaws.referenceCodec)
          Simple.Rev1.executeBatchFunction /\
      Simple.Rev1.decodeCalls (codec := ReferenceLaws.referenceCodec) calldata
      = Ok []) /\
  (exists calldata,
      Simple.Rev2.encodeCalls (codec := ReferenceLaws.referenceCodec) []
      = Ok calldata /\
      selectorOf calldata
      = toFunctionSelector (AbiCodec := ReferenceLaws.referenceCodec)
          Simple.Rev2.executeBatchFunction /\
      Simple.Rev2.decodeCalls (codec := ReferenceLaws.referenceCodec) calldata
      = Ok []).
Proof.
split.
- exact (proj1 (encodeCalls_of_no_calls (codec := ReferenceLaws.referenceCodec))
           rev1_selectors_distinct).
- exact (proj2 (encodeCalls_of_no_calls (codec := ReferenceLaws.referenceCodec))
           rev2_selectors_distinct).
Defined.

Lemma rev2_decodeCalls_reads_by_index_witness :
  Simple.Rev2.decodeCalls (codec := ReferenceLaws.referenceCodec) DemoFurther.raggedBatch
  = Ok [{| to := 0xaaaaaaaaaaaaaaaaaaaaaaaaaaaaaaaaaaaaaaaa;
           data := Some [x12; x34]; value := None |};
        {| to := 0xbbbbbbbbbbbbbbbbbbbbbbbbbbbbbbbbbbbbbbbb;
           data := None; value := None |}].
Proof.
assert (H : decodeFunctionData (AbiCodec := ReferenceLaws.referenceCodec)
              Simple.Rev2.abi DemoFurther.raggedBatch
            = Ok {| functionName := "executeBatch";
                    args := [VArray (map VAddress
                                       [0xaaaaaaaaaaaaaaaaaaaaaaaaaaaaaaaaaaaaaaaa;
                                        0xbbbbbbbbbbbbbbbbbbbbbbbbbbbbbbbbbbbbbbbb]);
                             VArray (map VInt []);
                             VArray (map VHex [[x12; x34]])] |})
  by (vm_compute; reflexivity).
exact (proj1 (rev2_decodeCalls_reads_by_index
                (codec := ReferenceLaws.referenceCodec) _ _ _ _ H)).
Defined.

Lemma estimateGas_of_its_result_witness :
  is_uint256 (2 ^ 53 + 1) /\
  Simple.estimateGas (withVerificationGasLimit (Some (2 ^ 53 + 1)))
  = Ok (Some (onlyVerificationGasLimit (2 ^ 53))) /\
  Simple.estimateGas (withVerificationGasLimit (Some (2 ^ 53)))
  = Ok (Some (onlyVerificationGasLimit (2 ^ 53))).
Proof.
assert (H0 : is_uint256 (2 ^ 53 + 1)).
{ unfold is_uint256. split; [apply Z.leb_le | apply Z.leb_le]; vm_compute; reflexivity. }
assert (H1 : Simple.estimateGas (withVerificationGasLimit (Some (2 ^ 53 + 1)))
             = Ok (Some (onlyVerificationGasLimit (2 ^ 53))))
  by (vm_compute; reflexivity).
split; [exact H0|]. split; [exact H1|].
exact (estimateGas_of_its_result
         (withVerificationGasLimit (Some (2 ^ 53 + 1))) H0 H1).
Defined.

Lemma estimateGas_beyond_doubles_witness :
  exists message,
    Simple.estimateGas (withVerificationGasLimit (Some (2 ^ 1024)))
    = Err (RangeError message).
Proof.
exact (estimateGas_beyond_doubles
         (withVerificationGasLimit (Some (2 ^ 1024))) eq_refl (Z.le_refl _)).
Defined.

Lemma packValidationData_unpacks_witness :
  SimpleAccount_7560._packValidationData 0xbf45c166 1730000000 1720000000
  mod 2 ^ 32 = 0xbf45c166 /\
  (SimpleAccount_7560._packValidationData 0xbf45c166 1730000000 1720000000
   / 2 ^ 160) mod 2 ^ 48 = 1730000000 /\
  SimpleAccount_7560._packValidationData 0xbf45c166 1730000000 1720000000
  / 2 ^ 208 = 1720000000.
Proof.
assert (Hm : 0 <= 0xbf45c166 < 2 ^ 32) by in_range.
assert (Hu : 0 <= 1730000000 < 2 ^ 48) by in_range.
assert (Ha : 0 <= 1720000000 < 2 ^ 48) by in_range.
exact (proj2 (packValidationData_unpacks Hm Hu Ha)).
Defined.

(** The account contract on a chain that keeps the calls made: a call to the
  burn address fails, returning its calldata; any other succeeds. *)
Module DemoContract.
Import SimpleAccount_7560.

Definition Calls : Type := list (Address * Address * Z * Hex).

Definition burn : Address := 0x000000000000000000000000000000000000dead.

Definition call (caller target : Address) (value : Z) (data : Hex)
    (s : State Calls) : (bool * Hex) * State Calls :=
  ((negb (target =? burn), data),
   {| owner := owner s; rest := rest s ++ [(caller, target, value, data)] |}).

(** Stand-ins for the libraries: a transaction is its authorization data, a
  signature the 20 bytes of its signer. *)
Definition decodeTransaction (version : Z) (transaction : Hex)
    : Checked RIP7560Transaction :=
  match transaction with
  | [] => Fails (LibraryError "decodeTransaction")
  | _ => Fine {| authorizationData := transaction |}
  end.

Definition VERSION : Z := 1.

Definition toEthSignedMessageHash (hash : Z) : Z := (hash + 0x19) mod 2 ^ 256.

Definition recover (hash : Z) (signature : Hex) : Checked Address :=
  if Nat.eqb (List.length signature) 20
  then Fine (Reference.zOfBytes signature)
  else Fails (LibraryError "ECDSAInvalidSignatureLength").

Definition theOwner : Address := 0xf39fd6e51aad88f6f4ce6ab8827279cfffb92266.

Definition deployedAccount : State Calls := {| owner := theOwner; rest := [] |}.

Definition fromEntryPoint : Msg :=
  {| sender := 0x0000000000000000000000000000000000007560;
     this := Demo.accountAddress |}.

Definition fromStranger : Msg :=
  {| sender := 0x2222222222222222222222222222222222222222;
     this := Demo.accountAddress |}.

Definition fromOwner : Msg := {| sender := theOwner; this := Demo.accountAddress |}.
End DemoContract.

Lemma validateTransaction_answers_witness :
  SimpleAccount_7560.validateTransaction DemoContract.decodeTransaction
    DemoContract.VERSION DemoContract.toEthSignedMessageHash DemoContract.recover
    DemoContract.fromStranger 1 5 (bytesOfZ 20 DemoContract.theOwner)
    DemoContract.deployedAccount
  = SimpleAccount_7560.Fails
      (SimpleAccount_7560.ErrorString "account: not from EntryPoint") /\
  SimpleAccount_7560.validateTransaction DemoContract.decodeTransaction
    DemoContract.VERSION DemoContract.toEthSignedMessageHash DemoContract.recover
    DemoContract.fromEntryPoint 1 5 (bytesOfZ 20 DemoContract.theOwner)
    DemoContract.deployedAccount
  = SimpleAccount_7560.Fine 0xbf45c166 /\
  SimpleAccount_7560.validateTransaction DemoContract.decodeTransaction
    DemoContract.VERSION DemoContract.toEthSignedMessageHash DemoContract.recover
    DemoContract.fromEntryPoint 1 5 (bytesOfZ 20 DemoContract.burn)
    DemoContract.deployedAccount
  = SimpleAccount_7560.Fine 0x31665494.
Proof.
split; [|split].
- apply (proj1 (validateTransaction_answers DemoContract.decodeTransaction
    DemoContract.VERSION DemoContract.toEthSignedMessageHash DemoContract.recover
    DemoContract.fromStranger 1 5 (bytesOfZ 20 DemoContract.theOwner)
    DemoContract.deployedAccount)).
  vm_compute. discriminate.
- exact (proj2 (validateTransaction_answers DemoContract.decodeTransaction
    DemoContract.VERSION DemoContract.toEthSignedMessageHash DemoContract.recover
    DemoContract.fromEntryPoint 1 5 (bytesOfZ 20 DemoContract.theOwner)
    DemoContract.deployedAccount) _ DemoContract.theOwner eq_refl eq_refl eq_refl).
- exact (proj2 (validateTransaction_answers DemoContract.decodeTransaction
    DemoContract.VERSION DemoContract.toEthSignedMessageHash DemoContract.recover
    DemoContract.fromEntryPoint 1 5 (bytesOfZ 20 DemoContract.burn)
    DemoContract.deployedAccount) _ DemoContract.burn eq_refl eq_refl eq_refl).
Defined.

Lemma execute_rejects_strangers_witness :
  SimpleAccount_7560.execute DemoContract.call DemoContract.fromStranger
    Demo.accountAddress 1 [] DemoContract.deployedAccount
  = SimpleAccount_7560.Reverts
      (SimpleAccount_7560.ErrorString "account: not Owner or EntryPoint") /\
  SimpleAccount_7560.executeBatch DemoContract.call DemoContract.fromStranger
    [Demo.accountAddress] [] [[]] DemoContract.deployedAccount
  = SimpleAccount_7560.Reverts
      (SimpleAccount_7560.ErrorString "account: not Owner or EntryPoint").
Proof.
assert (H1 : SimpleAccount_7560.sender DemoContract.fromStranger
             <> SimpleAccount_7560._entryPoint) by (vm_compute; discriminate).
assert (H2 : SimpleAccount_7560.sender DemoContract.fromStranger
             <> SimpleAccount_7560.owner DemoContract.deployedAccount)
  by (vm_compute; discriminate).
pose proof (execute_rejects_strangers DemoContract.call
  DemoContract.fromStranger DemoContract.deployedAccount H1 H2) as [He Hb].
split; [apply He | apply Hb].
Defined.

Lemma executeBatch_checks_lengths_witness :
  SimpleAccount_7560.executeBatch DemoContract.call DemoContract.fromOwner
    [Demo.accountAddress; DemoContract.burn] [1] [[]; []]
    DemoContract.deployedAccount
  = SimpleAccount_7560.Reverts (SimpleAccount_7560.ErrorString "wrong array lengths").
Proof.
apply (executeBatch_checks_lengths DemoContract.call DemoContract.fromOwner
  DemoContract.deployedAccount [Demo.accountAddress; DemoContract.burn] [1]
  [[]; []]).
- right. reflexivity.
- right. split; discriminate.
Defined.

Lemma executeBatch_calls_in_order_witness :
  SimpleAccount_7560.executeBatch DemoContract.call DemoContract.fromEntryPoint
    [DemoContract.theOwner; DemoContract.burn; DemoContract.theOwner] []
    [[x01]; [x02]; [x03]] DemoContract.deployedAccount
  = SimpleAccount_7560.callsInOrder DemoContract.call DemoContract.fromEntryPoint
      [(DemoContract.theOwner, 0, [x01]); (DemoContract.burn, 0, [x02]);
       (DemoContract.theOwner, 0, [x03])]
      DemoContract.deployedAccount /\
  SimpleAccount_7560.executeBatch DemoContract.call DemoContract.fromEntryPoint
    [DemoContract.theOwner; DemoContract.burn; DemoContract.theOwner] []
    [[x01]; [x02]; [x03]] DemoContract.deployedAccount
  = SimpleAccount_7560.Reverts (SimpleAccount_7560.ReturnData [x02]).
Proof.
assert (H : SimpleAccount_7560.executeBatch DemoContract.call
              DemoContract.fromEntryPoint
              [DemoContract.theOwner; DemoContract.burn; DemoContract.theOwner] []
              [[x01]; [x02]; [x03]] DemoContract.deployedAccount
            = SimpleAccount_7560.callsInOrder DemoContract.call
                DemoContract.fromEntryPoint
                [(DemoContract.theOwner, 0, [x01]); (DemoContract.burn, 0, [x02]);
                 (DemoContract.theOwner, 0, [x03])]
                DemoContract.deployedAccount).
{ apply (executeBatch_calls_in_order DemoContract.call
    DemoContract.fromEntryPoint DemoContract.deployedAccount
    [DemoContract.theOwner; DemoContract.burn; DemoContract.theOwner] []
    [[x01]; [x02]; [x03]]).
  - left. reflexivity.
  - reflexivity.
  - left. reflexivity. }
split; [exact H|]. rewrite H. reflexivity.
Defined.

Lemma encoded_batch_runs_in_order_witness :
  Simple.Rev2.encodeCalls (codec := ReferenceLaws.referenceCodec)
    [Demo.callA; Demo.callB]
  = encodeFunctionData (AbiCodec := ReferenceLaws.referenceCodec)
      Simple.Rev2.abi "executeBatch"
      [VArray (map VAddress (batchTargets [Demo.callA; Demo.callB]));
       VArray (map VInt (batchValues [Demo.callA; Demo.callB]));
       VArray (map VHex (batchData [Demo.callA; Demo.callB]))] /\
  SimpleAccount_7560.executeBatch DemoContract.call DemoContract.fromOwner
    (batchTargets [Demo.callA; Demo.callB]) (batchValues [Demo.callA; Demo.callB])
    (batchData [Demo.callA; Demo.callB]) DemoContract.deployedAccount
  = SimpleAccount_7560.callsInOrder DemoContract.call DemoContract.fromOwner
      [(0xaaaaaaaaaaaaaaaaaaaaaaaaaaaaaaaaaaaaaaaa, 0, [x12; x34]);
       (0xbbbbbbbbbbbbbbbbbbbbbbbbbbbbbbbbbbbbbbbb, 100, [])]
      DemoContract.deployedAccount.
Proof.
pose proof (encoded_batch_runs_in_order DemoContract.call
  (codec := ReferenceLaws.referenceCodec) DemoContract.fromOwner
  DemoContract.deployedAccount [Demo.callA; Demo.callB]
  (or_intror eq_refl)) as (Hencode & Hrun & _).
split; [apply Hencode; discriminate | exact Hrun].
Defined.

(** [numberToHex] and [bytesToHex] on the small scale: a negative number is
  out of range, a byte is two digits. *)
Module DemoFormatter.
Import TransactionRequestFormatter.

Definition numberToHex (value : Z) : Result string :=
  if value <? 0
  then Err (ExternalError "IntegerOutOfRangeError" "Number is not in safe range")
  else Ok (HexString.of_Z value).


Definition signedWithYParity : Authorization :=
  {| contractAddress := 0xaaaaaaaaaaaaaaaaaaaaaaaaaaaaaaaaaaaaaaaa;
     r := [x01]; s := [x02]; chainId := 11171168; nonce := 3;
     yParity := Some 1; v := Some 28 |}.

Definition signedWithV : Authorization :=
  {| contractAddress := 0xbbbbbbbbbbbbbbbbbbbbbbbbbbbbbbbbbbbbbbbb;
     r := [x03]; s := [x04]; chainId := 11171168; nonce := 4;
     yParity := None; v := Some 27 |}.

End DemoFormatter.


Lemma formatAuthorizationList_v_without_yParity_witness :
  exists first second,
    TransactionRequestFormatter.formatAuthorizationList DemoFormatter.numberToHex
      [DemoFormatter.signedWithYParity; DemoFormatter.signedWithV]
    = Ok [first; second] /\
    TransactionRequestFormatter.rpc_v first = None /\
    TransactionRequestFormatter.rpc_yParity second = None.
Proof.
do 2 eexists.
match goal with |- ?A /\ _ => assert (H1 : A) by (vm_compute; reflexivity) end.
split; [exact H1|].
pose proof (formatAuthorizationList_v_without_yParity _ _ H1) as H.
inversion H as [|? ? ? ? (_ & _ & _ & _ & _ & [Hy|Hv]) H']; subst.
- discriminate Hy.
- split; [exact Hv|].
  inversion H' as [|? ? ? ? (_ & _ & _ & _ & _ & [Hy'|Hv']) _]; subst.
  + exact Hy'.
  + discriminate Hv'.
Defined.

Lemma isDeployed_overlapping_resets_flag_witness :
  deployed (Demo.stateOn Demo.emptyChain) = false /\
  let (first, s1) := isDeployed_resume (Some [x60; x80]) (Demo.stateOn Demo.emptyChain) in
  let (second, s2) := isDeployed_resume None s1 in
  first = true /\ deployed s1 = true /\ second = false /\ deployed s2 = false.
Proof.
split; [reflexivity|].
exact (proj2 (isDeployed_overlapping_resets_flag (Demo.stateOn Demo.emptyChain)
                [x60; x80] eq_refl)).
Defined.
